(** * Connectchat: the chat data-access and conversation-assembly layer

    A shallow embedding of [server/storage.ts] (class [MemStorage]) and of
    the HTTP handlers of [server/routes.ts] that drive it, followed by the
    properties the specification states about them.

    Modelling conventions.
    - JavaScript numbers that hold identifiers, limits and [Date.getTime()]
      values are integers [Z].
    - A JavaScript string is held as the bytes of its UTF-8 encoding;
      comparing the bytes is [===] on the strings.
    - A JavaScript [Map<number, V>] is an association list in insertion
      order: [Map.prototype.set] on a present key replaces the value in
      place, on an absent key it appends; [values()] iterates in that order.
    - [new Date()] reads a clock the program does not control.  The world
      carries the sequence of values the successive reads return.
    - [async] methods are awaited one after the other by every caller, so a
      method that writes is a state transformer and a method that only
      reads is a function of the store.
    - No method of [MemStorage] throws, so the [catch] branch of a handler
      is taken only when the request body fails to parse; the handlers are
      modelled from the parsed body on. *)

From Stdlib Require Import String Ascii ZArith List Bool Lia.
From Stdlib Require Import Sorting.Sorted Sorting.Permutation.
From Stdlib Require Import DecimalString.
Import ListNotations.
Open Scope Z_scope.



(** ** JavaScript containers *)

Module JsMap.

Definition t (V : Type) : Type := list (Z * V).

Definition empty {V : Type} : t V := [].

Fixpoint get {V : Type} (k : Z) (m : t V) : option V :=
  match m with
  | [] => None
  | (k', v) :: m' => if k =? k' then Some v else get k m'
  end.

Fixpoint set {V : Type} (k : Z) (v : V) (m : t V) : t V :=
  match m with
  | [] => [(k, v)]
  | (k', v') :: m' =>
      if k =? k' then (k, v) :: m' else (k', v') :: set k v m'
  end.

Definition keys {V : Type} (m : t V) : list Z := map fst m.

Definition values {V : Type} (m : t V) : list V := map snd m.

End JsMap.

Module JsArray.

(** [Array.prototype.sort(cmp)]: a stable sort (ECMAScript 2019); [a] goes
    before [b] when [cmp a b < 0] and equal elements keep their order. *)
Fixpoint insertBy {A : Type} (cmp : A -> A -> Z) (a : A) (l : list A)
  : list A :=
  match l with
  | [] => [a]
  | b :: l' => if cmp a b <=? 0 then a :: l else b :: insertBy cmp a l'
  end.

Definition sort {A : Type} (cmp : A -> A -> Z) (l : list A) : list A :=
  fold_right (insertBy cmp) [] l.

(** [Array.prototype.slice(0, end)] for an integer [end]: a negative [end]
    counts from the end of the array. *)
Definition slice0 {A : Type} (e : Z) (l : list A) : list A :=
  if e <? 0
  then firstn (Z.to_nat (Z.max (Z.of_nat (length l) + e) 0)) l
  else firstn (Z.to_nat e) l.

(** [chats.filter(chat => chat !== undefined)]. *)
Fixpoint defined {A : Type} (l : list (option A)) : list A :=
  match l with
  | [] => []
  | Some a :: l' => a :: defined l'
  | None :: l' => defined l'
  end.

Definition isDefined {A : Type} (o : option A) : bool :=
  match o with Some _ => true | None => false end.

End JsArray.

(** ** Entities ([shared/schema.ts]) *)

Module User.
Record t : Type := mk
  { id : Z; username : string; isOnline : bool; lastSeen : Z }.
End User.

Module InsertUser.
Record t : Type := mk { username : string }.
End InsertUser.

Module Chat.
Record t : Type := mk
  { id : Z; name : option string; type : string;
    createdBy : Z; createdAt : Z }.
End Chat.

(** [InsertChat & { createdBy: number }]. *)
Module InsertChat.
Record t : Type := mk
  { name : option string; type : string; createdBy : Z }.
End InsertChat.

Module ChatMember.
Record t : Type := mk
  { id : Z; chatId : Z; userId : Z; joinedAt : Z }.
End ChatMember.

Module Message.
Record t : Type := mk
  { id : Z; chatId : Z; senderId : Z; content : string; sentAt : Z }.
End Message.

(** [InsertMessage & { senderId: number }]. *)
Module InsertMessage.
Record t : Type := mk { chatId : Z; content : string; senderId : Z }.
End InsertMessage.

(** [ChatMember & { user: User }].  The store builds it with
  [user: this.users.get(member.userId)!]; the [!] is a type assertion
  only, the value is [undefined] when the user is absent. *)
Module MemberWithUser.
Record t : Type := mk { member : ChatMember.t; user : option User.t }.
End MemberWithUser.

(** [Message & { sender: User }], built the same way. *)
Module MessageWithSender.
Record t : Type := mk { message : Message.t; sender : option User.t }.
End MessageWithSender.

Module ChatWithMembers.
Record t : Type := mk
  { chat : Chat.t;
    members : list MemberWithUser.t;
    lastMessage : option MessageWithSender.t;
    unreadCount : option Z }.
End ChatWithMembers.

(** ** The store and its world *)

(** The private fields of [class MemStorage]. *)
Record MemStorage : Type := mkMemStorage
  { users : JsMap.t User.t;
    chats : JsMap.t Chat.t;
    chatMembers : JsMap.t ChatMember.t;
    messages : JsMap.t Message.t;
    currentUserId : Z;
    currentChatId : Z;
    currentChatMemberId : Z;
    currentMessageId : Z }.

(** [new MemStorage()]. *)
Definition newMemStorage : MemStorage :=
  {| users := JsMap.empty; chats := JsMap.empty;
     chatMembers := JsMap.empty; messages := JsMap.empty;
     currentUserId := 1; currentChatId := 1;
     currentChatMemberId := 1; currentMessageId := 1 |}.

(** The state a request handler runs in: the singleton [storage] and the
    clock behind [new Date()]; [clock n] is the value of the [n]-th read. *)
Record World : Type := mkWorld
  { storage : MemStorage;
    clock : nat -> Z;
    dateReads : nat }.

Definition boot (clk : nat -> Z) : World :=
  {| storage := newMemStorage; clock := clk; dateReads := 0 |}.

(** A small state monad over [World] for the methods that write. *)
Definition M (A : Type) : Type := World -> A * World.

Definition ret {A : Type} (a : A) : M A := fun w => (a, w).

Definition bind {A B : Type} (m : M A) (k : A -> M B) : M B :=
  fun w => let (a, w') := m w in k a w'.

Notation "x <- m ;; k" := (bind m (fun x => k))
  (at level 61, m at next level, right associativity).
Notation "m ;;; k" := (bind m (fun _ => k))
  (at level 61, right associativity).

Definition this : M MemStorage := fun w => (storage w, w).

Definition update (f : MemStorage -> MemStorage) : M unit :=
  fun w => (tt, {| storage := f (storage w); clock := clock w;
                   dateReads := dateReads w |}).

Definition newDate : M Z :=
  fun w => (clock w (dateReads w),
            {| storage := storage w; clock := clock w;
               dateReads := S (dateReads w) |}).

Definition exec {A : Type} (m : M A) (w : World) : World := snd (m w).

Definition eval {A : Type} (m : M A) (w : World) : A := fst (m w).

(** ** [class MemStorage]: the methods that read *)

Section Readers.

Variable st : MemStorage.

Definition getUser (id : Z) : option User.t :=
  JsMap.get id (users st).

Definition getUserByUsername (username : string) : option User.t :=
  find (fun user => String.eqb (User.username user) username)
       (JsMap.values (users st)).

Definition getOnlineUsers : list User.t :=
  filter (fun user => User.isOnline user) (JsMap.values (users st)).

Definition getChat (id : Z) : option Chat.t :=
  JsMap.get id (chats st).

Definition getChatMembers (chatId : Z) : list MemberWithUser.t :=
  let members :=
    filter (fun member => ChatMember.chatId member =? chatId)
           (JsMap.values (chatMembers st)) in
  filter (fun member => JsArray.isDefined (MemberWithUser.user member))
    (map (fun member =>
            {| MemberWithUser.member := member;
               MemberWithUser.user :=
                 JsMap.get (ChatMember.userId member) (users st) |})
         members).

(** The comparator of [getChatMessages]:
    [(a, b) => b.sentAt.getTime() - a.sentAt.getTime()]. *)
Definition newestFirst (a b : Message.t) : Z :=
  Message.sentAt b - Message.sentAt a.

Definition getChatMessages (chatId : Z) (limit : Z)
  : list MessageWithSender.t :=
  let chatMessages :=
    rev (JsArray.slice0 limit
           (JsArray.sort newestFirst
              (filter (fun message => Message.chatId message =? chatId)
                      (JsMap.values (messages st))))) in
  filter (fun message => JsArray.isDefined (MessageWithSender.sender message))
    (map (fun message =>
            {| MessageWithSender.message := message;
               MessageWithSender.sender :=
                 JsMap.get (Message.senderId message) (users st) |})
         chatMessages).

(** The default of the parameter [limit = 50]. *)
Definition defaultLimit : Z := 50.

Definition getChatWithMembers (id : Z) : option ChatWithMembers.t :=
  match JsMap.get id (chats st) with
  | None => None
  | Some chat =>
      let members := getChatMembers id in
      let messages := getChatMessages id 1 in
      let lastMessage := hd_error messages in
      Some {| ChatWithMembers.chat := chat;
              ChatWithMembers.members := members;
              ChatWithMembers.lastMessage := lastMessage;
              ChatWithMembers.unreadCount := Some 0 |}
  end.

Definition getUserChats (userId : Z) : list ChatWithMembers.t :=
  let userChatMembers :=
    filter (fun member => ChatMember.userId member =? userId)
           (JsMap.values (chatMembers st)) in
  let chats :=
    map (fun member => getChatWithMembers (ChatMember.chatId member))
        userChatMembers in
  JsArray.defined chats.

Definition getMessage (id : Z) : option Message.t :=
  JsMap.get id (messages st).

Definition getUnreadMessageCount (chatId userId : Z) : Z := 0.

End Readers.

(** ** [class MemStorage]: the methods that write *)

Definition setUsers (m : JsMap.t User.t) (n : Z) (st : MemStorage) :=
  {| users := m; chats := chats st; chatMembers := chatMembers st;
     messages := messages st; currentUserId := n;
     currentChatId := currentChatId st;
     currentChatMemberId := currentChatMemberId st;
     currentMessageId := currentMessageId st |}.

Definition setChats (m : JsMap.t Chat.t) (n : Z) (st : MemStorage) :=
  {| users := users st; chats := m; chatMembers := chatMembers st;
     messages := messages st; currentUserId := currentUserId st;
     currentChatId := n;
     currentChatMemberId := currentChatMemberId st;
     currentMessageId := currentMessageId st |}.

Definition setChatMembers (m : JsMap.t ChatMember.t) (n : Z)
  (st : MemStorage) :=
  {| users := users st; chats := chats st; chatMembers := m;
     messages := messages st; currentUserId := currentUserId st;
     currentChatId := currentChatId st;
     currentChatMemberId := n;
     currentMessageId := currentMessageId st |}.

Definition setMessages (m : JsMap.t Message.t) (n : Z) (st : MemStorage) :=
  {| users := users st; chats := chats st; chatMembers := chatMembers st;
     messages := m; currentUserId := currentUserId st;
     currentChatId := currentChatId st;
     currentChatMemberId := currentChatMemberId st;
     currentMessageId := n |}.

Definition createUser (insertUser : InsertUser.t) : M User.t :=
  st <- this ;;
  let id := currentUserId st in
  now <- newDate ;;
  let user :=
    {| User.id := id; User.username := InsertUser.username insertUser;
       User.isOnline := true; User.lastSeen := now |} in
  update (setUsers (JsMap.set id user (users st)) (id + 1)) ;;;
  ret user.

Definition updateUserOnlineStatus (userId : Z) (isOnline : bool) : M unit :=
  st <- this ;;
  match JsMap.get userId (users st) with
  | Some user =>
      now <- newDate ;;
      let user' :=
        {| User.id := User.id user; User.username := User.username user;
           User.isOnline := isOnline; User.lastSeen := now |} in
      update (fun st => setUsers (JsMap.set userId user' (users st))
                                 (currentUserId st) st)
  | None => ret tt
  end.

Definition addChatMember (chatId userId : Z) : M unit :=
  st <- this ;;
  let id := currentChatMemberId st in
  joinedAt <- newDate ;;
  let member :=
    {| ChatMember.id := id; ChatMember.chatId := chatId;
       ChatMember.userId := userId; ChatMember.joinedAt := joinedAt |} in
  update (setChatMembers (JsMap.set id member (chatMembers st)) (id + 1)).

Definition createChat (chat : InsertChat.t) : M Chat.t :=
  st <- this ;;
  let id := currentChatId st in
  now <- newDate ;;
  let newChat :=
    {| Chat.id := id; Chat.name := InsertChat.name chat;
       Chat.type := InsertChat.type chat;
       Chat.createdBy := InsertChat.createdBy chat;
       Chat.createdAt := now |} in
  update (setChats (JsMap.set id newChat (chats st)) (id + 1)) ;;;
  addChatMember id (InsertChat.createdBy chat) ;;;
  ret newChat.

Definition createMessage (message : InsertMessage.t) : M Message.t :=
  st <- this ;;
  let id := currentMessageId st in
  now <- newDate ;;
  let newMessage :=
    {| Message.id := id; Message.chatId := InsertMessage.chatId message;
       Message.senderId := InsertMessage.senderId message;
       Message.content := InsertMessage.content message;
       Message.sentAt := now |} in
  update (setMessages (JsMap.set id newMessage (messages st)) (id + 1)) ;;;
  ret newMessage.

(** ** The HTTP handlers ([registerRoutes]) *)

(** What a handler sends: [res.json(body)] or
    [res.status(code).json({ message })]. *)
Inductive Reply (A : Type) : Type :=
| Json (body : A)
| Status (code : Z) (message : string).

Arguments Json {A} body.
Arguments Status {A} code message.

Module Routes.

(** [POST /api/users], after [insertUserSchema.parse]. *)
Definition postUsers (userData : InsertUser.t) : M (Reply User.t) :=
  st <- this ;;
  match getUserByUsername st (InsertUser.username userData) with
  | Some existingUser => ret (Status 400 "Username already taken")
  | None =>
      user <- createUser userData ;;
      ret (Json user)
  end.

(** [GET /api/users/online]. *)
Definition getUsersOnline : M (Reply (list User.t)) :=
  st <- this ;;
  ret (Json (getOnlineUsers st)).

(** [PUT /api/users/:id/status]; the body sent is [{ success: true }]. *)
Definition putUsersStatus (userId : Z) (isOnline : bool) : M (Reply bool) :=
  updateUserOnlineStatus userId isOnline ;;;
  ret (Json true).

(** [GET /api/users/:userId/chats]. *)
Definition getUsersChats (userId : Z) : M (Reply (list ChatWithMembers.t)) :=
  st <- this ;;
  ret (Json (getUserChats st userId)).

(** The loop of [POST /api/chats] over [chatData.memberIds]. *)
Fixpoint addMembers (chatId createdBy : Z) (memberIds : list Z) : M unit :=
  match memberIds with
  | [] => ret tt
  | memberId :: rest =>
      (if negb (memberId =? createdBy)
       then addChatMember chatId memberId
       else ret tt) ;;;
      addMembers chatId createdBy rest
  end.

(** [POST /api/chats], after the schema parse; [memberIds] is optional. *)
Definition postChats (chatData : InsertChat.t) (memberIds : option (list Z))
  : M (Reply (option ChatWithMembers.t)) :=
  chat <- createChat chatData ;;
  match memberIds with
  | Some ids => addMembers (Chat.id chat) (InsertChat.createdBy chatData) ids
  | None => ret tt
  end ;;;
  st <- this ;;
  ret (Json (getChatWithMembers st (Chat.id chat))).

(** [GET /api/chats/:chatId]. *)
Definition getChatsById (chatId : Z) : M (Reply ChatWithMembers.t) :=
  st <- this ;;
  match getChatWithMembers st chatId with
  | None => ret (Status 404 "Chat not found")
  | Some chat => ret (Json chat)
  end.

(** [GET /api/chats/:chatId/messages]; [limit] is the parsed query
    parameter when there is one. *)
Definition getChatsMessages (chatId : Z) (limit : option Z)
  : M (Reply (list MessageWithSender.t)) :=
  st <- this ;;
  let limit := match limit with Some n => n | None => 50 end in
  ret (Json (getChatMessages st chatId limit)).

(** [POST /api/messages], after the schema parse. *)
Definition postMessages (messageData : InsertMessage.t)
  : M (Reply Message.t) :=
  message <- createMessage messageData ;;
  ret (Json message).

(** The predicate of [user1Chats.find] in [POST /api/chats/direct]. *)
Definition isDirectWith (userId2 : Z) (chat : ChatWithMembers.t) : bool :=
  String.eqb (Chat.type (ChatWithMembers.chat chat)) "direct"
  && (Z.of_nat (length (ChatWithMembers.members chat)) =? 2)
  && existsb
       (fun member =>
          ChatMember.userId (MemberWithUser.member member) =? userId2)
       (ChatWithMembers.members chat).

(** [POST /api/chats/direct]: find or create the direct chat of two users. *)
Definition postChatsDirect (userId1 userId2 : Z)
  : M (Reply (option ChatWithMembers.t)) :=
  st <- this ;;
  let user1Chats := getUserChats st userId1 in
  match find (isDirectWith userId2) user1Chats with
  | Some existingChat => ret (Json (Some existingChat))
  | None =>
      chat <- createChat {| InsertChat.type := "direct";
                            InsertChat.createdBy := userId1;
                            InsertChat.name := None |} ;;
      addChatMember (Chat.id chat) userId2 ;;;
      st <- this ;;
      ret (Json (getChatWithMembers st (Chat.id chat)))
  end.

End Routes.

(** The requests that can change the world, and the worlds the server can
    be in: those reached from a fresh store by handling requests. *)
Inductive Request : Type :=
| PostUsers (userData : InsertUser.t)
| PutUsersStatus (userId : Z) (isOnline : bool)
| PostChats (chatData : InsertChat.t) (memberIds : option (list Z))
| PostMessages (messageData : InsertMessage.t)
| PostChatsDirect (userId1 userId2 : Z).

Definition handle (r : Request) (w : World) : World :=
  match r with
  | PostUsers userData => exec (Routes.postUsers userData) w
  | PutUsersStatus userId isOnline =>
      exec (Routes.putUsersStatus userId isOnline) w
  | PostChats chatData memberIds =>
      exec (Routes.postChats chatData memberIds) w
  | PostMessages messageData => exec (Routes.postMessages messageData) w
  | PostChatsDirect userId1 userId2 =>
      exec (Routes.postChatsDirect userId1 userId2) w
  end.

Definition serve (w : World) (rs : list Request) : World :=
  fold_left (fun w r => handle r w) rs w.

Inductive reachable : World -> Prop :=
| reachable_boot (clk : nat -> Z) : reachable (boot clk)
| reachable_handle (w : World) (r : Request) :
    reachable w -> reachable (handle r w).

(** ** Invariants of the store *)

(** A collection filled through its counter: the keys ascend in insertion
    order, lie below the counter, and each entity carries its key as id. *)
Definition table {V : Type} (idOf : V -> Z) (next : Z) (m : JsMap.t V)
  : Prop :=
  StronglySorted Z.lt (JsMap.keys m)
  /\ Forall (fun kv => fst kv < next /\ idOf (snd kv) = fst kv) m.

Record wf (st : MemStorage) : Prop := mkWf
  { wf_users : table User.id (currentUserId st) (users st);
    wf_chats : table Chat.id (currentChatId st) (chats st);
    wf_chatMembers :
      table ChatMember.id (currentChatMemberId st) (chatMembers st);
    wf_messages : table Message.id (currentMessageId st) (messages st);
    wf_memberChat :
      Forall (fun member => ChatMember.chatId member < currentChatId st)
             (JsMap.values (chatMembers st)) }.

Arguments wf_users {st}.
Arguments wf_chats {st}.
Arguments wf_chatMembers {st}.
Arguments wf_messages {st}.
Arguments wf_memberChat {st}.

(** [createChat] is the insertion of the chat followed by [addChatMember]. *)
Definition chatInserted (chat : InsertChat.t) (w : World) : World :=
  let st := storage w in
  let id := currentChatId st in
  {| storage :=
       setChats
         (JsMap.set id
            {| Chat.id := id; Chat.name := InsertChat.name chat;
               Chat.type := InsertChat.type chat;
               Chat.createdBy := InsertChat.createdBy chat;
               Chat.createdAt := clock w (dateReads w) |}
            (chats st))
         (id + 1) st;
     clock := clock w;
     dateReads := S (dateReads w) |}.

(** ** Vocabulary of the properties *)

(** *** Text

    A [string] holds the UTF-8 bytes of a JavaScript string, so a
    character of the JavaScript string is a byte that is not a
    continuation byte together with the continuation bytes after it.
    (A JavaScript string with an unpaired surrogate has no UTF-8
    encoding; [utf8] says which byte strings stand for a string.) *)

Definition byte (c : ascii) : Z := Z.of_N (N_of_ascii c).

(** A continuation byte, [10xxxxxx]. *)
Definition isContinuation (c : ascii) : bool :=
  (128 <=? byte c) && (byte c <? 192).

Definition startsWithContinuation (s : string) : bool :=
  match s with
  | String c _ => isContinuation c
  | EmptyString => false
  end.

Fixpoint continues (s : string) : bool :=
  match s with
  | EmptyString => true
  | String c rest => isContinuation c && continues rest
  end.

(** One byte and the continuation bytes that belong to it. *)
Definition isCharacter (s : string) : bool :=
  match s with
  | String _ rest => continues rest
  | EmptyString => false
  end.

(** The characters of a string, in order. *)
Fixpoint characters (s : string) : list string :=
  match s with
  | EmptyString => []
  | String c rest =>
      match characters rest with
      | next :: others =>
          if startsWithContinuation next
          then String c next :: others
          else String c EmptyString :: next :: others
      | [] => [String c EmptyString]
      end
  end.

Definition join (l : list string) : string :=
  fold_right String.append EmptyString l.

(** The code point a character encodes: one to four bytes, the shortest
    encoding only, no surrogate and nothing above U+10FFFF. *)
Definition codePoint (character : string) : option Z :=
  match character with
  | String a EmptyString => if byte a <? 128 then Some (byte a) else None
  | String a (String b EmptyString) =>
      let n := (byte a - 192) * 64 + (byte b - 128) in
      if (192 <=? byte a) && (byte a <? 224) && isContinuation b
         && (128 <=? n)
      then Some n else None
  | String a (String b (String c EmptyString)) =>
      let n := (byte a - 224) * 4096 + (byte b - 128) * 64
               + (byte c - 128) in
      if (224 <=? byte a) && (byte a <? 240)
         && isContinuation b && isContinuation c
         && (2048 <=? n) && negb ((55296 <=? n) && (n <=? 57343))
      then Some n else None
  | String a (String b (String c (String d EmptyString))) =>
      let n := (byte a - 240) * 262144 + (byte b - 128) * 4096
               + (byte c - 128) * 64 + (byte d - 128) in
      if (240 <=? byte a) && (byte a <? 248)
         && isContinuation b && isContinuation c && isContinuation d
         && (65536 <=? n) && (n <=? 1114111)
      then Some n else None
  | _ => None
  end.

(** The byte string is the UTF-8 encoding of a string. *)
Definition utf8 (s : string) : bool :=
  forallb (fun character => JsArray.isDefined (codePoint character))
          (characters s).

(** The code points [String.prototype.trim] strips, which are the
    WhiteSpace and LineTerminator of ECMAScript: U+0009 to U+000D, U+0020,
    U+00A0, U+1680, U+2000 to U+200A, U+2028, U+2029, U+202F, U+205F,
    U+3000 (the space separators of Unicode 6.3 and later) and U+FEFF. *)
Definition whiteSpace : list Z :=
  [9; 10; 11; 12; 13; 32; 160; 5760;
   8192; 8193; 8194; 8195; 8196; 8197; 8198; 8199; 8200; 8201; 8202;
   8232; 8233; 8239; 8287; 12288; 65279].

Definition isWhiteSpace (character : string) : bool :=
  match codePoint character with
  | Some n => existsb (Z.eqb n) whiteSpace
  | None => false
  end.

Fixpoint trimStart (l : list string) : list string :=
  match l with
  | [] => []
  | character :: rest =>
      if isWhiteSpace character then trimStart rest else l
  end.

Fixpoint trimEnd (l : list string) : list string :=
  match l with
  | [] => []
  | character :: rest =>
      match trimEnd rest with
      | [] => if isWhiteSpace character then [] else [character]
      | kept => character :: kept
      end
  end.

(** [String.prototype.trim]: the string without the white space
    characters at its two ends. *)
Definition trim (s : string) : string :=
  join (trimEnd (trimStart (characters s))).

(** [content.trim() === ""]. *)
Definition trimsToEmpty (content : string) : bool :=
  String.eqb (trim content) EmptyString.

(** The membership rows of a chat whose user id resolves. *)
Definition resolves (st : MemStorage) (member : ChatMember.t) : bool :=
  JsArray.isDefined (getUser st (ChatMember.userId member)).

Definition rowsOfChat (st : MemStorage) (chatId : Z) : list ChatMember.t :=
  filter (fun member => ChatMember.chatId member =? chatId)
         (JsMap.values (chatMembers st)).

(** The membership rows of a user whose chat exists. *)
Definition rowsOfUser (st : MemStorage) (userId : Z) : list ChatMember.t :=
  filter (fun member =>
            (ChatMember.userId member =? userId)
            && JsArray.isDefined (getChat st (ChatMember.chatId member)))
         (JsMap.values (chatMembers st)).

Definition chatIdOf (chat : ChatWithMembers.t) : Z :=
  Chat.id (ChatWithMembers.chat chat).

(** ** Sample worlds *)

(** A clock that advances by one second per read, and one that stands
    still (reads within one millisecond). *)
Definition tickingClock (n : nat) : Z := 1000 * Z.of_nat n.

Definition frozenClock (n : nat) : Z := 0.

Definition alice : InsertUser.t := {| InsertUser.username := "alice" |}.

Definition bob : InsertUser.t := {| InsertUser.username := "bob" |}.

Definition say (chatId senderId : Z) (content : string) : InsertMessage.t :=
  {| InsertMessage.chatId := chatId; InsertMessage.content := content;
     InsertMessage.senderId := senderId |}.

(** alice and bob registered, their direct chat open, "hi" and "hey" sent. *)
Definition aliceAndBob (clk : nat -> Z) : World :=
  serve (boot clk)
    [PostUsers alice; PostUsers bob; PostChatsDirect 1 2;
     PostMessages (say 1 1 "hi"); PostMessages (say 1 2 "hey")].

(** The messages of a chat, in insertion order. *)
Definition timeline (st : MemStorage) (chatId : Z) : list Message.t :=
  filter (fun message => Message.chatId message =? chatId)
         (JsMap.values (messages st)).

(** The order of the answer of [getChatMessages]: [a] comes before [b]
    when it was sent earlier, or at the same instant and inserted later. *)
Definition returnedBefore (a b : Message.t) : Prop :=
  Message.sentAt a < Message.sentAt b
  \/ (Message.sentAt a = Message.sentAt b /\ Message.id b < Message.id a).

(** The order [sort(newestFirst)] leaves the array in. *)
Definition newestOnTop (a b : Message.t) : Prop := returnedBefore b a.

Definition senderResolves (st : MemStorage) (message : Message.t) : bool :=
  JsArray.isDefined (getUser st (Message.senderId message)).

(** The last [n] elements of a list. *)
Definition lastN {A : Type} (n : nat) (l : list A) : list A :=
  skipn (length l - n) l.

Definition messageIds (l : list MessageWithSender.t) : list Z :=
  map (fun m => Message.id (MessageWithSender.message m)) l.

Definition hasMember (userId : Z) (members : list MemberWithUser.t) : bool :=
  existsb
    (fun member =>
       ChatMember.userId (MemberWithUser.member member) =? userId)
    members.

(** A direct chat between [a] and [b]: a chat of type 'direct' with two
    resolved members, [a] and [b] among them. *)
Definition isDirectBetween (st : MemStorage) (a b : Z) (chat : Chat.t)
  : bool :=
  let members := getChatMembers st (Chat.id chat) in
  String.eqb (Chat.type chat) "direct"
  && (Z.of_nat (length members) =? 2)
  && hasMember a members
  && hasMember b members.

Definition directChats (st : MemStorage) (a b : Z) : list Chat.t :=
  filter (isDirectBetween st a b) (JsMap.values (chats st)).

(** The handlers add membership rows to the newest chat only, so the rows
    are grouped by chat, in the order the chats were created. *)
Definition rowsByChat (st : MemStorage) : Prop :=
  StronglySorted
    (fun m1 m2 => ChatMember.chatId m1 <= ChatMember.chatId m2)
    (JsMap.values (chatMembers st)).

(** The row a chat of [getUserChats] comes from passes the test [p]. *)
Definition rowPasses (st : MemStorage) (p : ChatWithMembers.t -> bool)
  (member : ChatMember.t) : bool :=
  match getChatWithMembers st (ChatMember.chatId member) with
  | Some chat => p chat
  | None => false
  end.

(** The chat [POST /api/chats/direct] creates when it finds none, and the
    world after it has created it and added the second member. *)
Definition directChatOf (userId1 : Z) : InsertChat.t :=
  {| InsertChat.type := "direct"; InsertChat.createdBy := userId1;
     InsertChat.name := None |}.

Definition directCreated (userId1 userId2 : Z) (w : World) : World :=
  exec (addChatMember (currentChatId (storage w)) userId2)
       (exec (createChat (directChatOf userId1)) w).

(** Every membership row belongs to a chat that exists. *)
Definition rowsOfLiveChats (st : MemStorage) : Prop :=
  Forall
    (fun member =>
       JsArray.isDefined (getChat st (ChatMember.chatId member)) = true)
    (JsMap.values (chatMembers st)).

Definition replyChatId (reply : Reply (option ChatWithMembers.t))
  : option Z :=
  match reply with
  | Json (Some chat) => Some (chatIdOf chat)
  | _ => None
  end.

(** alice and bob registered, nothing else. *)
Definition aliceAndBobRegistered (clk : nat -> Z) : World :=
  serve (boot clk) [PostUsers alice; PostUsers bob].

(** alice and bob registered, and two chats of type 'direct' between them
    opened through [POST /api/chats]. *)
Definition twoDirectChats (clk : nat -> Z) : World :=
  serve (boot clk)
    [PostUsers alice; PostUsers bob;
     PostChats (directChatOf 1) (Some [2]);
     PostChats (directChatOf 1) (Some [2])].

Definition teamChat (createdBy : Z) : InsertChat.t :=
  {| InsertChat.name := Some "Team"%string; InsertChat.type := "group";
     InsertChat.createdBy := createdBy |}.

Definition carol : InsertUser.t := {| InsertUser.username := "carol" |}.

(** alice, bob and carol registered, and the group chat "Team" opened by
    alice with bob and carol as further members. *)
Definition teamOfThree (clk : nat -> Z) : World :=
  serve (boot clk)
    [PostUsers alice; PostUsers bob; PostUsers carol;
     PostChats (teamChat 1) (Some [2; 3])].

(** ** [class DatabaseStorage]: the two joined reads

    The later revision of [storage.ts] adds a store backed by SQL tables.
    Its reads are queries.  A table is the list of its rows, and the rows
    a query selects are computed on those lists.  What the query answers
    is any list SQL allows: without [orderBy], the selected rows in any
    order; with [orderBy(key).limit(n)], the first [n] rows of any
    arrangement of the selected rows by ascending key, the rows with
    equal keys in any order. *)
Module DatabaseStorage.

Record t : Type := mk
  { users : list User.t;
    chatMembers : list ChatMember.t;
    messages : list Message.t }.

Definition innerJoin {A B : Type} (l : list A) (r : list B)
  (on : A -> B -> bool) : list (A * B) :=
  flat_map (fun a => map (pair a) (filter (on a) r)) l.

(** The rows of [from(chatMembers)
    .innerJoin(users, eq(chatMembers.userId, users.id))
    .where(eq(chatMembers.chatId, chatId))]. *)
Definition memberRows (db : t) (chatId : Z)
  : list (ChatMember.t * User.t) :=
  filter (fun row => ChatMember.chatId (fst row) =? chatId)
    (innerJoin (chatMembers db) (users db)
       (fun member user => ChatMember.userId member =? User.id user)).

(** [getChatMembers]: the query has no [orderBy]. *)
Definition getChatMembers (db : t) (chatId : Z)
  (answer : list (ChatMember.t * User.t)) : Prop :=
  Permutation (memberRows db chatId) answer.

(** The rows of [from(messages)
    .innerJoin(users, eq(messages.senderId, users.id))
    .where(eq(messages.chatId, chatId))]. *)
Definition messageRows (db : t) (chatId : Z)
  : list (Message.t * User.t) :=
  filter (fun row => Message.chatId (fst row) =? chatId)
    (innerJoin (messages db) (users db)
       (fun message user => Message.senderId message =? User.id user)).

(** The order of [orderBy(messages.sentAt)]: ascending. *)
Definition bySentAt (a b : Message.t * User.t) : Prop :=
  Message.sentAt (fst a) <= Message.sentAt (fst b).

(** [getChatMessages]: the selected rows [.orderBy(messages.sentAt)
    .limit(limit)]. *)
Definition getChatMessages (db : t) (chatId : Z) (limit : nat)
  (answer : list (Message.t * User.t)) : Prop :=
  exists arranged,
    Permutation (messageRows db chatId) arranged
    /\ StronglySorted bySentAt arranged
    /\ answer = firstn limit arranged.

End DatabaseStorage.

(** The tables that hold the entities of a [MemStorage]. *)
Definition tablesOf (st : MemStorage) : DatabaseStorage.t :=
  {| DatabaseStorage.users := JsMap.values (users st);
     DatabaseStorage.chatMembers := JsMap.values (chatMembers st);
     DatabaseStorage.messages := JsMap.values (messages st) |}.

(** alice and bob, their direct chat, and three messages a second apart. *)
Definition threeMessages : World :=
  serve (boot tickingClock)
    [PostUsers alice; PostUsers bob; PostChatsDirect 1 2;
     PostMessages (say 1 1 "one"); PostMessages (say 1 2 "two");
     PostMessages (say 1 1 "three")].

(** ** Further invariants of the store *)

(** Ids handed out by a counter that starts at 1 and is never reset: the
    [n]-th entity inserted has id [n] and the counter is one past the
    last id. *)
Definition idsFrom1 {V : Type} (next : Z) (m : JsMap.t V) : Prop :=
  JsMap.keys m = map Z.of_nat (seq 1 (length m))
  /\ next = Z.of_nat (length m) + 1.

Record dense (st : MemStorage) : Prop := mkDense
  { dense_users : idsFrom1 (currentUserId st) (users st);
    dense_chats : idsFrom1 (currentChatId st) (chats st);
    dense_chatMembers :
      idsFrom1 (currentChatMemberId st) (chatMembers st);
    dense_messages : idsFrom1 (currentMessageId st) (messages st) }.

Arguments dense_users {st}.
Arguments dense_chats {st}.
Arguments dense_chatMembers {st}.
Arguments dense_messages {st}.

(** No two users carry the same username. *)
Definition uniqueUsernames (st : MemStorage) : Prop :=
  NoDup (map User.username (JsMap.values (users st))).

(** The id and username of every user, in registration order. *)
Definition identities (st : MemStorage) : list (Z * string) :=
  map (fun u => (User.id u, User.username u)) (JsMap.values (users st)).

(** [st'] holds everything [st] holds: chats, membership rows and
    messages are kept as they are and new ones come after them, the users
    keep their id and username, and no counter goes back. *)
Record grows (st st' : MemStorage) : Prop := mkGrows
  { grows_chats : exists added, chats st' = chats st ++ added;
    grows_chatMembers :
      exists added, chatMembers st' = chatMembers st ++ added;
    grows_messages : exists added, messages st' = messages st ++ added;
    grows_identities :
      exists added, identities st' = identities st ++ added;
    grows_counters :
      currentUserId st <= currentUserId st'
      /\ currentChatId st <= currentChatId st'
      /\ currentChatMemberId st <= currentChatMemberId st'
      /\ currentMessageId st <= currentMessageId st' }.

(** ** The client

    The pure parts of the React components and of [lib/utils.ts]: what a
    component computes from its props and state, and the request it
    sends.  A template literal prints an integer in decimal. *)

(** [`${n}`] for an integer [n]. *)
Definition show (n : Z) : string := NilZero.string_of_int (Z.to_int n).

(** A property access on [undefined] throws a [TypeError]. *)
Inductive Outcome (A : Type) : Type :=
| Returns (a : A)
| TypeError.

Arguments Returns {A} a.
Arguments TypeError {A}.

(** A string is truthy when it is not empty. *)
Definition truthy (s : string) : bool := negb (String.eqb s "").

Module Utils.

Definition colors : list string :=
  [ "from-pink-400 to-purple-500";
    "from-blue-400 to-cyan-500";
    "from-green-400 to-emerald-500";
    "from-orange-400 to-red-500";
    "from-purple-400 to-pink-500";
    "from-indigo-400 to-blue-500";
    "from-teal-400 to-green-500";
    "from-yellow-400 to-orange-500" ]%string.

(** [colors[userId % colors.length]]: [%] takes the sign of [userId], and
    an array has nothing at a negative index. *)
Definition getAvatarColor (userId : Z) : option string :=
  let i := Z.rem userId (Z.of_nat (length colors)) in
  if i <? 0 then None else nth_error colors (Z.to_nat i).

(** [formatRelativeTime(date)]; [now] is the [new Date()] it reads and
    [toLocaleDateString] the rendering of the host's locale. *)
Definition formatRelativeTime (toLocaleDateString : Z -> string)
  (now date : Z) : string :=
  let diff := now - date in
  let minutes := diff / 60000 in
  let hours := minutes / 60 in
  let days := hours / 24 in
  if minutes <? 1 then "now"
  else if minutes <? 60 then show minutes ++ "m"
  else if hours <? 24 then show hours ++ "h"
  else if days <? 7 then show days ++ "d"
  else toLocaleDateString date.

End Utils.

(** What [ChatSidebar] and [ChatArea] compute from a chat projection for
    the user logged in. *)
Module ChatView.

Section ForUser.

Variable currentUser : User.t.

(** [chat.members.find(m => m.userId !== currentUser.id)]. *)
Definition otherMember (chat : ChatWithMembers.t)
  : option MemberWithUser.t :=
  find (fun m =>
          negb (ChatMember.userId (MemberWithUser.member m)
                =? User.id currentUser))
       (ChatWithMembers.members chat).

Definition isDirect (chat : ChatWithMembers.t) : bool :=
  String.eqb (Chat.type (ChatWithMembers.chat chat)) "direct".

(** [getChatName] of [ChatSidebar] and of [ChatArea]. *)
Definition getChatName (chat : ChatWithMembers.t) : Outcome string :=
  if isDirect chat then
    match otherMember chat with
    | None => Returns "Unknown User"%string
    | Some m =>
        match MemberWithUser.user m with
        | None => TypeError
        | Some user =>
            Returns (if truthy (User.username user)
                     then User.username user else "Unknown User"%string)
        end
    end
  else
    Returns (match Chat.name (ChatWithMembers.chat chat) with
             | Some name => if truthy name then name
                            else "Unnamed Group"%string
             | None => "Unnamed Group"%string
             end).

(** [getChatStatus] of [ChatArea]. *)
Definition getChatStatus (chat : ChatWithMembers.t) : Outcome string :=
  if isDirect chat then
    match otherMember chat with
    | None => Returns "Offline"%string
    | Some m =>
        match MemberWithUser.user m with
        | None => TypeError
        | Some user =>
            Returns (if User.isOnline user then "Online"%string
                     else "Offline"%string)
        end
    end
  else
    Returns (show (Z.of_nat (length (ChatWithMembers.members chat)))
             ++ " members")%string.

(** [getChatPreview] of [ChatSidebar]. *)
Definition getChatPreview (chat : ChatWithMembers.t) : Outcome string :=
  match ChatWithMembers.lastMessage chat with
  | Some lastMessage =>
      let message := MessageWithSender.message lastMessage in
      if Message.senderId message =? User.id currentUser
      then Returns ("You: " ++ Message.content message)%string
      else
        match MessageWithSender.sender lastMessage with
        | None => TypeError
        | Some sender =>
            Returns (User.username sender ++ ": "
                     ++ Message.content message)%string
        end
  | None => Returns "No messages yet"%string
  end.

(** [handleSendMessage] of [ChatArea]: the body posted to
    [/api/messages], if any. *)
Definition handleSendMessage (activeChat : ChatWithMembers.t)
  (messageInput : string) : option InsertMessage.t :=
  let content := trim messageInput in
  if truthy content
  then Some {| InsertMessage.chatId := Chat.id (ChatWithMembers.chat activeChat);
               InsertMessage.senderId := User.id currentUser;
               InsertMessage.content := content |}
  else None.

End ForUser.

(** [formatTime] of [ChatSidebar]. *)
Definition formatTime (now date : Z) : string :=
  let diff := now - date in
  let minutes := diff / 60000 in
  let hours := minutes / 60 in
  let days := hours / 24 in
  if minutes <? 1 then "now"
  else if minutes <? 60 then show minutes ++ "m"
  else if hours <? 24 then show hours ++ "h"
  else show days ++ "d".

End ChatView.

Module CreateGroupModal.

(** [handleMemberToggle]: the next value of [selectedMembers]. *)
Definition handleMemberToggle (userId : Z) (prev : list Z) : list Z :=
  if existsb (fun id => id =? userId) prev
  then filter (fun id => negb (id =? userId)) prev
  else prev ++ [userId].

(** [onlineUsers.filter(user => user.id !== currentUser.id)]. *)
Definition availableUsers (currentUser : User.t) (onlineUsers : list User.t)
  : list User.t :=
  filter (fun user => negb (User.id user =? User.id currentUser)) onlineUsers.

(** [handleSubmit]: the body posted to [/api/chats], if any. *)
Definition handleSubmit (currentUser : User.t) (groupName : string)
  (selectedMembers : list Z) : option (InsertChat.t * option (list Z)) :=
  if negb (truthy (trim groupName)) then None
  else if Z.of_nat (length selectedMembers) =? 0 then None
  else Some ({| InsertChat.name := Some (trim groupName);
                InsertChat.type := "group";
                InsertChat.createdBy := User.id currentUser |},
             Some selectedMembers).

End CreateGroupModal.

Module Welcome.

(** [handleSubmit]: the body posted to [/api/users], if any. *)
Definition handleSubmit (username : string) : option InsertUser.t :=
  if negb (truthy (trim username)) then None
  else Some {| InsertUser.username := trim username |}.

End Welcome.

(** [selectedMembers] after a series of clicks on member check boxes,
    starting from the empty selection of a freshly opened dialog. *)
Definition selectedAfter (clicks : list Z) : list Z :=
  fold_left (fun selected userId =>
               CreateGroupModal.handleMemberToggle userId selected)
            clicks [].

(** The rows the SQL join has for a list of messages: each message whose
    sender exists, paired with that user. *)
Definition joinedRows (st : MemStorage) (l : list Message.t)
  : list (Message.t * User.t) :=
  flat_map (fun m => match getUser st (Message.senderId m) with
                     | Some u => [(m, u)]
                     | None => []
                     end) l.


(** ** Sample values for the client *)

(** alice and bob as the store holds them after registration under
    [tickingClock]. *)
Definition aliceStored : User.t :=
  {| User.id := 1; User.username := "alice"; User.isOnline := true;
     User.lastSeen := 0 |}.

Definition bobStored : User.t :=
  {| User.id := 2; User.username := "bob"; User.isOnline := true;
     User.lastSeen := 1000 |}.

(** The chat of [aliceAndBob tickingClock] as a client that has not
    fetched members or messages yet holds it. *)
Definition openedChat : ChatWithMembers.t :=
  {| ChatWithMembers.chat :=
       {| Chat.id := 1; Chat.name := None; Chat.type := "direct";
          Chat.createdBy := 1; Chat.createdAt := 2000 |};
     ChatWithMembers.members := [];
     ChatWithMembers.lastMessage := None;
     ChatWithMembers.unreadCount := None |}.

(** White space outside ASCII, in UTF-8: U+00A0 (no-break space), U+2028
    (line separator), U+3000 (ideographic space) and U+FEFF. *)
Definition noBreakSpace : string :=
  String "194" (String "160" EmptyString).

Definition lineSeparator : string :=
  String "226" (String "128" (String "168" EmptyString)).

Definition ideographicSpace : string :=
  String "227" (String "128" (String "128" EmptyString)).

Definition byteOrderMark : string :=
  String "239" (String "187" (String "191" EmptyString)).
(** ** Facts about the containers *)

Module JsMapFacts.

Lemma get_set_same {V : Type} {k : Z} {v : V} {m : JsMap.t V} :
  JsMap.get k (JsMap.set k v m) = Some v.
Proof.
  induction m as [|[k' v'] m IH]; simpl.
  - now rewrite Z.eqb_refl.
  - destruct (k =? k') eqn:E; simpl; rewrite ?Z.eqb_refl, ?E; auto.
Qed.

Lemma get_set_other {V : Type} {k k' : Z} {v : V} {m : JsMap.t V} :
  k' <> k -> JsMap.get k' (JsMap.set k v m) = JsMap.get k' m.
Proof.
  intros Hne. induction m as [|[k0 v0] m IH]; simpl.
  - apply Z.eqb_neq in Hne. now rewrite Hne.
  - destruct (k =? k0) eqn:E; simpl.
    + apply Z.eqb_eq in E. subst k0.
      apply Z.eqb_neq in Hne. now rewrite Hne.
    + now rewrite IH.
Qed.

Lemma get_In {V : Type} {k : Z} {v : V} {m : JsMap.t V} :
  JsMap.get k m = Some v -> In (k, v) m.
Proof.
  induction m as [|[k' v'] m IH]; simpl; [discriminate|].
  destruct (k =? k') eqn:E.
  - apply Z.eqb_eq in E. intros [= ->]. subst. now left.
  - intros H. right. now apply IH.
Qed.

Lemma get_absent {V : Type} {k : Z} {m : JsMap.t V} :
  ~ In k (JsMap.keys m) -> JsMap.get k m = None.
Proof.
  induction m as [|[k' v'] m IH]; simpl; auto.
  intros H. destruct (k =? k') eqn:E.
  - apply Z.eqb_eq in E. subst. exfalso. apply H. now left.
  - apply IH. intros Hin. apply H. now right.
Qed.

Lemma In_get {V : Type} {k : Z} {v : V} {m : JsMap.t V} :
  NoDup (JsMap.keys m) -> In (k, v) m -> JsMap.get k m = Some v.
Proof.
  induction m as [|[k' v'] m IH]; simpl; [tauto|].
  intros Hnd [Heq|Hin].
  - inversion Heq; subst. now rewrite Z.eqb_refl.
  - inversion Hnd as [|? ? Hnot Hnd']; subst.
    destruct (k =? k') eqn:E.
    + apply Z.eqb_eq in E. subst. exfalso. apply Hnot.
      change k' with (fst (k', v)). now apply in_map.
    + now apply IH.
Qed.

Lemma set_absent {V : Type} {k : Z} {v : V} {m : JsMap.t V} :
  ~ In k (JsMap.keys m) -> JsMap.set k v m = m ++ [(k, v)].
Proof.
  induction m as [|[k' v'] m IH]; simpl; auto.
  intros H. destruct (k =? k') eqn:E.
  - apply Z.eqb_eq in E. subst. exfalso. apply H. now left.
  - f_equal. apply IH. intros Hin. apply H. now right.
Qed.

Lemma keys_set_present {V : Type} {k : Z} {v v0 : V} {m : JsMap.t V} :
  JsMap.get k m = Some v0 -> JsMap.keys (JsMap.set k v m) = JsMap.keys m.
Proof.
  induction m as [|[k' v'] m IH]; simpl; [discriminate|].
  destruct (k =? k') eqn:E; simpl.
  - apply Z.eqb_eq in E. now subst.
  - intros H. f_equal. now apply IH.
Qed.

Lemma In_set {V : Type} {k : Z} {v : V} {m : JsMap.t V} {kv : Z * V} :
  In kv (JsMap.set k v m) -> kv = (k, v) \/ In kv m.
Proof.
  induction m as [|[k' v'] m IH]; simpl.
  - intros [H|[]]; auto.
  - destruct (k =? k'); simpl; intros [H|H]; auto.
    destruct (IH H); auto.
Qed.

Lemma set_present {V : Type} {k : Z} {v0 : V} (v : V) {m : JsMap.t V} :
  JsMap.get k m = Some v0 ->
  exists before after,
    m = before ++ (k, v0) :: after
    /\ JsMap.set k v m = before ++ (k, v) :: after
    /\ ~ In k (JsMap.keys before).
Proof.
  induction m as [|[k' v'] m IH]; simpl; [discriminate|].
  destruct (k =? k') eqn:E.
  - apply Z.eqb_eq in E. subst k'. intros [= ->].
    exists [], m. simpl. auto.
  - intros G. destruct (IH G) as (before & after & -> & -> & Hn).
    exists ((k', v') :: before), after. simpl. repeat split; auto.
    intros [H|H]; [|auto]. apply Z.eqb_neq in E. congruence.
Qed.

Lemma find_set {V : Type} (p : V -> bool) (k : Z) (v : V) (m : JsMap.t V) :
  find p (JsMap.values m) = None -> p v = true ->
  find p (JsMap.values (JsMap.set k v m)) = Some v.
Proof.
  intros N P. induction m as [|[k' v'] m IH]; simpl in *.
  - now rewrite P.
  - destruct (p v') eqn:E; [discriminate|].
    destruct (k =? k'); simpl; [now rewrite P|]. rewrite E. auto.
Qed.

Lemma get_app_other {V : Type} (k k' : Z) (v : V) (m : JsMap.t V) :
  k' <> k -> JsMap.get k' (m ++ [(k, v)]) = JsMap.get k' m.
Proof.
  intros Hne. induction m as [|[k0 v0] m IH]; simpl.
  - apply Z.eqb_neq in Hne. now rewrite Hne.
  - now rewrite IH.
Qed.

End JsMapFacts.

Module JsArrayFacts.

Lemma insertBy_perm {A : Type} {cmp : A -> A -> Z} {a : A} {l : list A} :
  Permutation (JsArray.insertBy cmp a l) (a :: l).
Proof.
  induction l as [|b l IH]; simpl; auto.
  destruct (cmp a b <=? 0); auto.
  rewrite IH. apply perm_swap.
Qed.

Lemma sort_perm {A : Type} {cmp : A -> A -> Z} {l : list A} :
  Permutation (JsArray.sort cmp l) l.
Proof.
  induction l as [|a l IH]; simpl; auto.
  rewrite insertBy_perm. now constructor.
Qed.

Lemma slice0_firstn {A : Type} {e : Z} {l : list A} :
  0 <= e -> JsArray.slice0 e l = firstn (Z.to_nat e) l.
Proof.
  intros He. unfold JsArray.slice0.
  destruct (e <? 0) eqn:E; auto. apply Z.ltb_lt in E. lia.
Qed.

Lemma In_defined {A : Type} {a : A} (l : list (option A)) :
  In a (JsArray.defined l) <-> In (Some a) l.
Proof.
  induction l as [|[b|] l IH]; simpl; [tauto| |].
  - rewrite IH. split; intros [H|H]; auto; left; congruence.
  - rewrite IH. split; auto. intros [H|H]; [discriminate|auto].
Qed.

Lemma defined_app {A : Type} (l1 l2 : list (option A)) :
  JsArray.defined (l1 ++ l2) = JsArray.defined l1 ++ JsArray.defined l2.
Proof.
  induction l1 as [|[a|] l1 IH]; simpl; auto. now rewrite IH.
Qed.

Lemma StronglySorted_snoc {A : Type} (R : A -> A -> Prop) (l : list A)
  (a : A) :
  StronglySorted R l -> Forall (fun b => R b a) l ->
  StronglySorted R (l ++ [a]).
Proof.
  induction 1 as [|b l S IH F]; intros B; simpl.
  - repeat constructor.
  - inversion B; subst. constructor; auto.
    apply Forall_app. split; auto.
Qed.

End JsArrayFacts.

(** ** The invariant holds in every reachable world *)

Section Table.

Context {V : Type} {idOf : V -> Z}.

Lemma table_empty (n : Z) : table idOf n JsMap.empty.
Proof. split; constructor. Qed.

Lemma table_keys_below {n : Z} {m : JsMap.t V} :
  table idOf n m -> Forall (fun k => k < n) (JsMap.keys m).
Proof.
  intros [_ H]. unfold JsMap.keys. rewrite Forall_map.
  eapply Forall_impl; [|exact H]. simpl. tauto.
Qed.

Lemma table_absent {n k : Z} {m : JsMap.t V} :
  table idOf n m -> n <= k -> ~ In k (JsMap.keys m).
Proof.
  intros T Hk Hin. apply table_keys_below in T.
  rewrite Forall_forall in T. specialize (T k Hin). lia.
Qed.

Lemma table_get_fresh {n k : Z} {m : JsMap.t V} :
  table idOf n m -> n <= k -> JsMap.get k m = None.
Proof.
  intros T Hk. apply JsMapFacts.get_absent. eapply table_absent; eauto.
Qed.

Lemma table_NoDup {n : Z} {m : JsMap.t V} :
  table idOf n m -> NoDup (JsMap.keys m).
Proof.
  intros [S _]. induction S as [|k ks S IH F]; constructor; auto.
  intros Hin. rewrite Forall_forall in F. specialize (F k Hin). lia.
Qed.

Lemma table_get_id {n k : Z} {v : V} {m : JsMap.t V} :
  table idOf n m -> JsMap.get k m = Some v -> idOf v = k /\ k < n.
Proof.
  intros [_ F] G. apply JsMapFacts.get_In in G.
  rewrite Forall_forall in F. specialize (F _ G). simpl in F. tauto.
Qed.

Lemma table_value_get {n : Z} {v : V} {m : JsMap.t V} :
  table idOf n m -> In v (JsMap.values m) -> JsMap.get (idOf v) m = Some v.
Proof.
  intros T Hin. unfold JsMap.values in Hin. apply in_map_iff in Hin.
  destruct Hin as [[k v'] [E Hin]]. simpl in E. subst v'.
  destruct T as [S F]. pose proof F as F'.
  rewrite Forall_forall in F'. specialize (F' _ Hin). simpl in F'.
  destruct F' as [_ ->].
  apply JsMapFacts.In_get; auto. eapply table_NoDup. split; eauto.
Qed.

Lemma table_append {n : Z} {v : V} {m : JsMap.t V} :
  table idOf n m -> idOf v = n ->
  JsMap.set n v m = m ++ [(n, v)] /\ table idOf (n + 1) (JsMap.set n v m).
Proof.
  intros T Hid.
  assert (E : JsMap.set n v m = m ++ [(n, v)]).
  { apply JsMapFacts.set_absent. eapply table_absent; eauto. lia. }
  split; auto. rewrite E. pose proof (table_keys_below T) as B.
  destruct T as [S F]. split.
  - unfold JsMap.keys. rewrite map_app. simpl.
    now apply JsArrayFacts.StronglySorted_snoc.
  - apply Forall_app. split.
    + eapply Forall_impl; [|exact F]. simpl. intros kv [? ?]. split; auto; lia.
    + constructor; auto. simpl. split; auto; lia.
Qed.

Lemma table_replace {n k : Z} {v v0 : V} {m : JsMap.t V} :
  table idOf n m -> JsMap.get k m = Some v0 -> idOf v = k ->
  table idOf n (JsMap.set k v m).
Proof.
  intros T G Hid. pose proof (table_get_id T G) as [_ Hk].
  destruct T as [S F]. split.
  - now rewrite (JsMapFacts.keys_set_present (v:=v) G).
  - rewrite Forall_forall in *. intros kv Hin.
    apply JsMapFacts.In_set in Hin. destruct Hin as [->|Hin]; auto.
Qed.

Lemma table_values_ascend {n : Z} {m : JsMap.t V} :
  table idOf n m ->
  StronglySorted (fun a b => idOf a < idOf b) (JsMap.values m).
Proof.
  intros [S F]. induction m as [|[k v] m IH]; simpl; [constructor|].
  simpl in S. inversion S as [|? ? S' B]; subst.
  inversion F as [|? ? [_ Hk] F']; subst. simpl in Hk.
  constructor; auto.
  unfold JsMap.values. rewrite Forall_map.
  unfold JsMap.keys in B. rewrite Forall_map in B.
  rewrite Forall_forall in *. intros kv Hin.
  destruct (F' _ Hin) as [_ E]. specialize (B _ Hin). lia.
Qed.

End Table.

(** ** The monad *)

Lemma exec_bind {A B : Type} (m : M A) (k : A -> M B) (w : World) :
  exec (bind m k) w = exec (k (eval m w)) (exec m w).
Proof. unfold exec, eval, bind. now destruct (m w). Qed.

Lemma eval_bind {A B : Type} (m : M A) (k : A -> M B) (w : World) :
  eval (bind m k) w = eval (k (eval m w)) (exec m w).
Proof. unfold exec, eval, bind. now destruct (m w). Qed.

Lemma run_eta {A : Type} (m : M A) (w : World) :
  m w = (eval m w, exec m w).
Proof. unfold exec, eval. now destruct (m w). Qed.

Lemma exec_ret {A : Type} (a : A) (w : World) : exec (ret a) w = w.
Proof. reflexivity. Qed.

Lemma exec_this (w : World) : exec this w = w.
Proof. reflexivity. Qed.

Lemma eval_this (w : World) : eval this w = storage w.
Proof. reflexivity. Qed.

Ltac run :=
  repeat first
    [ rewrite exec_bind
    | rewrite eval_bind
    | match goal with
      | |- context [exec (ret ?a) ?w] => change (exec (ret a) w) with w
      | |- context [exec this ?w] => change (exec this w) with w
      | |- context [eval this ?w] => change (eval this w) with (storage w)
      end ].

(** Split a conjunction of facts that are then settled by evaluation. *)
Ltac conj := repeat match goal with |- _ /\ _ => split end.

Section Preservation.

Variable w : World.
Hypothesis W : wf (storage w).

Lemma wf_createUser (insertUser : InsertUser.t) :
  wf (storage (exec (createUser insertUser) w)).
Proof.
  destruct W as [Tu Tc Tm Tg Fm]. simpl.
  split; simpl; auto.
  now apply (table_append (v := User.mk _ _ _ _) Tu).
Qed.

Lemma wf_updateUserOnlineStatus (userId : Z) (isOnline : bool) :
  wf (storage (exec (updateUserOnlineStatus userId isOnline) w)).
Proof.
  unfold exec, updateUserOnlineStatus, bind, this. simpl.
  destruct (JsMap.get userId (users (storage w))) as [user|] eqn:G; simpl; auto.
  destruct W as [Tu Tc Tm Tg Fm].
  split; simpl; auto.
  eapply table_replace; eauto. simpl.
  now destruct (table_get_id Tu G).
Qed.

Lemma wf_addChatMember (chatId userId : Z) :
  chatId < currentChatId (storage w) ->
  wf (storage (exec (addChatMember chatId userId) w)).
Proof.
  intros Hc. destruct W as [Tu Tc Tm Tg Fm].
  destruct (table_append (v := ChatMember.mk (currentChatMemberId (storage w)) chatId
                                 userId (clock w (dateReads w))) Tm eq_refl)
    as [E T'].
  split; simpl; auto.
  rewrite E. unfold JsMap.values. rewrite map_app.
  apply Forall_app. split; auto.
  simpl. constructor; [exact Hc | constructor].
Qed.

Lemma wf_createMessage (message : InsertMessage.t) :
  wf (storage (exec (createMessage message) w)).
Proof.
  destruct W as [Tu Tc Tm Tg Fm]. simpl.
  split; simpl; auto.
  now apply (table_append (v := Message.mk _ _ _ _ _) Tg).
Qed.

End Preservation.

Lemma createChat_steps (chat : InsertChat.t) (w : World) :
  exec (createChat chat) w
  = exec (addChatMember (currentChatId (storage w))
                        (InsertChat.createdBy chat))
         (chatInserted chat w)
  /\ Chat.id (eval (createChat chat) w) = currentChatId (storage w).
Proof. split; reflexivity. Qed.

Lemma wf_chatInserted (chat : InsertChat.t) (w : World) :
  wf (storage w) -> wf (storage (chatInserted chat w)).
Proof.
  intros [Tu Tc Tm Tg Fm]. split; simpl; auto.
  - now apply (table_append (v := Chat.mk _ _ _ _ _) Tc).
  - eapply Forall_impl; [|exact Fm]. simpl. intros. lia.
Qed.

Lemma wf_createChat (chat : InsertChat.t) (w : World) :
  wf (storage w) -> wf (storage (exec (createChat chat) w)).
Proof.
  intros W. destruct (createChat_steps chat w) as [-> _].
  apply wf_addChatMember.
  - now apply wf_chatInserted.
  - simpl. lia.
Qed.

Lemma currentChatId_addChatMember (chatId userId : Z) (w : World) :
  currentChatId (storage (exec (addChatMember chatId userId) w))
  = currentChatId (storage w).
Proof. reflexivity. Qed.

Lemma currentChatId_createChat (chat : InsertChat.t) (w : World) :
  currentChatId (storage (exec (createChat chat) w))
  = currentChatId (storage w) + 1.
Proof. reflexivity. Qed.

Lemma wf_addMembers (chatId createdBy : Z) (memberIds : list Z) (w : World) :
  wf (storage w) -> chatId < currentChatId (storage w) ->
  wf (storage (exec (Routes.addMembers chatId createdBy memberIds) w)).
Proof.
  revert w. induction memberIds as [|memberId rest IH]; intros w W Hc.
  - exact W.
  - unfold exec. simpl. unfold bind at 1.
    destruct (negb (memberId =? createdBy)).
    + change (wf (storage (exec (Routes.addMembers chatId createdBy rest)
                             (exec (addChatMember chatId memberId) w)))).
      apply IH; [now apply wf_addChatMember | exact Hc].
    + apply IH; assumption.
Qed.

Lemma wf_handle (r : Request) (w : World) :
  wf (storage w) -> wf (storage (handle r w)).
Proof.
  intros W. destruct r as [userData|userId isOnline|chatData memberIds
                          |messageData|userId1 userId2]; simpl.
  - unfold exec, Routes.postUsers, bind, this. simpl.
    destruct (getUserByUsername (storage w) (InsertUser.username userData));
      [exact W|].
    apply (wf_createUser w W userData).
  - unfold Routes.putUsersStatus. rewrite exec_bind.
    apply (wf_updateUserOnlineStatus w W userId isOnline).
  - pose proof (wf_createChat chatData w W) as W1.
    pose proof (currentChatId_createChat chatData w) as Hn.
    destruct (createChat_steps chatData w) as [_ Hid].
    unfold Routes.postChats. run. rewrite Hid.
    destruct memberIds as [ids|]; [|exact W1].
    apply wf_addMembers; [exact W1 | lia].
  - apply (wf_createMessage w W messageData).
  - unfold exec, Routes.postChatsDirect, bind, this. simpl.
    destruct (find (Routes.isDirectWith userId2)
                   (getUserChats (storage w) userId1)); [exact W|].
    set (chat := {| InsertChat.name := None; InsertChat.type := "direct";
                    InsertChat.createdBy := userId1 |}).
    change (wf (storage (exec (addChatMember (currentChatId (storage w))
                                             userId2)
                              (exec (createChat chat) w)))).
    apply wf_addChatMember; [now apply wf_createChat|].
    rewrite currentChatId_createChat. lia.
Qed.

Lemma wf_boot (clk : nat -> Z) : wf (storage (boot clk)).
Proof. split; simpl; try apply table_empty; constructor. Qed.

Lemma reachable_wf (w : World) : reachable w -> wf (storage w).
Proof.
  induction 1 as [clk|w r R IH]; [apply wf_boot | now apply wf_handle].
Qed.

Lemma reachable_serve (w : World) (rs : list Request) :
  reachable w -> reachable (serve w rs).
Proof.
  revert w. induction rs as [|r rs IH]; intros w R; simpl; auto.
  apply IH. now constructor.
Qed.

(** ** Membership rows and the chats of a user *)

Lemma addChatMember_appends (chatId userId : Z) (w : World) :
  wf (storage w) ->
  let row := {| ChatMember.id := currentChatMemberId (storage w);
                ChatMember.chatId := chatId;
                ChatMember.userId := userId;
                ChatMember.joinedAt := clock w (dateReads w) |} in
  storage (exec (addChatMember chatId userId) w)
  = setChatMembers
      (chatMembers (storage w) ++ [(currentChatMemberId (storage w), row)])
      (currentChatMemberId (storage w) + 1) (storage w).
Proof.
  intros [_ _ Tm _ _]. simpl.
  now destruct (table_append (v := ChatMember.mk (currentChatMemberId
                                  (storage w)) chatId userId
                                  (clock w (dateReads w))) Tm eq_refl)
    as [-> _].
Qed.

Lemma getChatWithMembers_chat (st : MemStorage) (id : Z) :
  option_map ChatWithMembers.chat (getChatWithMembers st id) = getChat st id.
Proof.
  unfold getChatWithMembers, getChat.
  now destruct (JsMap.get id (chats st)).
Qed.

Lemma getChatWithMembers_id (st : MemStorage) (id : Z)
  (cw : ChatWithMembers.t) :
  wf st -> getChatWithMembers st id = Some cw -> chatIdOf cw = id.
Proof.
  intros W E. pose proof (getChatWithMembers_chat st id) as C.
  rewrite E in C. simpl in C. symmetry in C.
  now destruct (table_get_id (wf_chats W) C).
Qed.

Lemma getUserChats_ids (st : MemStorage) (userId : Z) :
  wf st ->
  map chatIdOf (getUserChats st userId)
  = map ChatMember.chatId (rowsOfUser st userId).
Proof.
  intros W. unfold getUserChats, rowsOfUser.
  induction (JsMap.values (chatMembers st)) as [|m rows IH]; simpl; auto.
  destruct (ChatMember.userId m =? userId); simpl; auto.
  pose proof (getChatWithMembers_chat st (ChatMember.chatId m)) as C.
  destruct (getChatWithMembers st (ChatMember.chatId m)) as [cw|] eqn:E;
    simpl in C; rewrite <- C; simpl; auto.
  f_equal; auto. eapply getChatWithMembers_id; eauto.
Qed.


(** ** The window of [getChatMessages] *)

Module JsSortFacts.

Lemma insertBy_last {A : Type} (cmp : A -> A -> Z) (a : A) (l : list A) :
  Forall (fun b => 0 < cmp a b) l -> JsArray.insertBy cmp a l = l ++ [a].
Proof.
  induction 1 as [|b l Hb F IH]; simpl; auto.
  destruct (cmp a b <=? 0) eqn:E; [apply Z.leb_le in E; lia|].
  now rewrite IH.
Qed.

Lemma StronglySorted_rev {A : Type} (R : A -> A -> Prop) (l : list A) :
  StronglySorted R l -> StronglySorted (fun a b => R b a) (rev l).
Proof.
  induction 1 as [|a l S IH F]; simpl; [constructor|].
  apply JsArrayFacts.StronglySorted_snoc; auto.
  rewrite Forall_forall in *. intros b Hb. apply F. now apply in_rev.
Qed.

Lemma StronglySorted_filter {A : Type} (R : A -> A -> Prop)
  (p : A -> bool) (l : list A) :
  StronglySorted R l -> StronglySorted R (filter p l).
Proof.
  induction 1 as [|a l S IH F]; simpl; [constructor|].
  destruct (p a); auto. constructor; auto.
  rewrite Forall_forall in *. intros b Hb. apply F.
  now apply filter_In in Hb.
Qed.

Lemma StronglySorted_app_inv {A : Type} (R : A -> A -> Prop)
  (l1 l2 : list A) (x y : A) :
  StronglySorted R (l1 ++ l2) -> In x l1 -> In y l2 -> R x y.
Proof.
  induction l1 as [|a l1 IH]; simpl; [tauto|].
  intros S [<-|Hx] Hy; inversion S as [|? ? S' F]; subst.
  - rewrite Forall_forall in F. apply F. apply in_or_app. now right.
  - now apply IH.
Qed.

Lemma rev_firstn {A : Type} (n : nat) (l : list A) :
  rev (firstn n l) = lastN n (rev l).
Proof.
  unfold lastN. rewrite length_rev, skipn_rev.
  destruct (Nat.le_gt_cases n (length l)) as [H|H].
  - now replace (length l - (length l - n))%nat with n by lia.
  - replace (length l - (length l - n))%nat with (length l) by lia.
    now rewrite !firstn_all2 by lia.
Qed.

End JsSortFacts.

Section Window.

Lemma insertBy_newestFirst_sorted (a : Message.t) (l : list Message.t) :
  StronglySorted newestOnTop l ->
  Forall (fun b => Message.id a < Message.id b) l ->
  StronglySorted newestOnTop (JsArray.insertBy newestFirst a l).
Proof.
  induction 1 as [|b l S IH F]; intros B; simpl.
  - repeat constructor.
  - inversion B as [|? ? Hb B']; subst.
    unfold newestFirst at 1.
    destruct (Message.sentAt b - Message.sentAt a <=? 0) eqn:E.
    + apply Z.leb_le in E. constructor; [now constructor|].
      constructor.
      * unfold newestOnTop, returnedBefore. lia.
      * rewrite Forall_forall in *. intros x Hx.
        specialize (F x Hx). specialize (B' x Hx).
        unfold newestOnTop, returnedBefore in *. lia.
    + apply Z.leb_gt in E. constructor; [now apply IH|].
      apply (Permutation_Forall
               (Permutation_sym (JsArrayFacts.insertBy_perm
                                   (cmp := newestFirst) (a := a) (l := l)))).
      constructor; auto.
      unfold newestOnTop, returnedBefore. lia.
Qed.

Lemma sort_newestFirst_sorted (l : list Message.t) :
  StronglySorted (fun a b => Message.id a < Message.id b) l ->
  StronglySorted newestOnTop (JsArray.sort newestFirst l).
Proof.
  induction 1 as [|a l S IH F]; simpl; [constructor|].
  apply insertBy_newestFirst_sorted; auto.
  apply (Permutation_Forall
           (Permutation_sym (JsArrayFacts.sort_perm
                               (cmp := newestFirst) (l := l)))).
  exact F.
Qed.

Lemma sort_newestFirst_ascending (l : list Message.t) :
  StronglySorted (fun a b => Message.sentAt a < Message.sentAt b) l ->
  JsArray.sort newestFirst l = rev l.
Proof.
  induction 1 as [|a l S IH F]; simpl; auto.
  rewrite IH. apply JsSortFacts.insertBy_last.
  rewrite Forall_forall in *. intros b Hb. apply in_rev in Hb.
  specialize (F b Hb). unfold newestFirst. lia.
Qed.

Lemma sender_join (st : MemStorage) (l : list Message.t) :
  let joined :=
    filter (fun m => JsArray.isDefined (MessageWithSender.sender m))
      (map (fun message =>
              {| MessageWithSender.message := message;
                 MessageWithSender.sender :=
                   JsMap.get (Message.senderId message) (users st) |})
           l) in
  map MessageWithSender.message joined = filter (senderResolves st) l
  /\ Forall (fun entry =>
               exists user,
                 MessageWithSender.sender entry = Some user
                 /\ getUser st (Message.senderId
                                  (MessageWithSender.message entry))
                    = Some user)
            joined.
Proof.
  unfold senderResolves, getUser.
  induction l as [|m l [IH1 IH2]]; simpl; [split; constructor|].
  destruct (JsMap.get (Message.senderId m) (users st)) as [u|] eqn:G; simpl.
  - split; [now rewrite IH1|]. constructor; auto. exists u. simpl. auto.
  - split; assumption.
Qed.

End Window.

(** ** Rows stay grouped by chat *)

Lemma rowsByChat_addChatMember (chatId userId : Z) (w : World) :
  wf (storage w) -> rowsByChat (storage w) ->
  chatId + 1 = currentChatId (storage w) ->
  rowsByChat (storage (exec (addChatMember chatId userId) w)).
Proof.
  intros W S Hc. unfold rowsByChat.
  rewrite addChatMember_appends by assumption. simpl.
  unfold JsMap.values. rewrite map_app. simpl.
  apply JsArrayFacts.StronglySorted_snoc; [exact S|].
  eapply Forall_impl; [|exact (wf_memberChat W)]. simpl. intros m Hm. lia.
Qed.

Lemma rowsByChat_addMembers (chatId createdBy : Z) (memberIds : list Z)
  (w : World) :
  wf (storage w) -> rowsByChat (storage w) ->
  chatId + 1 = currentChatId (storage w) ->
  rowsByChat (storage (exec (Routes.addMembers chatId createdBy memberIds) w)).
Proof.
  revert w. induction memberIds as [|memberId rest IH]; intros w W S Hc.
  - exact S.
  - simpl. rewrite exec_bind. destruct (negb (memberId =? createdBy)).
    + apply IH.
      * apply wf_addChatMember; [exact W | lia].
      * now apply rowsByChat_addChatMember.
      * exact Hc.
    + now apply IH.
Qed.

Lemma rowsByChat_createChat (chat : InsertChat.t) (w : World) :
  wf (storage w) -> rowsByChat (storage w) ->
  rowsByChat (storage (exec (createChat chat) w)).
Proof.
  intros W S. destruct (createChat_steps chat w) as [-> _].
  apply rowsByChat_addChatMember.
  - now apply wf_chatInserted.
  - exact S.
  - reflexivity.
Qed.

Lemma rowsByChat_handle (r : Request) (w : World) :
  wf (storage w) -> rowsByChat (storage w) -> rowsByChat (storage (handle r w)).
Proof.
  intros W S. destruct r as [userData|userId isOnline|chatData memberIds
                            |messageData|userId1 userId2]; simpl.
  - unfold exec, Routes.postUsers, bind, this. simpl.
    now destruct (getUserByUsername (storage w)
                    (InsertUser.username userData)).
  - unfold exec, Routes.putUsersStatus, updateUserOnlineStatus, bind, this.
    simpl. now destruct (JsMap.get userId (users (storage w))).
  - destruct (createChat_steps chatData w) as [_ Hid].
    unfold Routes.postChats. run. rewrite Hid.
    destruct memberIds as [ids|].
    + apply rowsByChat_addMembers.
      * now apply wf_createChat.
      * now apply rowsByChat_createChat.
      * now rewrite currentChatId_createChat.
    + now apply rowsByChat_createChat.
  - exact S.
  - unfold Routes.postChatsDirect. run.
    destruct (find (Routes.isDirectWith userId2)
                   (getUserChats (storage w) userId1)); [exact S|].
    run. apply rowsByChat_addChatMember.
    + now apply wf_createChat.
    + now apply rowsByChat_createChat.
    + reflexivity.
Qed.

Lemma reachable_rowsByChat (w : World) : reachable w -> rowsByChat (storage w).
Proof.
  induction 1 as [clk|w r R IH]; [constructor|].
  apply rowsByChat_handle; auto. now apply reachable_wf.
Qed.

(** ** Rows belong to existing chats *)

Lemma live_addChatMember (chatId userId : Z) (w : World) :
  wf (storage w) -> rowsOfLiveChats (storage w) ->
  JsArray.isDefined (getChat (storage w) chatId) = true ->
  rowsOfLiveChats (storage (exec (addChatMember chatId userId) w)).
Proof.
  intros W L Hc. unfold rowsOfLiveChats.
  rewrite addChatMember_appends by assumption.
  cbn [chatMembers setChatMembers]. unfold JsMap.values. rewrite map_app.
  apply Forall_app. split; [exact L|].
  constructor; [exact Hc | constructor].
Qed.

Lemma live_chatInserted (chat : InsertChat.t) (w : World) :
  wf (storage w) -> rowsOfLiveChats (storage w) ->
  rowsOfLiveChats (storage (chatInserted chat w))
  /\ JsArray.isDefined (getChat (storage (chatInserted chat w))
                          (currentChatId (storage w))) = true.
Proof.
  intros W L. unfold rowsOfLiveChats, getChat in *. cbn [storage chatInserted
    chatMembers chats setChats]. split.
  - pose proof (wf_memberChat W) as B.
    rewrite Forall_forall in *. intros m Hm.
    rewrite JsMapFacts.get_set_other; [now apply L|].
    specialize (B m Hm). simpl in B. lia.
  - now rewrite JsMapFacts.get_set_same.
Qed.

Lemma live_createChat (chat : InsertChat.t) (w : World) :
  wf (storage w) -> rowsOfLiveChats (storage w) ->
  rowsOfLiveChats (storage (exec (createChat chat) w))
  /\ JsArray.isDefined (getChat (storage (exec (createChat chat) w))
                          (currentChatId (storage w))) = true.
Proof.
  intros W L. destruct (createChat_steps chat w) as [-> _].
  destruct (live_chatInserted chat w W L) as [L1 G1].
  split; [|exact G1].
  apply live_addChatMember; auto. now apply wf_chatInserted.
Qed.

Lemma live_addMembers (chatId createdBy : Z) (memberIds : list Z)
  (w : World) :
  wf (storage w) -> rowsOfLiveChats (storage w) ->
  chatId < currentChatId (storage w) ->
  JsArray.isDefined (getChat (storage w) chatId) = true ->
  rowsOfLiveChats
    (storage (exec (Routes.addMembers chatId createdBy memberIds) w)).
Proof.
  revert w. induction memberIds as [|memberId rest IH]; intros w W L Hc G.
  - exact L.
  - simpl. rewrite exec_bind. destruct (negb (memberId =? createdBy)).
    + apply IH; auto.
      * now apply wf_addChatMember.
      * now apply live_addChatMember.
    + now apply IH.
Qed.

Lemma live_handle (r : Request) (w : World) :
  wf (storage w) -> rowsOfLiveChats (storage w) ->
  rowsOfLiveChats (storage (handle r w)).
Proof.
  intros W L. destruct r as [userData|userId isOnline|chatData memberIds
                            |messageData|userId1 userId2]; simpl.
  - unfold exec, Routes.postUsers, bind, this. simpl.
    now destruct (getUserByUsername (storage w)
                    (InsertUser.username userData)).
  - unfold exec, Routes.putUsersStatus, updateUserOnlineStatus, bind, this.
    simpl. now destruct (JsMap.get userId (users (storage w))).
  - destruct (createChat_steps chatData w) as [_ Hid].
    destruct (live_createChat chatData w W L) as [L1 G1].
    unfold Routes.postChats. run. rewrite Hid.
    destruct memberIds as [ids|]; [|exact L1].
    apply live_addMembers; auto.
    + now apply wf_createChat.
    + rewrite currentChatId_createChat. lia.
  - exact L.
  - unfold Routes.postChatsDirect. run.
    destruct (find (Routes.isDirectWith userId2)
                   (getUserChats (storage w) userId1)); [exact L|].
    run. destruct (live_createChat (directChatOf userId1) w W L) as [L1 G1].
    apply live_addChatMember; auto. now apply wf_createChat.
Qed.

Lemma reachable_live (w : World) : reachable w -> rowsOfLiveChats (storage w).
Proof.
  induction 1 as [clk|w r R IH]; [constructor|].
  apply live_handle; auto. now apply reachable_wf.
Qed.

Lemma rowsOfUser_live (st : MemStorage) (userId : Z) :
  rowsOfLiveChats st ->
  rowsOfUser st userId
  = filter (fun member => ChatMember.userId member =? userId)
           (JsMap.values (chatMembers st)).
Proof.
  unfold rowsOfLiveChats, rowsOfUser. intros L. apply filter_ext_in.
  rewrite Forall_forall in L. intros m Hm. rewrite (L m Hm).
  apply andb_true_r.
Qed.

Lemma no_row_of_unallocated_chat (st : MemStorage) (chatId : Z) :
  wf st -> currentChatId st <= chatId -> rowsOfChat st chatId = [].
Proof.
  intros W Hc. unfold rowsOfChat. pose proof (wf_memberChat W) as F.
  induction (JsMap.values (chatMembers st)) as [|m rows IH]; simpl; auto.
  inversion F as [|? ? Hm F']; subst.
  destruct (ChatMember.chatId m =? chatId) eqn:E; auto.
  apply Z.eqb_eq in E. lia.
Qed.

Lemma createChat_storage (chat : InsertChat.t) (w : World) :
  wf (storage w) ->
  let st := storage w in
  let newChat := eval (createChat chat) w in
  let row := {| ChatMember.id := currentChatMemberId st;
                ChatMember.chatId := currentChatId st;
                ChatMember.userId := InsertChat.createdBy chat;
                ChatMember.joinedAt := clock w (S (dateReads w)) |} in
  storage (exec (createChat chat) w)
  = {| users := users st;
       chats := chats st ++ [(currentChatId st, newChat)];
       chatMembers := chatMembers st ++ [(currentChatMemberId st, row)];
       messages := messages st;
       currentUserId := currentUserId st;
       currentChatId := currentChatId st + 1;
       currentChatMemberId := currentChatMemberId st + 1;
       currentMessageId := currentMessageId st |}.
Proof.
  intros W. destruct (createChat_steps chat w) as [-> _].
  rewrite addChatMember_appends by now apply wf_chatInserted.
  simpl. unfold setChatMembers. simpl. f_equal.
  now destruct (table_append (v := Chat.mk (currentChatId (storage w))
                                   (InsertChat.name chat)
                                   (InsertChat.type chat)
                                   (InsertChat.createdBy chat)
                                   (clock w (dateReads w)))
                  (wf_chats W) eq_refl) as [-> _].
Qed.

(** C5, as the code has it.  [createChat] itself appends the creator's
    membership row.  Right after it, [getChatWithMembers] on the new id
    is present and carries the new chat; its member list is exactly the
    creator's entry when [createdBy] resolves to a user, and is empty when
    it does not, because entries whose user is missing are filtered out. *)
Theorem createChat_members_after_creation (w : World) (chat : InsertChat.t) :
  reachable w ->
  let newChat := eval (createChat chat) w in
  let w' := exec (createChat chat) w in
  let row := {| ChatMember.id := currentChatMemberId (storage w);
                ChatMember.chatId := Chat.id newChat;
                ChatMember.userId := InsertChat.createdBy chat;
                ChatMember.joinedAt := clock w (S (dateReads w)) |} in
  chatMembers (storage w')
  = chatMembers (storage w) ++ [(ChatMember.id row, row)]
  /\ exists cw,
      getChatWithMembers (storage w') (Chat.id newChat) = Some cw
      /\ ChatWithMembers.chat cw = newChat
      /\ (forall creator,
            getUser (storage w) (InsertChat.createdBy chat) = Some creator ->
            ChatWithMembers.members cw
            = [{| MemberWithUser.member := row;
                  MemberWithUser.user := Some creator |}])
      /\ (getUser (storage w) (InsertChat.createdBy chat) = None ->
          ChatWithMembers.members cw = []).
Proof.
  intros R. apply reachable_wf in R. intros newChat w' row.
  pose proof (createChat_storage chat w R) as St. cbv zeta in St.
  fold newChat w' in St. split; [now rewrite St|].
  assert (G : JsMap.get (Chat.id newChat) (chats (storage w'))
              = Some newChat).
  { rewrite St. simpl.
    destruct (table_append (v := newChat) (wf_chats R) eq_refl) as [<- _].
    apply JsMapFacts.get_set_same. }
  unfold getChatWithMembers. rewrite G. eexists. split; [reflexivity|].
  cbn [ChatWithMembers.chat ChatWithMembers.members].
  split; [reflexivity|].
  assert (M : forall o,
             getUser (storage w) (InsertChat.createdBy chat) = o ->
             getChatMembers (storage w') (Chat.id newChat)
             = filter (fun e => JsArray.isDefined (MemberWithUser.user e))
                      [{| MemberWithUser.member := row;
                          MemberWithUser.user := o |}]).
  { intros o Ho. unfold getChatMembers.
    assert (U : users (storage w') = users (storage w)) by now rewrite St.
    rewrite U.
    assert (Rows : filter (fun m => ChatMember.chatId m =? Chat.id newChat)
                          (JsMap.values (chatMembers (storage w')))
                   = [row]).
    { rewrite St. simpl chatMembers. unfold JsMap.values.
      rewrite map_app, filter_app.
      pose proof (no_row_of_unallocated_chat (storage w)
                    (currentChatId (storage w)) R (Z.le_refl _)) as N.
      unfold rowsOfChat, JsMap.values in N. simpl Chat.id. rewrite N.
      simpl. now rewrite Z.eqb_refl. }
    rewrite Rows. simpl map. unfold getUser in Ho. simpl ChatMember.userId.
    now rewrite Ho. }
  split.
  - intros creator Hc. now rewrite (M _ Hc).
  - intros Hn. now rewrite (M _ Hn).
Qed.

(** C5 fails as stated: a chat created in a fresh store by user id 99,
    which no user has, gets its membership row, but the member list of
    its projection is empty. *)
Lemma creator_missing_from_members :
  let chat := {| InsertChat.name := Some "Team"%string;
                 InsertChat.type := "group";
                 InsertChat.createdBy := 99 |} in
  let w := boot tickingClock in
  let w' := exec (createChat chat) w in
  map ChatMember.userId (JsMap.values (chatMembers (storage w'))) = [99]
  /\ option_map ChatWithMembers.members
       (getChatWithMembers (storage w')
          (Chat.id (eval (createChat chat) w)))
     = Some [].
Proof. split; reflexivity. Qed.

(** ** Finding the direct chat of two users *)

Lemma find_defined_map {A B : Type} (f : A -> option B) (p : B -> bool)
  (l : list A) :
  find p (JsArray.defined (map f l))
  = match find (fun x => match f x with Some y => p y | None => false end) l
    with
    | Some x => f x
    | None => None
    end.
Proof.
  induction l as [|a l IH]; simpl; auto.
  destruct (f a) as [y|] eqn:E; simpl; auto.
  destruct (p y); auto.
Qed.

Lemma find_getUserChats (st : MemStorage) (p : ChatWithMembers.t -> bool)
  (userId : Z) :
  find p (getUserChats st userId)
  = match find (rowPasses st p)
            (filter (fun member => ChatMember.userId member =? userId)
                    (JsMap.values (chatMembers st)))
    with
    | Some member => getChatWithMembers st (ChatMember.chatId member)
    | None => None
    end.
Proof. unfold getUserChats. apply find_defined_map. Qed.

Lemma find_app_last {A : Type} (p : A -> bool) (l : list A) (x : A) :
  find p l = None -> find p (l ++ [x]) = if p x then Some x else None.
Proof.
  induction l as [|a l IH]; simpl; auto.
  destruct (p a); [discriminate|auto].
Qed.

Lemma find_first_by_chat (p : ChatMember.t -> bool) (l : list ChatMember.t)
  (y z : ChatMember.t) :
  StronglySorted
    (fun m1 m2 => ChatMember.chatId m1 <= ChatMember.chatId m2) l ->
  find p l = Some y -> In z l -> p z = true ->
  ChatMember.chatId y <= ChatMember.chatId z.
Proof.
  induction 1 as [|m l S IH F]; simpl; [discriminate|].
  destruct (p m) eqn:E.
  - intros [= <-] [<-|Hz] _; [lia|].
    rewrite Forall_forall in F. now apply F.
  - intros Hy [<-|Hz] Pz; [congruence|]. now apply IH.
Qed.

Lemma getChatWithMembers_inv (st : MemStorage) (id : Z)
  (cw : ChatWithMembers.t) :
  getChatWithMembers st id = Some cw ->
  getChat st id = Some (ChatWithMembers.chat cw)
  /\ ChatWithMembers.members cw = getChatMembers st id.
Proof.
  unfold getChatWithMembers, getChat.
  destruct (JsMap.get id (chats st)); [|discriminate].
  intros [= <-]. auto.
Qed.

Lemma row_hasMember (st : MemStorage) (member : ChatMember.t) (user : User.t) :
  In member (JsMap.values (chatMembers st)) ->
  getUser st (ChatMember.userId member) = Some user ->
  hasMember (ChatMember.userId member)
            (getChatMembers st (ChatMember.chatId member)) = true.
Proof.
  intros Hin Hu. unfold hasMember. apply existsb_exists.
  exists {| MemberWithUser.member := member; MemberWithUser.user := Some user |}.
  split; [|simpl; apply Z.eqb_refl].
  unfold getChatMembers. apply filter_In. split; [|reflexivity].
  apply in_map_iff. exists member. split.
  - unfold getUser in Hu. now rewrite Hu.
  - apply filter_In. split; [exact Hin | apply Z.eqb_refl].
Qed.

Lemma hasMember_row (st : MemStorage) (chatId userId : Z) :
  hasMember userId (getChatMembers st chatId) = true ->
  exists member,
    In member (JsMap.values (chatMembers st))
    /\ ChatMember.chatId member = chatId
    /\ ChatMember.userId member = userId.
Proof.
  unfold hasMember. intros H. apply existsb_exists in H.
  destruct H as (entry & Hin & Hu). apply Z.eqb_eq in Hu.
  unfold getChatMembers in Hin. apply filter_In in Hin.
  destruct Hin as [Hin _]. apply in_map_iff in Hin.
  destruct Hin as (member & <- & Hin). apply filter_In in Hin.
  destruct Hin as [Hin Hc]. apply Z.eqb_eq in Hc.
  exists member. simpl in Hu. auto.
Qed.

Lemma isDirectWith_inv (userId2 : Z) (cw : ChatWithMembers.t) :
  Routes.isDirectWith userId2 cw = true ->
  String.eqb (Chat.type (ChatWithMembers.chat cw)) "direct" = true
  /\ (Z.of_nat (length (ChatWithMembers.members cw)) =? 2) = true
  /\ hasMember userId2 (ChatWithMembers.members cw) = true.
Proof.
  unfold Routes.isDirectWith, hasMember. intros H.
  apply andb_prop in H. destruct H as [H H3].
  apply andb_prop in H. destruct H as [H1 H2]. auto.
Qed.

Section Found.

Variable st : MemStorage.
Hypothesis W : wf st.
Hypothesis S : rowsByChat st.

(** A chat found from one side is a chat of the other side too. *)
Lemma found_other_side (a b : Z) (ua : User.t) (x : ChatMember.t)
  (cw : ChatWithMembers.t) :
  getUser st a = Some ua ->
  In x (JsMap.values (chatMembers st)) -> ChatMember.userId x = a ->
  getChatWithMembers st (ChatMember.chatId x) = Some cw ->
  Routes.isDirectWith b cw = true ->
  exists z,
    In z (filter (fun member => ChatMember.userId member =? b)
                 (JsMap.values (chatMembers st)))
    /\ ChatMember.chatId z = ChatMember.chatId x
    /\ rowPasses st (Routes.isDirectWith a) z = true.
Proof.
  intros Ha Hx Hxa Hcw Hd.
  destruct (isDirectWith_inv _ _ Hd) as (Ht & Hl & Hb).
  destruct (getChatWithMembers_inv _ _ _ Hcw) as [_ Hm].
  rewrite Hm in Hb. destruct (hasMember_row _ _ _ Hb) as (z & Hz & Hzc & Hzb).
  exists z. split; [|split; [exact Hzc|]].
  - apply filter_In. split; [exact Hz | now apply Z.eqb_eq].
  - unfold rowPasses. rewrite Hzc, Hcw.
    unfold Routes.isDirectWith. rewrite Ht, Hl. simpl.
    fold (hasMember a (ChatWithMembers.members cw)). rewrite Hm.
    rewrite <- Hxa in *. eapply row_hasMember; eauto.
Qed.

Lemma find_symmetric (a b : Z) (ua ub : User.t) (cw : ChatWithMembers.t) :
  getUser st a = Some ua -> getUser st b = Some ub ->
  find (Routes.isDirectWith b) (getUserChats st a) = Some cw ->
  find (Routes.isDirectWith a) (getUserChats st b) = Some cw.
Proof.
  intros Ha Hb F. rewrite find_getUserChats in F. rewrite find_getUserChats.
  assert (Sorted : forall u,
             StronglySorted
               (fun m1 m2 => ChatMember.chatId m1 <= ChatMember.chatId m2)
               (filter (fun member => ChatMember.userId member =? u)
                       (JsMap.values (chatMembers st)))).
  { intros u. now apply JsSortFacts.StronglySorted_filter. }
  destruct (find (rowPasses st (Routes.isDirectWith b))
              (filter (fun member => ChatMember.userId member =? a)
                      (JsMap.values (chatMembers st))))
    as [x|] eqn:Fx; [|discriminate F].
  destruct (find_some _ _ Fx) as [Hx Px].
  apply filter_In in Hx. destruct Hx as [Hx Hxa]. apply Z.eqb_eq in Hxa.
  assert (Pcw : Routes.isDirectWith b cw = true).
  { unfold rowPasses in Px. now rewrite F in Px. }
  destruct (found_other_side a b ua x cw Ha Hx Hxa F Pcw)
    as (z & Hz & Hzc & Pz).
  destruct (find (rowPasses st (Routes.isDirectWith a))
              (filter (fun member => ChatMember.userId member =? b)
                      (JsMap.values (chatMembers st))))
    as [y|] eqn:Fy.
  - destruct (find_some _ _ Fy) as [Hy Py].
    apply filter_In in Hy. destruct Hy as [Hy Hyb]. apply Z.eqb_eq in Hyb.
    assert (L1 : ChatMember.chatId y <= ChatMember.chatId z).
    { exact (find_first_by_chat _ _ y z (Sorted b) Fy Hz Pz). }
    unfold rowPasses in Py.
    destruct (getChatWithMembers st (ChatMember.chatId y)) as [cwy|] eqn:Gy;
      [|discriminate].
    destruct (found_other_side b a ub y cwy Hb Hy Hyb Gy Py)
      as (z' & Hz' & Hzc' & Pz').
    assert (L2 : ChatMember.chatId x <= ChatMember.chatId z').
    { exact (find_first_by_chat _ _ x z' (Sorted a) Fx Hz' Pz'). }
    assert (E : ChatMember.chatId y = ChatMember.chatId x) by lia.
    rewrite E in Gy. congruence.
  - exfalso. pose proof (find_none _ _ Fy z Hz) as N. congruence.
Qed.

End Found.

Lemma getChatMembers_frame (st st' : MemStorage) (chatId : Z) :
  users st' = users st -> rowsOfChat st' chatId = rowsOfChat st chatId ->
  getChatMembers st' chatId = getChatMembers st chatId.
Proof.
  unfold getChatMembers, rowsOfChat. intros -> ->. reflexivity.
Qed.

Lemma getChatWithMembers_frame (st st' : MemStorage) (chatId : Z) :
  users st' = users st -> messages st' = messages st ->
  getChat st' chatId = getChat st chatId ->
  rowsOfChat st' chatId = rowsOfChat st chatId ->
  getChatWithMembers st' chatId = getChatWithMembers st chatId.
Proof.
  intros U G C Rw. unfold getChatWithMembers. unfold getChat in C.
  rewrite C, (getChatMembers_frame st st' chatId U Rw).
  unfold getChatMessages. now rewrite U, G.
Qed.

Lemma singleton_of_short {A : Type} (x : A) (l : list A) :
  In x l -> (length l <= 1)%nat -> l = [x].
Proof.
  destruct l as [|y [|z l]]; simpl; intros H L; try tauto; try lia.
  destruct H as [->|[]]. reflexivity.
Qed.

Section Resolver.

Variable st : MemStorage.
Hypothesis W : wf st.
Variables a b : Z.
Variables ua ub : User.t.
Hypothesis Ha : getUser st a = Some ua.
Hypothesis Hb : getUser st b = Some ub.

Lemma found_is_direct (cw : ChatWithMembers.t) :
  find (Routes.isDirectWith b) (getUserChats st a) = Some cw ->
  In (ChatWithMembers.chat cw) (directChats st a b).
Proof.
  intros F. rewrite find_getUserChats in F.
  destruct (find (rowPasses st (Routes.isDirectWith b))
              (filter (fun member => ChatMember.userId member =? a)
                      (JsMap.values (chatMembers st))))
    as [x|] eqn:Fx; [|discriminate F].
  destruct (find_some _ _ Fx) as [Hx Px].
  apply filter_In in Hx. destruct Hx as [Hx Hxa]. apply Z.eqb_eq in Hxa.
  unfold rowPasses in Px. rewrite F in Px.
  destruct (isDirectWith_inv _ _ Px) as (Ht & Hl & Hhb).
  destruct (getChatWithMembers_inv _ _ _ F) as [Hc Hm].
  pose proof (getChatWithMembers_id _ _ _ W F) as Hid. unfold chatIdOf in Hid.
  unfold directChats. apply filter_In. split.
  - unfold getChat in Hc. apply JsMapFacts.get_In in Hc.
    unfold JsMap.values. apply in_map_iff. eexists. split; [|exact Hc].
    reflexivity.
  - unfold isDirectBetween. rewrite Hid, <- Hm, Ht, Hl, Hhb. simpl.
    rewrite Hm, <- Hxa. rewrite <- Hxa in Ha.
    rewrite (row_hasMember st x ua Hx Ha). reflexivity.
Qed.

Lemma not_found_no_direct :
  find (Routes.isDirectWith b) (getUserChats st a) = None ->
  directChats st a b = [].
Proof.
  intros F. destruct (directChats st a b) as [|chat rest] eqn:D; auto.
  exfalso.
  assert (Hin : In chat (directChats st a b)) by (rewrite D; now left).
  unfold directChats in Hin. apply filter_In in Hin.
  destruct Hin as [Hin Hd]. unfold isDirectBetween in Hd.
  apply andb_prop in Hd. destruct Hd as [Hd Hhb].
  apply andb_prop in Hd. destruct Hd as [Hd Hha].
  apply andb_prop in Hd. destruct Hd as [Ht Hl].
  destruct (hasMember_row _ _ _ Hha) as (x & Hx & Hxc & Hxa).
  pose proof (table_value_get (wf_chats W) Hin) as G.
  rewrite find_getUserChats in F.
  destruct (find (rowPasses st (Routes.isDirectWith b))
              (filter (fun member => ChatMember.userId member =? a)
                      (JsMap.values (chatMembers st))))
    as [y|] eqn:Fy.
  - pose proof (find_some _ _ Fy) as [_ Py]. unfold rowPasses in Py.
    rewrite F in Py. discriminate Py.
  - assert (Hx' : In x (filter (fun member => ChatMember.userId member =? a)
                               (JsMap.values (chatMembers st)))).
    { apply filter_In. split; [exact Hx | now apply Z.eqb_eq]. }
    pose proof (find_none _ _ Fy x Hx') as N.
    unfold rowPasses, getChatWithMembers in N. rewrite Hxc, G in N.
    unfold Routes.isDirectWith in N. simpl in N.
    fold (hasMember b (getChatMembers st (Chat.id chat))) in N.
    rewrite Ht, Hl, Hhb in N. discriminate N.
Qed.

End Resolver.

Lemma postChatsDirect_found (a b : Z) (w : World) (cw : ChatWithMembers.t) :
  find (Routes.isDirectWith b) (getUserChats (storage w) a) = Some cw ->
  Routes.postChatsDirect a b w = (Json (Some cw), w).
Proof.
  intros F. unfold Routes.postChatsDirect, bind at 1, this at 1.
  cbv beta iota. now rewrite F.
Qed.

Lemma postChatsDirect_not_found (a b : Z) (w : World) :
  find (Routes.isDirectWith b) (getUserChats (storage w) a) = None ->
  Routes.postChatsDirect a b w
  = (Json (getChatWithMembers (storage (directCreated a b w))
             (currentChatId (storage w))),
     directCreated a b w).
Proof.
  intros F. unfold Routes.postChatsDirect, bind at 1, this at 1.
  cbv beta iota. now rewrite F.
Qed.

Section Creation.

Variable w : World.
Hypothesis W : wf (storage w).
Variables a b : Z.
Hypothesis Hab : a <> b.
Variables ua ub : User.t.
Hypothesis Ha : getUser (storage w) a = Some ua.
Hypothesis Hb : getUser (storage w) b = Some ub.

Lemma directCreated_storage :
  let st := storage w in
  let n := currentChatId st in
  let k := currentChatMemberId st in
  storage (directCreated a b w)
  = {| users := users st;
       chats := chats st
                ++ [(n, Chat.mk n None "direct" a (clock w (dateReads w)))];
       chatMembers :=
         chatMembers st
         ++ [(k, ChatMember.mk k n a (clock w (S (dateReads w))));
             (k + 1,
              ChatMember.mk (k + 1) n b (clock w (S (S (dateReads w)))))];
       messages := messages st;
       currentUserId := currentUserId st;
       currentChatId := n + 1;
       currentChatMemberId := k + 1 + 1;
       currentMessageId := currentMessageId st |}.
Proof.
  intros st n k. unfold directCreated.
  rewrite addChatMember_appends by now apply wf_createChat.
  rewrite (createChat_storage (directChatOf a) w W).
  unfold setChatMembers. simpl. now rewrite <- app_assoc.
Qed.

Lemma directCreated_wf : wf (storage (directCreated a b w)).
Proof.
  unfold directCreated. apply wf_addChatMember.
  - now apply wf_createChat.
  - rewrite currentChatId_createChat. lia.
Qed.

Lemma directCreated_old_chat (chatId : Z) :
  chatId < currentChatId (storage w) ->
  getChatMembers (storage (directCreated a b w)) chatId
  = getChatMembers (storage w) chatId
  /\ getChatWithMembers (storage (directCreated a b w)) chatId
     = getChatWithMembers (storage w) chatId.
Proof.
  intros Hc.
  assert (U : users (storage (directCreated a b w)) = users (storage w))
    by now rewrite directCreated_storage.
  assert (G : messages (storage (directCreated a b w)) = messages (storage w))
    by now rewrite directCreated_storage.
  assert (Rw : rowsOfChat (storage (directCreated a b w)) chatId
               = rowsOfChat (storage w) chatId).
  { unfold rowsOfChat. rewrite directCreated_storage. simpl.
    unfold JsMap.values. rewrite map_app, filter_app. simpl.
    assert (E : (currentChatId (storage w) =? chatId) = false)
      by (apply Z.eqb_neq; lia).
    rewrite E. apply app_nil_r. }
  split.
  - now apply getChatMembers_frame.
  - apply getChatWithMembers_frame; auto.
    unfold getChat. rewrite directCreated_storage. simpl.
    apply JsMapFacts.get_app_other. lia.
Qed.

Lemma directCreated_members :
  let st := storage w in
  let n := currentChatId st in
  let k := currentChatMemberId st in
  getChatMembers (storage (directCreated a b w)) n
  = [ {| MemberWithUser.member :=
           ChatMember.mk k n a (clock w (S (dateReads w)));
         MemberWithUser.user := Some ua |};
      {| MemberWithUser.member :=
           ChatMember.mk (k + 1) n b (clock w (S (S (dateReads w))));
         MemberWithUser.user := Some ub |} ].
Proof.
  intros st n k. subst st n k. unfold getChatMembers.
  rewrite directCreated_storage. cbn [chatMembers users].
  unfold JsMap.values. rewrite map_app, filter_app.
  pose proof (no_row_of_unallocated_chat (storage w)
                (currentChatId (storage w)) W (Z.le_refl _)) as N.
  unfold rowsOfChat, JsMap.values in N. rewrite N.
  cbn [map snd filter ChatMember.chatId app].
  rewrite Z.eqb_refl. cbn [map ChatMember.userId].
  unfold getUser in Ha, Hb. rewrite Ha, Hb. reflexivity.
Qed.


Lemma directCreated_chat :
  exists cw,
    getChatWithMembers (storage (directCreated a b w))
      (currentChatId (storage w)) = Some cw
    /\ ChatWithMembers.chat cw
       = Chat.mk (currentChatId (storage w)) None "direct" a
           (clock w (dateReads w))
    /\ ChatWithMembers.members cw
       = getChatMembers (storage (directCreated a b w))
           (currentChatId (storage w))
    /\ Routes.isDirectWith b cw = true.
Proof.
  unfold getChatWithMembers at 1.
  assert (G : JsMap.get (currentChatId (storage w))
                (chats (storage (directCreated a b w)))
              = Some (Chat.mk (currentChatId (storage w)) None "direct" a
                        (clock w (dateReads w)))).
  { rewrite directCreated_storage. cbn [chats].
    destruct (table_append
                (v := Chat.mk (currentChatId (storage w)) None "direct" a
                        (clock w (dateReads w)))
                (wf_chats W) eq_refl) as [<- _].
    apply JsMapFacts.get_set_same. }
  rewrite G. eexists. split; [reflexivity|].
  cbn [ChatWithMembers.chat ChatWithMembers.members].
  split; [reflexivity|]. split; [reflexivity|].
  unfold Routes.isDirectWith.
  cbn [ChatWithMembers.chat ChatWithMembers.members Chat.type].
  rewrite directCreated_members. simpl.
  rewrite Z.eqb_refl. now rewrite orb_true_r.
Qed.

Lemma directCreated_userChats (u : Z) (cw : ChatWithMembers.t) :
  u = a \/ u = b ->
  getChatWithMembers (storage (directCreated a b w))
    (currentChatId (storage w)) = Some cw ->
  getUserChats (storage (directCreated a b w)) u
  = getUserChats (storage w) u ++ [cw].
Proof.
  intros Hu G.
  assert (Rows : chatMembers (storage (directCreated a b w))
                 = chatMembers (storage w)
                   ++ [(currentChatMemberId (storage w),
                        ChatMember.mk (currentChatMemberId (storage w))
                          (currentChatId (storage w)) a
                          (clock w (S (dateReads w))));
                       (currentChatMemberId (storage w) + 1,
                        ChatMember.mk (currentChatMemberId (storage w) + 1)
                          (currentChatId (storage w)) b
                          (clock w (S (S (dateReads w)))))])
    by now rewrite directCreated_storage.
  unfold getUserChats. rewrite Rows.
  unfold JsMap.values. rewrite map_app, filter_app, map_app.
  rewrite JsArrayFacts.defined_app. f_equal.
  - f_equal. apply map_ext_in. intros m Hm.
    apply filter_In in Hm. destruct Hm as [Hm _].
    apply directCreated_old_chat.
    pose proof (wf_memberChat W) as F. rewrite Forall_forall in F.
    now apply F.
  - cbn [map snd filter ChatMember.userId].
    assert (Eab : (a =? b) = false) by now apply Z.eqb_neq.
    assert (Eba : (b =? a) = false) by (apply Z.eqb_neq; congruence).
    destruct Hu as [-> | ->]; rewrite Z.eqb_refl, ?Eab, ?Eba;
      cbn [map ChatMember.chatId]; now rewrite G.
Qed.

Lemma directCreated_directChats :
  directChats (storage (directCreated a b w)) a b
  = directChats (storage w) a b
    ++ [Chat.mk (currentChatId (storage w)) None "direct" a
          (clock w (dateReads w))].
Proof.
  unfold directChats.
  assert (C : chats (storage (directCreated a b w))
              = chats (storage w)
                ++ [(currentChatId (storage w),
                     Chat.mk (currentChatId (storage w)) None "direct" a
                       (clock w (dateReads w)))])
    by now rewrite directCreated_storage.
  rewrite C. unfold JsMap.values. rewrite map_app, filter_app. f_equal.
  - apply filter_ext_in. intros chat Hin.
    apply in_map_iff in Hin. destruct Hin as ([k v] & E & Hin).
    simpl in E. subst v.
    destruct W as [_ [_ F] _ _ _]. rewrite Forall_forall in F.
    destruct (F _ Hin) as [Hk Hid]. simpl in Hk, Hid.
    unfold isDirectBetween.
    destruct (directCreated_old_chat (Chat.id chat)) as [-> _];
      [lia | reflexivity].
  - cbn [map snd filter]. unfold isDirectBetween. cbn [Chat.id Chat.type].
    rewrite directCreated_members. simpl.
    rewrite !Z.eqb_refl. now rewrite !orb_true_r.
Qed.

End Creation.

(** ** Properties of the store *)

(** C7. The unread count is the constant 0: for every store and every
    existing chat id, [getChatWithMembers] returns a projection whose
    [unreadCount] is 0, and [getUnreadMessageCount] is 0 for every chat
    and user. *)
Theorem unreadCount_always_zero (st : MemStorage) (id : Z) (chat : Chat.t) :
  getChat st id = Some chat ->
  (exists cw, getChatWithMembers st id = Some cw
              /\ ChatWithMembers.chat cw = chat
              /\ ChatWithMembers.unreadCount cw = Some 0)
  /\ (forall chatId userId, getUnreadMessageCount chatId userId = 0).
Proof.
  unfold getChat, getChatWithMembers. intros ->. split.
  - eexists. repeat split.
  - reflexivity.
Qed.

(** C6. [getChatMembers] returns, in row order, one entry for each
    membership row of the chat whose user id resolves, joined to that
    user, and leaves out the rows whose user id does not resolve; being a
    total function, it does so without raising. *)
Theorem getChatMembers_drops_dangling (st : MemStorage) (chatId : Z) :
  map MemberWithUser.member (getChatMembers st chatId)
  = filter (resolves st) (rowsOfChat st chatId)
  /\ Forall (fun entry =>
               exists user,
                 MemberWithUser.user entry = Some user
                 /\ getUser st (ChatMember.userId (MemberWithUser.member entry))
                    = Some user)
            (getChatMembers st chatId).
Proof.
  unfold getChatMembers, rowsOfChat, resolves, getUser.
  induction (filter (fun member => ChatMember.chatId member =? chatId)
                    (JsMap.values (chatMembers st))) as [|m rows [IH1 IH2]];
    simpl; [split; constructor|].
  destruct (JsMap.get (ChatMember.userId m) (users st)) as [u|] eqn:G; simpl.
  - split; [now rewrite IH1|]. constructor; auto.
    exists u. simpl. auto.
  - split; assumption.
Qed.

(** C8. [updateUserOnlineStatus] on a user id that is not in the user
    collection returns normally and changes nothing (not even the clock is
    read); on a present id it replaces that one user, in place, by a copy
    whose [isOnline] is the flag and whose [lastSeen] is the time of the
    call, and every other user, every chat, membership row and message and
    every counter stay as they were. *)
Theorem updateUserOnlineStatus_frame
  (w : World) (userId : Z) (isOnline : bool) :
  let w' := exec (updateUserOnlineStatus userId isOnline) w in
  (getUser (storage w) userId = None -> w' = w)
  /\ (forall user, getUser (storage w) userId = Some user ->
      (exists before after,
          users (storage w) = before ++ (userId, user) :: after
          /\ users (storage w')
             = before
               ++ (userId,
                   {| User.id := User.id user;
                      User.username := User.username user;
                      User.isOnline := isOnline;
                      User.lastSeen := clock w (dateReads w) |}) :: after
          /\ ~ In userId (JsMap.keys before))
      /\ (forall other, other <> userId ->
            getUser (storage w') other = getUser (storage w) other)
      /\ chats (storage w') = chats (storage w)
      /\ chatMembers (storage w') = chatMembers (storage w)
      /\ messages (storage w') = messages (storage w)
      /\ currentUserId (storage w') = currentUserId (storage w)
      /\ currentChatId (storage w') = currentChatId (storage w)
      /\ currentChatMemberId (storage w') = currentChatMemberId (storage w)
      /\ currentMessageId (storage w') = currentMessageId (storage w)).
Proof.
  unfold getUser, exec, updateUserOnlineStatus, bind, this. simpl.
  destruct (JsMap.get userId (users (storage w))) as [u|] eqn:G; simpl.
  - split; [discriminate|]. intros user [= <-].
    repeat split; auto.
    + apply (JsMapFacts.set_present _ G).
    + intros other Hne. now apply JsMapFacts.get_set_other.
  - split; [reflexivity|]. discriminate.
Qed.

(** C10. [createMessage] checks neither foreign key: for every chat id,
    sender id and content, whether or not a chat or user has that id, the
    call returns and stores a message under an id no message had, with
    those foreign keys and that content, appended to the collection; the
    handler of [POST /api/messages] replies with it. *)
Theorem createMessage_checks_no_reference
  (w : World) (message : InsertMessage.t) :
  reachable w ->
  let newMessage := eval (createMessage message) w in
  let w' := exec (createMessage message) w in
  Routes.postMessages message w = (Json newMessage, w')
  /\ getMessage (storage w) (Message.id newMessage) = None
  /\ Message.chatId newMessage = InsertMessage.chatId message
  /\ Message.senderId newMessage = InsertMessage.senderId message
  /\ Message.content newMessage = InsertMessage.content message
  /\ messages (storage w')
     = messages (storage w) ++ [(Message.id newMessage, newMessage)]
  /\ getMessage (storage w') (Message.id newMessage) = Some newMessage.
Proof.
  intros R. apply reachable_wf in R. destruct R as [_ _ _ Tg _].
  simpl. repeat split.
  - unfold getMessage. apply (table_get_fresh Tg). lia.
  - now apply (table_append (v := Message.mk _ _ _ _ _) Tg).
  - unfold getMessage. simpl. apply JsMapFacts.get_set_same.
Qed.

(** C3, as the code has it.  No [EmptyContent] check exists in the store
    or in the handler: a content that is empty or trims to empty is
    accepted like any other.  [createMessage] returns a message with that
    content, stores it under the current message id and advances the
    counter, and [POST /api/messages] replies with the message. *)
Theorem createMessage_accepts_blank_content
  (w : World) (message : InsertMessage.t) :
  trimsToEmpty (InsertMessage.content message) = true ->
  let newMessage := eval (createMessage message) w in
  let w' := exec (createMessage message) w in
  Routes.postMessages message w = (Json newMessage, w')
  /\ Message.id newMessage = currentMessageId (storage w)
  /\ Message.content newMessage = InsertMessage.content message
  /\ getMessage (storage w') (currentMessageId (storage w)) = Some newMessage
  /\ currentMessageId (storage w') = currentMessageId (storage w) + 1.
Proof.
  intros _. simpl. repeat split.
  unfold getMessage. simpl. apply JsMapFacts.get_set_same.
Qed.

(** C3 fails as stated: in a fresh store a message of three spaces is
    answered with the created message, the collection grows and message
    id 1 is consumed. *)
Lemma blank_content_is_not_rejected :
  let w := boot frozenClock in
  let message := say 1 1 "   " in
  let w' := exec (Routes.postMessages message) w in
  trimsToEmpty (InsertMessage.content message) = true
  /\ (exists newMessage,
        eval (Routes.postMessages message) w = Json newMessage
        /\ Message.id newMessage = 1)
  /\ ~ (messages (storage w') = messages (storage w)
        /\ currentMessageId (storage w') = currentMessageId (storage w)).
Proof.
  simpl. repeat split.
  - eexists. split; reflexivity.
  - intros [H _]. discriminate H.
Qed.

(** C4, as the code has it.  The duplicate check lives in the handler of
    [POST /api/users], not in [createUser]: when a user with exactly that
    username exists the handler replies 400 "Username already taken" and
    leaves the world unchanged; when none exists it replies with the user
    [createUser] made, who carries that username and is online, and a
    second registration of the same username is then rejected and changes
    nothing. *)
Theorem postUsers_rejects_duplicate (w : World) (userData : InsertUser.t) :
  let username := InsertUser.username userData in
  (forall existing,
      getUserByUsername (storage w) username = Some existing ->
      Routes.postUsers userData w = (Status 400 "Username already taken", w))
  /\ (getUserByUsername (storage w) username = None ->
      let user := eval (createUser userData) w in
      let w1 := exec (createUser userData) w in
      Routes.postUsers userData w = (Json user, w1)
      /\ User.username user = username
      /\ User.isOnline user = true
      /\ getUserByUsername (storage w1) username = Some user
      /\ Routes.postUsers userData w1
         = (Status 400 "Username already taken", w1)).
Proof.
  simpl. split.
  - intros existing E. unfold Routes.postUsers, bind, this. simpl.
    now rewrite E.
  - intros N.
    assert (F : getUserByUsername (storage (exec (createUser userData) w))
                  (InsertUser.username userData)
                = Some (eval (createUser userData) w)).
    { unfold getUserByUsername in *. simpl.
      apply JsMapFacts.find_set; auto. simpl. apply String.eqb_refl. }
    repeat split; auto.
    + unfold Routes.postUsers, bind, this. simpl. now rewrite N.
    + unfold Routes.postUsers, bind at 1, this at 1. cbv beta iota.
      now rewrite F.
Qed.

(** C4 fails as stated: [createUser] itself never fails.  With "alice"
    already in the store, a second [createUser] returns a user with id 2
    and the collection holds two users named "alice". *)
Lemma createUser_accepts_duplicate :
  let w1 := exec (createUser alice) (boot frozenClock) in
  let w2 := exec (createUser alice) w1 in
  (exists existing, getUserByUsername (storage w1) "alice" = Some existing)
  /\ User.id (eval (createUser alice) w1) = 2
  /\ map User.username (JsMap.values (users (storage w2)))
     = ["alice"; "alice"]%string
  /\ users (storage w2) <> users (storage w1).
Proof.
  simpl. repeat split.
  - eexists. reflexivity.
  - discriminate.
Qed.

(** C9. [getUserChats] answers with one entry per membership row of the
    user, not one per chat: the chat ids of its entries are the chat ids
    of the rows whose [userId] is the user, row by row.  Calling
    [addChatMember] twice with the same chat and user appends two rows
    with different ids, and the chat then appears two more times in
    [getUserChats] of that user. *)
Theorem getUserChats_one_entry_per_row (w : World) (userId : Z) :
  reachable w ->
  map chatIdOf (getUserChats (storage w) userId)
  = map ChatMember.chatId
      (filter (fun member => ChatMember.userId member =? userId)
              (JsMap.values (chatMembers (storage w))))
  /\ (forall chatId chat,
        getChat (storage w) chatId = Some chat ->
        let w2 := exec (addChatMember chatId userId ;;;
                        addChatMember chatId userId) w in
        (exists row1 row2,
            chatMembers (storage w2)
            = chatMembers (storage w)
              ++ [(ChatMember.id row1, row1); (ChatMember.id row2, row2)]
            /\ ChatMember.id row1 <> ChatMember.id row2
            /\ ChatMember.chatId row1 = chatId
            /\ ChatMember.userId row1 = userId
            /\ ChatMember.chatId row2 = chatId
            /\ ChatMember.userId row2 = userId)
        /\ map chatIdOf (getUserChats (storage w2) userId)
           = map chatIdOf (getUserChats (storage w) userId)
             ++ [chatId; chatId]).
Proof.
  intros R. pose proof (reachable_live w R) as L. apply reachable_wf in R.
  split; [rewrite <- (rowsOfUser_live _ userId L);
          now apply getUserChats_ids|].
  intros chatId chat G w2.
  assert (Hc : chatId < currentChatId (storage w)).
  { now destruct (table_get_id (wf_chats R) G). }
  set (w1 := exec (addChatMember chatId userId) w).
  assert (W1 : wf (storage w1)) by now apply wf_addChatMember.
  assert (E2 : w2 = exec (addChatMember chatId userId) w1).
  { unfold w2. now rewrite exec_bind. }
  assert (W2 : wf (storage w2)).
  { rewrite E2. now apply wf_addChatMember. }
  assert (S2 : chatMembers (storage w2)
               = chatMembers (storage w)
                 ++ [(currentChatMemberId (storage w),
                      ChatMember.mk (currentChatMemberId (storage w))
                        chatId userId (clock w (dateReads w)));
                     (currentChatMemberId (storage w) + 1,
                      ChatMember.mk (currentChatMemberId (storage w) + 1)
                        chatId userId (clock w (S (dateReads w))))]).
  { rewrite E2, (addChatMember_appends chatId userId w1 W1).
    unfold w1. rewrite (addChatMember_appends chatId userId w R).
    simpl. now rewrite <- app_assoc. }
  split.
  - exists (ChatMember.mk (currentChatMemberId (storage w))
              chatId userId (clock w (dateReads w))),
           (ChatMember.mk (currentChatMemberId (storage w) + 1)
              chatId userId (clock w (S (dateReads w)))).
    split; [exact S2|]. simpl. repeat split. lia.
  - rewrite !getUserChats_ids by assumption.
    unfold rowsOfUser. rewrite S2.
    assert (C : chats (storage w2) = chats (storage w)) by reflexivity.
    unfold getChat in *. rewrite C.
    unfold JsMap.values. rewrite map_app, filter_app, map_app. f_equal.
    simpl. rewrite Z.eqb_refl, G. reflexivity.
Qed.

(** What [MemStorage.getChatMessages] computes.  For a limit [k >= 0],
    [getChatMessages] of [MemStorage] arranges the messages of the chat by sent time, oldest
    first, with messages of equal sent time in reverse insertion order
    (later id first); it keeps the last [k] of that arrangement, so no
    message left out is newer than one kept, and then drops the kept
    messages whose sender does not resolve, joining the others to their
    sender.  When the sent times of the chat's messages strictly increase
    in insertion order, the arrangement is the insertion order itself and
    the answer is the [k] newest messages, oldest first. *)
Theorem getChatMessages_newest_window (w : World) (chatId limit : Z) :
  reachable w -> 0 <= limit ->
  let st := storage w in
  exists byTime,
    Permutation byTime (timeline st chatId)
    /\ StronglySorted returnedBefore byTime
    /\ map MessageWithSender.message (getChatMessages st chatId limit)
       = filter (senderResolves st) (lastN (Z.to_nat limit) byTime)
    /\ Forall (fun entry =>
                 exists user,
                   MessageWithSender.sender entry = Some user
                   /\ getUser st (Message.senderId
                                    (MessageWithSender.message entry))
                      = Some user)
              (getChatMessages st chatId limit)
    /\ (forall x y,
          In x (firstn (length byTime - Z.to_nat limit) byTime) ->
          In y (lastN (Z.to_nat limit) byTime) ->
          Message.sentAt x <= Message.sentAt y)
    /\ (StronglySorted
          (fun a b => Message.sentAt a < Message.sentAt b)
          (timeline st chatId) ->
        byTime = timeline st chatId).
Proof.
  intros R Hk st. apply reachable_wf in R.
  exists (rev (JsArray.sort newestFirst (timeline st chatId))).
  assert (Ids : StronglySorted (fun a b => Message.id a < Message.id b)
                               (timeline st chatId)).
  { apply JsSortFacts.StronglySorted_filter.
    exact (table_values_ascend (wf_messages R)). }
  assert (Sorted : StronglySorted returnedBefore
                     (rev (JsArray.sort newestFirst (timeline st chatId)))).
  { apply (JsSortFacts.StronglySorted_rev newestOnTop).
    now apply sort_newestFirst_sorted. }
  split; [|split; [|split; [|split; [|split]]]].
  - rewrite <- Permutation_rev. apply JsArrayFacts.sort_perm.
  - exact Sorted.
  - unfold getChatMessages. fold (timeline st chatId).
    rewrite JsArrayFacts.slice0_firstn by assumption.
    rewrite JsSortFacts.rev_firstn.
    apply sender_join.
  - unfold getChatMessages. apply sender_join.
  - intros x y Hx Hy. unfold lastN in Hy.
    rewrite <- (firstn_skipn
                  (length (rev (JsArray.sort newestFirst
                                  (timeline st chatId)))
                   - Z.to_nat limit)
                  (rev (JsArray.sort newestFirst (timeline st chatId))))
      in Sorted.
    pose proof (JsSortFacts.StronglySorted_app_inv _ _ _ x y Sorted Hx Hy)
      as B.
    unfold returnedBefore in B. lia.
  - intros Asc. rewrite (sort_newestFirst_ascending _ Asc).
    apply rev_involutive.
Qed.

(** Equal sent times: with the clock standing still, "hi" (id 1) and
    "hey" (id 2) carry the same sent time; [getChatMessages] with limit
    50 returns them in the order 2, 1, not in insertion order, and with
    limit 1 it returns message 1, not the message inserted last. *)
Lemma equal_timestamps_reverse_insertion_order :
  let st := storage (aliceAndBob frozenClock) in
  map Message.id (timeline st 1) = [1; 2]
  /\ map Message.sentAt (timeline st 1) = [0; 0]
  /\ messageIds (getChatMessages st 1 50) = [2; 1]
  /\ messageIds (getChatMessages st 1 50) <> [1; 2]
  /\ messageIds (getChatMessages st 1 1) = [1].
Proof.
  simpl. repeat split. discriminate.
Qed.

(** C1, as the code has it.  Let [a] and [b] be distinct ids of users
    that exist.  [POST /api/chats/direct] for [a] and [b] answers with a
    chat; a second request, with the ids in either order, answers with
    the same chat and changes nothing at all: no chat, membership row or
    other entity is created.  That chat is a direct chat between [a] and
    [b], and it is the only one whenever at most one such chat existed
    before the first request. *)
Theorem postChatsDirect_idempotent (w : World) (a b : Z) (ua ub : User.t) :
  reachable w -> a <> b ->
  getUser (storage w) a = Some ua -> getUser (storage w) b = Some ub ->
  let w1 := exec (Routes.postChatsDirect a b) w in
  exists cw,
    eval (Routes.postChatsDirect a b) w = Json (Some cw)
    /\ Routes.postChatsDirect a b w1 = (Json (Some cw), w1)
    /\ Routes.postChatsDirect b a w1 = (Json (Some cw), w1)
    /\ In (ChatWithMembers.chat cw) (directChats (storage w1) a b)
    /\ ((length (directChats (storage w) a b) <= 1)%nat ->
        directChats (storage w1) a b = [ChatWithMembers.chat cw]).
Proof.
  intros R Hab Ha Hb w1.
  assert (R1 : reachable w1) by exact (reachable_handle w (PostChatsDirect a b) R).
  pose proof (reachable_wf w R) as W. pose proof (reachable_wf w1 R1) as W1.
  pose proof (reachable_rowsByChat w1 R1) as S1.
  destruct (find (Routes.isDirectWith b) (getUserChats (storage w) a))
    as [cw|] eqn:F.
  - pose proof (postChatsDirect_found a b w cw F) as E.
    assert (E1 : w1 = w) by (unfold w1, exec; now rewrite E).
    exists cw. unfold eval. rewrite E, E1. cbn [fst].
    pose proof (found_is_direct (storage w) W a b ua Ha cw F) as D.
    repeat split; auto.
    + apply postChatsDirect_found.
      rewrite E1 in S1. exact (find_symmetric (storage w) S1 a b ua ub cw Ha Hb F).
    + intros L. now apply singleton_of_short.
  - pose proof (postChatsDirect_not_found a b w F) as E.
    assert (E1 : w1 = directCreated a b w) by (unfold w1, exec; now rewrite E).
    destruct (directCreated_chat w W a b ua ub Ha Hb) as (cw & G & Hc & Hm & Pb).
    assert (U : users (storage w1) = users (storage w)).
    { rewrite E1, (directCreated_storage w W a b). reflexivity. }
    assert (Ha1 : getUser (storage w1) a = Some ua)
      by (unfold getUser in *; now rewrite U).
    assert (Hb1 : getUser (storage w1) b = Some ub)
      by (unfold getUser in *; now rewrite U).
    assert (F1 : find (Routes.isDirectWith b) (getUserChats (storage w1) a)
                 = Some cw).
    { rewrite E1, (directCreated_userChats w W a b Hab a cw (or_introl eq_refl) G).
      rewrite (find_app_last _ _ _ F). now rewrite Pb. }
    assert (D1 : directChats (storage w1) a b = [ChatWithMembers.chat cw]).
    { rewrite E1, (directCreated_directChats w W a b ua ub Ha Hb).
      rewrite (not_found_no_direct (storage w) W a b F). now rewrite Hc. }
    exists cw. unfold eval. rewrite E. cbn [fst]. rewrite G.
    repeat split; auto.
    + now apply postChatsDirect_found.
    + apply postChatsDirect_found.
      exact (find_symmetric (storage w1) S1 a b ua ub cw Ha1 Hb1 F1).
    + rewrite D1. now left.
Qed.

(** C1 fails as stated: ids 1 and 2 are distinct, but no user has them in
    a fresh store, so the members of the chat the first request creates
    do not resolve, the second request does not recognise it and creates
    chat 2. *)
Lemma unknown_users_get_a_second_chat :
  let w := boot tickingClock in
  let w1 := exec (Routes.postChatsDirect 1 2) w in
  let w2 := exec (Routes.postChatsDirect 1 2) w1 in
  replyChatId (eval (Routes.postChatsDirect 1 2) w) = Some 1
  /\ replyChatId (eval (Routes.postChatsDirect 1 2) w1) = Some 2
  /\ map Chat.id (JsMap.values (chats (storage w2))) = [1; 2]
  /\ map Chat.type (JsMap.values (chats (storage w2)))
     = ["direct"; "direct"]%string
  /\ storage w2 <> storage w1.
Proof.
  cbv zeta. conj; try (vm_compute; reflexivity).
  vm_compute. discriminate.
Qed.

(** Existing users do not suffice for uniqueness either: when two direct
    chats between alice and bob were opened through [POST /api/chats],
    both requests answer with chat 1 and the two chats remain. *)
Lemma two_direct_chats_remain_two :
  let w := twoDirectChats tickingClock in
  let w1 := exec (Routes.postChatsDirect 1 2) w in
  replyChatId (eval (Routes.postChatsDirect 1 2) w) = Some 1
  /\ replyChatId (eval (Routes.postChatsDirect 2 1) w1) = Some 1
  /\ storage w1 = storage w
  /\ map Chat.id (directChats (storage w1) 1 2) = [1; 2].
Proof. cbv zeta. conj; vm_compute; reflexivity. Qed.

(** ** The SQL store next to the in-memory store *)

Lemma filter_id_above {V : Type} (idOf : V -> Z) (k : Z) (m : JsMap.t V) :
  Forall (fun kv => k < fst kv /\ idOf (snd kv) = fst kv) m ->
  filter (fun v => k =? idOf v) (JsMap.values m) = [].
Proof.
  induction 1 as [|[k2 v2] m [Hlt Hid] F IH]; simpl; auto.
  simpl in Hlt, Hid. rewrite Hid.
  destruct (k =? k2) eqn:E; [apply Z.eqb_eq in E; lia | exact IH].
Qed.

Lemma table_filter_id {V : Type} (idOf : V -> Z) (n k : Z) (m : JsMap.t V) :
  table idOf n m ->
  filter (fun v => k =? idOf v) (JsMap.values m)
  = match JsMap.get k m with Some v => [v] | None => [] end.
Proof.
  intros [S F]. induction m as [|[k' v'] m IH]; simpl; auto.
  simpl in S. inversion S as [|? ? S' B]; subst.
  inversion F as [|? ? [_ Hid] F']; subst. simpl in Hid. rewrite Hid.
  destruct (k =? k') eqn:E; [|now apply IH].
  apply Z.eqb_eq in E. f_equal. apply filter_id_above.
  unfold JsMap.keys in B. rewrite Forall_map in B.
  rewrite Forall_forall in *. intros kv Hin.
  specialize (B kv Hin). destruct (F' kv Hin) as [_ Hid']. split; auto; lia.
Qed.

Lemma memberRows_agree (w : World) (chatId : Z) :
  reachable w ->
  map (fun row => {| MemberWithUser.member := fst row;
                     MemberWithUser.user := Some (snd row) |})
      (DatabaseStorage.memberRows (tablesOf (storage w)) chatId)
  = getChatMembers (storage w) chatId.
Proof.
  intros R. apply reachable_wf in R. pose proof (wf_users R) as Tu.
  unfold DatabaseStorage.memberRows, DatabaseStorage.innerJoin,
    getChatMembers, tablesOf.
  cbn [DatabaseStorage.users DatabaseStorage.chatMembers].
  induction (JsMap.values (chatMembers (storage w))) as [|m rows IH];
    simpl; auto.
  rewrite filter_app, map_app, IH.
  rewrite (table_filter_id User.id _ (ChatMember.userId m) _ Tu).
  destruct (ChatMember.chatId m =? chatId) eqn:E;
    destruct (JsMap.get (ChatMember.userId m) (users (storage w))) eqn:G;
    simpl; rewrite ?E, ?G; simpl; rewrite ?E; reflexivity.
Qed.

(** On the tables of a reachable in-memory store every answer of the SQL
    join holds the members [MemStorage.getChatMembers] returns, in some
    order: the inner join drops the rows without a user, as the filter
    does. *)
Lemma DatabaseStorage_getChatMembers_agrees (w : World) (chatId : Z)
  (answer : list (ChatMember.t * User.t)) :
  reachable w ->
  DatabaseStorage.getChatMembers (tablesOf (storage w)) chatId answer ->
  Permutation
    (map (fun row => {| MemberWithUser.member := fst row;
                        MemberWithUser.user := Some (snd row) |})
         answer)
    (getChatMembers (storage w) chatId).
Proof.
  intros R A. unfold DatabaseStorage.getChatMembers in A.
  rewrite <- (memberRows_agree w chatId R).
  apply Permutation_map. now symmetry.
Qed.

Lemma StronglySorted_weaken {A : Type} (R R' : A -> A -> Prop)
  (l : list A) :
  StronglySorted R l -> (forall a b, R a b -> R' a b) ->
  StronglySorted R' l.
Proof.
  intros S H. induction S as [|a l S IH F]; constructor; auto.
  eapply Forall_impl; [|exact F]. apply H.
Qed.

(** A list in strictly ascending key order has one arrangement by
    ascending key only. *)
Lemma sorted_arrangement_unique {A : Type} (key : A -> Z)
  (l arranged : list A) :
  StronglySorted (fun a b => key a < key b) l ->
  Permutation l arranged ->
  StronglySorted (fun a b => key a <= key b) arranged ->
  arranged = l.
Proof.
  intros S. revert arranged.
  induction S as [|a l S IH F]; intros arranged Hp Hs.
  - apply Permutation_nil in Hp. now subst.
  - destruct arranged as [|x rest].
    { symmetry in Hp. apply Permutation_nil in Hp. discriminate Hp. }
    assert (Hx : In x (a :: l)).
    { apply (Permutation_in x (Permutation_sym Hp)). now left. }
    assert (Ha : In a (x :: rest)).
    { apply (Permutation_in a Hp). now left. }
    inversion Hs as [|? ? Srest Frest]; subst.
    rewrite Forall_forall in F, Frest.
    assert (E : x = a).
    { destruct Hx as [E|Hx]; [now symmetry|].
      destruct Ha as [E|Ha]; [exact E|].
      specialize (F x Hx). specialize (Frest a Ha). lia. }
    subst x. f_equal. apply IH; auto.
    exact (Permutation_cons_inv Hp).
Qed.

Lemma joinedRows_spec (st : MemStorage) (l : list Message.t) :
  map fst (joinedRows st l) = filter (senderResolves st) l
  /\ (forall row, In row (joinedRows st l) ->
        In (fst row) l
        /\ getUser st (Message.senderId (fst row)) = Some (snd row)).
Proof.
  unfold joinedRows, senderResolves.
  induction l as [|m l [IH1 IH2]]; simpl; [split; [reflexivity | tauto]|].
  destruct (getUser st (Message.senderId m)) as [u|] eqn:G; simpl.
  - split; [now rewrite IH1|].
    intros row [<-|Hin]; simpl; auto.
    destruct (IH2 row Hin). auto.
  - split; auto. intros row Hin. destruct (IH2 row Hin). auto.
Qed.

Lemma joinedRows_ascend (st : MemStorage) (l : list Message.t) :
  StronglySorted (fun a b => Message.sentAt a < Message.sentAt b) l ->
  StronglySorted
    (fun a b => Message.sentAt (fst a) < Message.sentAt (fst b))
    (joinedRows st l).
Proof.
  induction 1 as [|m l S IH F]; simpl; [constructor|].
  unfold joinedRows in *. simpl.
  destruct (getUser st (Message.senderId m)) as [u|]; simpl; auto.
  constructor; auto. rewrite Forall_forall in *. intros row Hin.
  destruct (joinedRows_spec st l) as [_ I].
  destruct (I row Hin) as [Hl _]. exact (F _ Hl).
Qed.

Lemma messageRows_joined (st : MemStorage) (chatId : Z) :
  wf st ->
  DatabaseStorage.messageRows (tablesOf st) chatId
  = joinedRows st (timeline st chatId).
Proof.
  intros W.
  unfold DatabaseStorage.messageRows, DatabaseStorage.innerJoin, tablesOf,
    timeline, joinedRows.
  cbn [DatabaseStorage.messages DatabaseStorage.users].
  induction (JsMap.values (messages st)) as [|m l IH]; simpl; auto.
  rewrite filter_app, IH.
  rewrite (table_filter_id User.id _ (Message.senderId m) _ (wf_users W)).
  unfold getUser.
  destruct (Message.chatId m =? chatId) eqn:E;
    destruct (JsMap.get (Message.senderId m) (users st)) eqn:G;
    simpl; rewrite ?E, ?G; reflexivity.
Qed.

(** When the sent times of a chat strictly increase in insertion order,
    the query has one answer: the first [limit] of the chat's messages
    that have a sender, each with that sender. *)
Lemma DatabaseStorage_answer (st : MemStorage) (chatId : Z) (limit : nat)
  (answer : list (Message.t * User.t)) :
  wf st ->
  StronglySorted (fun a b => Message.sentAt a < Message.sentAt b)
                 (timeline st chatId) ->
  (DatabaseStorage.getChatMessages (tablesOf st) chatId limit answer
   <-> answer = firstn limit (joinedRows st (timeline st chatId))).
Proof.
  intros W Asc. unfold DatabaseStorage.getChatMessages.
  rewrite (messageRows_joined st chatId W).
  pose proof (joinedRows_ascend st _ Asc) as S. split.
  - intros (arranged & Hp & Hs & ->). f_equal.
    exact (sorted_arrangement_unique
             (fun row => Message.sentAt (fst row)) _ _ S Hp Hs).
  - intros ->. exists (joinedRows st (timeline st chatId)).
    split; [apply Permutation_refl|]. split; [|reflexivity].
    apply (StronglySorted_weaken _ _ _ S).
    unfold DatabaseStorage.bySentAt. intros a b. lia.
Qed.

Lemma threeMessages_reachable : reachable threeMessages.
Proof. apply reachable_serve, reachable_boot. Qed.

(** C2.  The code does not return the newest messages the claim asks
    for.  Chat 1 of [threeMessages] holds the messages 1, 2 and 3, sent
    a second apart by existing users.  For limit 2 the query of
    [DatabaseStorage.getChatMessages] has an answer, and every answer is
    the messages 1 and 2: the two oldest, where the claim says the two
    newest, 2 and 3, which [MemStorage.getChatMessages] returns.  And
    when messages 1 and 2 of a chat carry the same sent time,
    [MemStorage.getChatMessages] returns them in the order 2, 1, not in
    insertion order, and with limit 1 it returns message 1, not the
    message inserted last. *)
Theorem getChatMessages_misses_the_newest :
  let st := storage threeMessages in
  let tied := storage (aliceAndBob frozenClock) in
  map (fun m => (Message.id m, Message.sentAt m)) (timeline st 1)
  = [(1, 5000); (2, 6000); (3, 7000)]
  /\ (exists answer,
        DatabaseStorage.getChatMessages (tablesOf st) 1 2 answer)
  /\ (forall answer,
        DatabaseStorage.getChatMessages (tablesOf st) 1 2 answer ->
        map (fun row => Message.id (fst row)) answer = [1; 2])
  /\ messageIds (getChatMessages st 1 2) = [2; 3]
  /\ map (fun m => (Message.id m, Message.sentAt m)) (timeline tied 1)
     = [(1, 0); (2, 0)]
  /\ messageIds (getChatMessages tied 1 50) = [2; 1]
  /\ messageIds (getChatMessages tied 1 1) = [1].
Proof.
  cbv zeta.
  assert (Asc : StronglySorted
                  (fun a b => Message.sentAt a < Message.sentAt b)
                  (timeline (storage threeMessages) 1)).
  { vm_compute. repeat constructor. }
  pose proof (reachable_wf _ threeMessages_reachable) as W.
  split; [vm_compute; reflexivity|]. split; [|split].
  - eexists. now apply (DatabaseStorage_answer _ 1 2 _ W Asc).
  - intros answer A. apply (DatabaseStorage_answer _ 1 2 _ W Asc) in A.
    rewrite A. vm_compute. reflexivity.
  - conj; vm_compute; reflexivity.
Qed.

(** The scenario of the specification: "hi" from alice, then "hey" from
    bob a second later, come back in that order. *)
Lemma scenario_hi_hey :
  let st := storage (aliceAndBob tickingClock) in
  map (fun m => (Message.content (MessageWithSender.message m),
                 Message.senderId (MessageWithSender.message m)))
      (getChatMessages st 1 50)
  = [("hi"%string, 1); ("hey"%string, 2)]
  /\ messageIds (getChatMessages st 1 1) = [2].
Proof. cbv zeta. conj; vm_compute; reflexivity. Qed.

(** The scenario of the specification: the group chat "Team" of user 1
    with member ids 2 and 3 has type "group" and the three members. *)
Lemma scenario_team :
  let st := storage (teamOfThree tickingClock) in
  option_map
    (fun cw => (Chat.type (ChatWithMembers.chat cw),
                map (fun e => ChatMember.userId (MemberWithUser.member e))
                    (ChatWithMembers.members cw)))
    (getChatWithMembers st 1)
  = Some ("group"%string, [1; 2; 3]).
Proof. vm_compute. reflexivity. Qed.

(** The scenario of the specification: a user set offline is no longer
    among the online users. *)
Lemma scenario_offline :
  let w := teamOfThree tickingClock in
  map User.id (getOnlineUsers (storage w)) = [1; 2; 3]
  /\ map User.id
       (getOnlineUsers (storage (exec (Routes.putUsersStatus 2 false) w)))
     = [1; 3].
Proof. cbv zeta. conj; vm_compute; reflexivity. Qed.

(** A direct chat between two distinct users has exactly those two as
    members. *)
Lemma isDirectBetween_members (st : MemStorage) (a b : Z) (chat : Chat.t) :
  a <> b -> isDirectBetween st a b chat = true ->
  let ids := map (fun e => ChatMember.userId (MemberWithUser.member e))
                 (getChatMembers st (Chat.id chat)) in
  ids = [a; b] \/ ids = [b; a].
Proof.
  intros Hab H. unfold isDirectBetween in H.
  apply andb_prop in H. destruct H as [H Hb].
  apply andb_prop in H. destruct H as [H Ha].
  apply andb_prop in H. destruct H as [_ Hl].
  apply Z.eqb_eq in Hl. unfold hasMember in Ha, Hb.
  destruct (getChatMembers st (Chat.id chat)) as [|x [|y [|z l]]];
    simpl in Hl; try lia.
  simpl in *. rewrite !orb_false_r in Ha, Hb.
  apply orb_prop in Ha. apply orb_prop in Hb.
  destruct Ha as [Ha|Ha]; destruct Hb as [Hb|Hb];
    apply Z.eqb_eq in Ha; apply Z.eqb_eq in Hb; subst; auto; congruence.
Qed.

(** ** The theorems at concrete worlds *)

Lemma aliceAndBob_reachable (clk : nat -> Z) : reachable (aliceAndBob clk).
Proof. apply reachable_serve, reachable_boot. Qed.

Lemma aliceAndBobRegistered_reachable (clk : nat -> Z) :
  reachable (aliceAndBobRegistered clk).
Proof. apply reachable_serve, reachable_boot. Qed.

Lemma unreadCount_always_zero_witness :
  let st := storage (aliceAndBob tickingClock) in
  exists chat,
    getChat st 1 = Some chat
    /\ (exists cw, getChatWithMembers st 1 = Some cw
                   /\ ChatWithMembers.chat cw = chat
                   /\ ChatWithMembers.unreadCount cw = Some 0)
    /\ (forall chatId userId, getUnreadMessageCount chatId userId = 0).
Proof.
  eexists. split; [reflexivity|].
  apply (unreadCount_always_zero (storage (aliceAndBob tickingClock)) 1).
  reflexivity.
Defined.

Lemma updateUserOnlineStatus_frame_witness :
  let w := aliceAndBob tickingClock in
  getUser (storage w) 7 = None
  /\ exec (updateUserOnlineStatus 7 false) w = w
  /\ map User.isOnline
       (getOnlineUsers (storage (exec (updateUserOnlineStatus 2 false) w)))
     = [true]
  /\ chats (storage (exec (updateUserOnlineStatus 2 false) w))
     = chats (storage w).
Proof.
  split; [reflexivity|]. split; [|split; [reflexivity|]].
  - apply (proj1 (updateUserOnlineStatus_frame
                    (aliceAndBob tickingClock) 7 false)).
    reflexivity.
  - destruct (proj2 (updateUserOnlineStatus_frame
                       (aliceAndBob tickingClock) 2 false)
                    _ eq_refl) as (_ & _ & H & _).
    exact H.
Defined.

Lemma createMessage_checks_no_reference_witness :
  let w := boot tickingClock in
  let message := say 42 99 "hello" in
  getChat (storage w) 42 = None
  /\ getUser (storage w) 99 = None
  /\ getMessage (storage (exec (createMessage message) w)) 1
     = Some (eval (createMessage message) w).
Proof.
  split; [reflexivity|]. split; [reflexivity|].
  destruct (createMessage_checks_no_reference
              (boot tickingClock) (say 42 99 "hello")
              (reachable_boot tickingClock))
    as (_ & _ & _ & _ & _ & _ & H).
  exact H.
Defined.

Lemma createMessage_accepts_blank_content_witness :
  let w := aliceAndBob tickingClock in
  let message := say 1 1 "   " in
  trimsToEmpty (InsertMessage.content message) = true
  /\ getMessage (storage (exec (createMessage message) w)) 3
     = Some (eval (createMessage message) w).
Proof.
  split; [reflexivity|].
  destruct (createMessage_accepts_blank_content
              (aliceAndBob tickingClock) (say 1 1 "   ") eq_refl)
    as (_ & _ & _ & H & _).
  exact H.
Defined.

Lemma postUsers_rejects_duplicate_witness :
  let w0 := boot tickingClock in
  let w := aliceAndBob tickingClock in
  Routes.postUsers bob w = (Status 400 "Username already taken", w)
  /\ Routes.postUsers alice (exec (createUser alice) w0)
     = (Status 400 "Username already taken", exec (createUser alice) w0).
Proof.
  split.
  - exact (proj1 (postUsers_rejects_duplicate (aliceAndBob tickingClock) bob)
                 _ eq_refl).
  - destruct (proj2 (postUsers_rejects_duplicate (boot tickingClock) alice)
                    eq_refl) as (_ & _ & _ & _ & H).
    exact H.
Defined.

Lemma getUserChats_one_entry_per_row_witness :
  let w := aliceAndBob tickingClock in
  let w2 := exec (addChatMember 1 2 ;;; addChatMember 1 2) w in
  map chatIdOf (getUserChats (storage w) 2) = [1]
  /\ map chatIdOf (getUserChats (storage w2) 2)
     = map chatIdOf (getUserChats (storage w) 2) ++ [1; 1].
Proof.
  split; [reflexivity|].
  destruct (getUserChats_one_entry_per_row
              (aliceAndBob tickingClock) 2
              (aliceAndBob_reachable tickingClock)) as [_ H].
  destruct (H 1 _ eq_refl) as [_ H2]. exact H2.
Defined.

Lemma createChat_members_after_creation_witness :
  let w := aliceAndBobRegistered tickingClock in
  let w' := exec (createChat (teamChat 1)) w in
  chatMembers (storage w')
  = chatMembers (storage w)
    ++ [(1, ChatMember.mk 1 1 1 3000)]
  /\ option_map
       (fun cw => map (fun e => ChatMember.userId (MemberWithUser.member e))
                      (ChatWithMembers.members cw))
       (getChatWithMembers (storage w') 1)
     = Some [1].
Proof.
  split; [|reflexivity].
  destruct (createChat_members_after_creation
              (aliceAndBobRegistered tickingClock) (teamChat 1)
              (aliceAndBobRegistered_reachable tickingClock)) as [H _].
  exact H.
Defined.

Lemma getChatMessages_newest_window_witness :
  let st := storage (aliceAndBob tickingClock) in
  messageIds (getChatMessages st 1 1) = [2]
  /\ exists byTime,
      Permutation byTime (timeline st 1)
      /\ StronglySorted returnedBefore byTime
      /\ map MessageWithSender.message (getChatMessages st 1 1)
         = filter (senderResolves st) (lastN 1 byTime).
Proof.
  split; [reflexivity|].
  destruct (getChatMessages_newest_window
              (aliceAndBob tickingClock) 1 1
              (aliceAndBob_reachable tickingClock) (Z.le_0_1))
    as (byTime & P & S & E & _).
  exists byTime. auto.
Defined.

Lemma postChatsDirect_idempotent_witness :
  let w := aliceAndBobRegistered tickingClock in
  let w1 := exec (Routes.postChatsDirect 1 2) w in
  exists cw,
    eval (Routes.postChatsDirect 1 2) w = Json (Some cw)
    /\ Routes.postChatsDirect 1 2 w1 = (Json (Some cw), w1)
    /\ Routes.postChatsDirect 2 1 w1 = (Json (Some cw), w1)
    /\ directChats (storage w1) 1 2 = [ChatWithMembers.chat cw].
Proof.
  destruct (postChatsDirect_idempotent
              (aliceAndBobRegistered tickingClock) 1 2
              (User.mk 1 "alice" true 0) (User.mk 2 "bob" true 1000)
              (aliceAndBobRegistered_reachable tickingClock)
              ltac:(discriminate) eq_refl eq_refl)
    as (cw & H1 & H2 & H3 & _ & H5).
  exists cw. split; [exact H1|]. split; [exact H2|]. split; [exact H3|].
  apply H5. simpl. lia.
Defined.

(** ** Ids are consecutive *)

Lemma idsFrom1_empty {V : Type} : idsFrom1 1 (@JsMap.empty V).
Proof. split; reflexivity. Qed.

Lemma idsFrom1_append {V : Type} (n : Z) (v : V) (m : JsMap.t V) :
  idsFrom1 n m -> idsFrom1 (n + 1) (m ++ [(n, v)]).
Proof.
  intros [K N]. unfold idsFrom1, JsMap.keys in *.
  rewrite length_app, map_app, K. simpl length.
  rewrite Nat.add_1_r, seq_S, map_app. simpl. split.
  - do 2 f_equal. lia.
  - lia.
Qed.

Lemma length_set_present {V : Type} (k : Z) (v v0 : V) (m : JsMap.t V) :
  JsMap.get k m = Some v0 -> length (JsMap.set k v m) = length m.
Proof.
  intros G. destruct (JsMapFacts.set_present v G) as (b & a & E1 & E2 & _).
  rewrite E2. rewrite E1 at 1. rewrite !length_app. reflexivity.
Qed.

Lemma idsFrom1_replace {V : Type} (n k : Z) (v v0 : V) (m : JsMap.t V) :
  idsFrom1 n m -> JsMap.get k m = Some v0 -> idsFrom1 n (JsMap.set k v m).
Proof.
  intros [K N] G. unfold idsFrom1.
  now rewrite (JsMapFacts.keys_set_present (v := v) G),
    (length_set_present k v v0 m G).
Qed.

Lemma get_defined_iff {V : Type} (k : Z) (m : JsMap.t V) :
  JsArray.isDefined (JsMap.get k m) = true <-> In k (JsMap.keys m).
Proof.
  induction m as [|[k' v'] m IH]; simpl.
  - split; [discriminate | tauto].
  - destruct (k =? k') eqn:E; simpl.
    + apply Z.eqb_eq in E. split; auto.
    + apply Z.eqb_neq in E. rewrite IH. split; auto.
      intros [H|H]; [congruence | exact H].
Qed.

Lemma idsFrom1_defined {V : Type} (n k : Z) (m : JsMap.t V) :
  idsFrom1 n m ->
  (JsArray.isDefined (JsMap.get k m) = true <-> 1 <= k < n).
Proof.
  intros [K N]. rewrite get_defined_iff, K, in_map_iff. split.
  - intros (i & <- & Hi). apply in_seq in Hi. lia.
  - intros Hk. exists (Z.to_nat k). split; [lia|]. apply in_seq. lia.
Qed.

Section DensePreservation.

Variable w : World.
Hypothesis W : wf (storage w).
Hypothesis D : dense (storage w).

Lemma dense_createUser (insertUser : InsertUser.t) :
  dense (storage (exec (createUser insertUser) w)).
Proof.
  destruct D as [Du Dc Dm Dg]. split; simpl; auto.
  destruct (table_append (v := User.mk (currentUserId (storage w))
                                  (InsertUser.username insertUser) true
                                  (clock w (dateReads w)))
              (wf_users W) eq_refl) as [-> _].
  now apply idsFrom1_append.
Qed.

Lemma dense_updateUserOnlineStatus (userId : Z) (isOnline : bool) :
  dense (storage (exec (updateUserOnlineStatus userId isOnline) w)).
Proof.
  unfold exec, updateUserOnlineStatus, bind, this. simpl.
  destruct (JsMap.get userId (users (storage w))) as [user|] eqn:G; simpl; auto.
  destruct D as [Du Dc Dm Dg]. split; simpl; auto.
  eapply idsFrom1_replace; eauto.
Qed.

Lemma dense_addChatMember (chatId userId : Z) :
  dense (storage (exec (addChatMember chatId userId) w)).
Proof.
  rewrite addChatMember_appends by assumption.
  destruct D as [Du Dc Dm Dg]. split; simpl; auto.
  now apply idsFrom1_append.
Qed.

Lemma dense_createMessage (message : InsertMessage.t) :
  dense (storage (exec (createMessage message) w)).
Proof.
  destruct D as [Du Dc Dm Dg]. split; simpl; auto.
  destruct (table_append (v := Message.mk (currentMessageId (storage w))
                                  (InsertMessage.chatId message)
                                  (InsertMessage.senderId message)
                                  (InsertMessage.content message)
                                  (clock w (dateReads w)))
              (wf_messages W) eq_refl) as [-> _].
  now apply idsFrom1_append.
Qed.

Lemma dense_createChat (chat : InsertChat.t) :
  dense (storage (exec (createChat chat) w)).
Proof.
  rewrite (createChat_storage chat w W).
  destruct D as [Du Dc Dm Dg]. split; simpl; auto;
    now apply idsFrom1_append.
Qed.

End DensePreservation.

Lemma dense_addMembers (chatId createdBy : Z) (memberIds : list Z)
  (w : World) :
  wf (storage w) -> dense (storage w) ->
  chatId < currentChatId (storage w) ->
  dense (storage (exec (Routes.addMembers chatId createdBy memberIds) w)).
Proof.
  revert w. induction memberIds as [|memberId rest IH]; intros w W D Hc.
  - exact D.
  - simpl. rewrite exec_bind. destruct (negb (memberId =? createdBy)).
    + apply IH; auto.
      * now apply wf_addChatMember.
      * now apply dense_addChatMember.
    + now apply IH.
Qed.

Lemma dense_handle (r : Request) (w : World) :
  wf (storage w) -> dense (storage w) -> dense (storage (handle r w)).
Proof.
  intros W D. destruct r as [userData|userId isOnline|chatData memberIds
                            |messageData|userId1 userId2]; simpl.
  - unfold exec, Routes.postUsers, bind, this. simpl.
    destruct (getUserByUsername (storage w) (InsertUser.username userData));
      [exact D|].
    apply (dense_createUser w W D userData).
  - unfold Routes.putUsersStatus. rewrite exec_bind.
    apply (dense_updateUserOnlineStatus w D userId isOnline).
  - destruct (createChat_steps chatData w) as [_ Hid].
    unfold Routes.postChats. run. rewrite Hid.
    pose proof (dense_createChat w W D chatData) as D1.
    destruct memberIds as [ids|]; [|exact D1].
    apply dense_addMembers; auto.
    + now apply wf_createChat.
    + rewrite currentChatId_createChat. lia.
  - apply (dense_createMessage w W D messageData).
  - unfold Routes.postChatsDirect. run.
    destruct (find (Routes.isDirectWith userId2)
                   (getUserChats (storage w) userId1)); [exact D|].
    run. apply dense_addChatMember.
    + now apply wf_createChat.
    + now apply dense_createChat.
Qed.

Lemma reachable_dense (w : World) : reachable w -> dense (storage w).
Proof.
  induction 1 as [clk|w r R IH].
  - split; apply idsFrom1_empty.
  - apply dense_handle; auto. now apply reachable_wf.
Qed.

Lemma lookup_dense {V : Type} (idOf : V -> Z) (n id : Z) (m : JsMap.t V) :
  table idOf n m -> idsFrom1 n m ->
  ((exists v, JsMap.get id m = Some v) <-> 1 <= id < n)
  /\ (forall v, JsMap.get id m = Some v -> idOf v = id).
Proof.
  intros T D. split.
  - rewrite <- (idsFrom1_defined n id m D).
    destruct (JsMap.get id m); simpl; split; eauto; try discriminate.
    intros [v [=]].
  - intros v G. now destruct (table_get_id T G).
Qed.

(** X1. Ids are handed out consecutively from 1 and nothing is ever
    removed: in every reachable world [getUser], [getChat] and
    [getMessage] find an entity exactly for the ids from 1 up to the
    collection's counter (excluded), and the entity found carries the id
    it was looked up by. *)
Theorem lookup_by_id_is_dense (w : World) (id : Z) :
  reachable w ->
  let st := storage w in
  (((exists user, getUser st id = Some user) <-> 1 <= id < currentUserId st)
   /\ (forall user, getUser st id = Some user -> User.id user = id))
  /\ (((exists chat, getChat st id = Some chat)
       <-> 1 <= id < currentChatId st)
      /\ (forall chat, getChat st id = Some chat -> Chat.id chat = id))
  /\ (((exists message, getMessage st id = Some message)
       <-> 1 <= id < currentMessageId st)
      /\ (forall message,
             getMessage st id = Some message -> Message.id message = id)).
Proof.
  intros R st. pose proof (reachable_wf w R) as W.
  pose proof (reachable_dense w R) as D.
  unfold getUser, getChat, getMessage.
  split; [|split].
  - apply (lookup_dense User.id _ id _ (wf_users W) (dense_users D)).
  - apply (lookup_dense Chat.id _ id _ (wf_chats W) (dense_chats D)).
  - apply (lookup_dense Message.id _ id _ (wf_messages W) (dense_messages D)).
Qed.

(** X2. [GET /api/chats/:chatId] never changes the world; in a reachable
    world it replies 404 "Chat not found" exactly for the ids outside
    1 .. [currentChatId - 1], and for an id inside it replies with the
    projection of the chat that has this id. *)
Theorem getChatsById_not_found (w : World) (chatId : Z) :
  reachable w ->
  (1 <= chatId < currentChatId (storage w) ->
   exists chat,
     Routes.getChatsById chatId w = (Json chat, w)
     /\ chatIdOf chat = chatId
     /\ getChat (storage w) chatId = Some (ChatWithMembers.chat chat))
  /\ (~ 1 <= chatId < currentChatId (storage w) ->
      Routes.getChatsById chatId w = (Status 404 "Chat not found", w)).
Proof.
  intros R. pose proof (reachable_wf w R) as W.
  pose proof (reachable_dense w R) as D.
  destruct (lookup_dense Chat.id _ chatId _ (wf_chats W) (dense_chats D))
    as [Hiff Hid].
  unfold Routes.getChatsById, bind, this, ret. cbv beta iota.
  unfold getChatWithMembers, chatIdOf, getChat.
  destruct (JsMap.get chatId (chats (storage w))) as [chat|] eqn:G.
  - split.
    + intros _. eexists. split; [reflexivity|].
      cbn [ChatWithMembers.chat]. auto.
    + intros N. exfalso. apply N. apply Hiff. eauto.
  - split.
    + intros Hr. apply Hiff in Hr. destruct Hr as [c [=]].
    + reflexivity.
Qed.

(** ** Usernames are unique *)

Lemma NoDup_map_eq {A B : Type} (f : A -> B) (l : list A) (x y : A) :
  NoDup (map f l) -> In x l -> In y l -> f x = f y -> x = y.
Proof.
  induction l as [|a l IH]; simpl; [tauto|].
  intros N Hx Hy E. inversion N as [|? ? Hn N']; subst.
  destruct Hx as [->|Hx]; destruct Hy as [->|Hy]; auto.
  - exfalso. apply Hn. rewrite E. now apply in_map.
  - exfalso. apply Hn. rewrite <- E. now apply in_map.
Qed.

Lemma NoDup_snoc {A : Type} (l : list A) (x : A) :
  NoDup l -> ~ In x l -> NoDup (l ++ [x]).
Proof.
  intros N Hx. induction N as [|a l Ha N IH]; simpl.
  - repeat constructor. tauto.
  - constructor.
    + intros Hin. apply in_app_or in Hin. destruct Hin as [Hin|[->|[]]].
      * contradiction.
      * apply Hx. now left.
    + apply IH. intros Hin. apply Hx. now right.
Qed.

Lemma getUserByUsername_none (st : MemStorage) (username : string) :
  getUserByUsername st username = None ->
  ~ In username (map User.username (JsMap.values (users st))).
Proof.
  unfold getUserByUsername. intros F Hin. apply in_map_iff in Hin.
  destruct Hin as (u & E & Hin).
  pose proof (find_none _ _ F u Hin) as N. simpl in N.
  rewrite E, String.eqb_refl in N. discriminate.
Qed.

Lemma usernames_updateUserOnlineStatus (userId : Z) (isOnline : bool)
  (w : World) :
  map (fun u => (User.id u, User.username u))
      (JsMap.values
         (users (storage (exec (updateUserOnlineStatus userId isOnline) w))))
  = map (fun u => (User.id u, User.username u))
        (JsMap.values (users (storage w))).
Proof.
  unfold exec, updateUserOnlineStatus, bind, this. simpl.
  destruct (JsMap.get userId (users (storage w))) as [user|] eqn:G; simpl; auto.
  destruct (JsMapFacts.set_present
              (User.mk (User.id user) (User.username user) isOnline
                 (clock w (dateReads w))) G)
    as (before & after & E1 & E2 & _).
  rewrite E2. rewrite E1 at 1. unfold JsMap.values.
  rewrite !map_app. reflexivity.
Qed.

Lemma users_addMembers (chatId createdBy : Z) (memberIds : list Z)
  (w : World) :
  users (storage (exec (Routes.addMembers chatId createdBy memberIds) w))
  = users (storage w).
Proof.
  revert w. induction memberIds as [|memberId rest IH]; intros w; auto.
  simpl. rewrite exec_bind, IH. now destruct (negb (memberId =? createdBy)).
Qed.

(** What a request does to the user collection: [POST /api/users] with a
    free username appends one user, every other request keeps the ids and
    usernames as they are. *)
Lemma users_handle (r : Request) (w : World) :
  wf (storage w) ->
  let names st := map (fun u => (User.id u, User.username u))
                      (JsMap.values (users st)) in
  names (storage (handle r w)) = names (storage w)
  \/ exists userData,
      r = PostUsers userData
      /\ getUserByUsername (storage w) (InsertUser.username userData) = None
      /\ names (storage (handle r w))
         = names (storage w)
           ++ [(currentUserId (storage w), InsertUser.username userData)].
Proof.
  intros W names. destruct r as [userData|userId isOnline|chatData memberIds
                                |messageData|userId1 userId2]; simpl.
  - unfold exec, Routes.postUsers, bind, this. simpl.
    destruct (getUserByUsername (storage w) (InsertUser.username userData))
      eqn:G; [now left|].
    right. exists userData. repeat split; auto. unfold names. simpl.
    destruct (table_append (v := User.mk (currentUserId (storage w))
                                    (InsertUser.username userData) true
                                    (clock w (dateReads w)))
                (wf_users W) eq_refl) as [-> _].
    unfold JsMap.values. now rewrite !map_app.
  - left. unfold Routes.putUsersStatus. rewrite exec_bind.
    apply usernames_updateUserOnlineStatus.
  - left. unfold Routes.postChats. run. unfold names. f_equal. f_equal.
    destruct memberIds as [ids|]; [rewrite users_addMembers|]; reflexivity.
  - now left.
  - left. unfold Routes.postChatsDirect. run.
    now destruct (find (Routes.isDirectWith userId2)
                       (getUserChats (storage w) userId1)).
Qed.

Lemma uniqueUsernames_handle (r : Request) (w : World) :
  wf (storage w) -> uniqueUsernames (storage w) ->
  uniqueUsernames (storage (handle r w)).
Proof.
  intros W U. unfold uniqueUsernames in *.
  assert (P : forall st,
             map User.username (JsMap.values (users st))
             = map snd (map (fun u => (User.id u, User.username u))
                            (JsMap.values (users st)))).
  { intros st. rewrite map_map. reflexivity. }
  rewrite P. destruct (users_handle r w W) as [E|(userData & _ & F & E)];
    cbv zeta in E; rewrite E.
  - now rewrite <- P.
  - rewrite map_app, <- P. simpl. apply NoDup_snoc; auto.
    now apply getUserByUsername_none.
Qed.

Lemma reachable_uniqueUsernames (w : World) :
  reachable w -> uniqueUsernames (storage w).
Proof.
  induction 1 as [clk|w r R IH]; [constructor|].
  apply uniqueUsernames_handle; auto. now apply reachable_wf.
Qed.

(** X3. Registration through [POST /api/users] keeps usernames unique:
    in every reachable world no two users share a username, and
    [getUserByUsername] returns a user exactly when that user is stored
    under its id and carries the username asked for. *)
Theorem usernames_are_unique (w : World) :
  reachable w ->
  let st := storage w in
  NoDup (map User.username (JsMap.values (users st)))
  /\ (forall username user,
        getUserByUsername st username = Some user
        <-> getUser st (User.id user) = Some user
            /\ User.username user = username).
Proof.
  intros R st. pose proof (reachable_wf w R) as W.
  pose proof (reachable_uniqueUsernames w R) as U.
  split; [exact U|]. intros username user. unfold getUserByUsername, getUser.
  split.
  - intros F. apply find_some in F. destruct F as [Hin E].
    apply String.eqb_eq in E. split; auto.
    now apply (table_value_get (wf_users W)).
  - intros [G E]. apply JsMapFacts.get_In in G.
    assert (Hin : In user (JsMap.values (users st))).
    { unfold JsMap.values. apply in_map_iff. eexists. split; [|exact G].
      reflexivity. }
    destruct (find (fun u => String.eqb (User.username u) username)
                   (JsMap.values (users st))) as [found|] eqn:F.
    + apply find_some in F. destruct F as [Hf Ef].
      apply String.eqb_eq in Ef. f_equal.
      apply (NoDup_map_eq User.username _ found user U Hf Hin). congruence.
    + pose proof (find_none _ _ F user Hin) as N. simpl in N.
      rewrite E, String.eqb_refl in N. discriminate.
Qed.

(** ** Nothing is ever removed *)

Lemma grows_refl (st : MemStorage) : grows st st.
Proof.
  split; try (exists []; now rewrite app_nil_r). lia.
Qed.

Lemma grows_trans (st1 st2 st3 : MemStorage) :
  grows st1 st2 -> grows st2 st3 -> grows st1 st3.
Proof.
  intros [[c1 C1] [m1 M1] [g1 G1] [i1 I1] N1]
         [[c2 C2] [m2 M2] [g2 G2] [i2 I2] N2].
  split.
  - exists (c1 ++ c2). now rewrite C2, C1, app_assoc.
  - exists (m1 ++ m2). now rewrite M2, M1, app_assoc.
  - exists (g1 ++ g2). now rewrite G2, G1, app_assoc.
  - exists (i1 ++ i2). now rewrite I2, I1, app_assoc.
  - lia.
Qed.

Lemma grows_addChatMember (chatId userId : Z) (w : World) :
  wf (storage w) ->
  grows (storage w) (storage (exec (addChatMember chatId userId) w)).
Proof.
  intros W. rewrite addChatMember_appends by assumption.
  split; simpl; try (exists []; now rewrite app_nil_r); [eauto | lia].
Qed.

Lemma grows_createChat (chat : InsertChat.t) (w : World) :
  wf (storage w) ->
  grows (storage w) (storage (exec (createChat chat) w)).
Proof.
  intros W. rewrite (createChat_storage chat w W).
  split; simpl; try (exists []; now rewrite app_nil_r); eauto. lia.
Qed.

Lemma grows_createMessage (message : InsertMessage.t) (w : World) :
  wf (storage w) ->
  grows (storage w) (storage (exec (createMessage message) w)).
Proof.
  intros W. split; simpl; try (exists []; now rewrite app_nil_r); [|lia].
  destruct (table_append (v := Message.mk (currentMessageId (storage w))
                                  (InsertMessage.chatId message)
                                  (InsertMessage.senderId message)
                                  (InsertMessage.content message)
                                  (clock w (dateReads w)))
              (wf_messages W) eq_refl) as [-> _].
  eauto.
Qed.

Lemma grows_addMembers (chatId createdBy : Z) (memberIds : list Z)
  (w : World) :
  wf (storage w) -> chatId < currentChatId (storage w) ->
  grows (storage w)
        (storage (exec (Routes.addMembers chatId createdBy memberIds) w)).
Proof.
  revert w. induction memberIds as [|memberId rest IH]; intros w W Hc.
  - apply grows_refl.
  - simpl. rewrite exec_bind. destruct (negb (memberId =? createdBy)).
    + eapply grows_trans; [now apply grows_addChatMember|].
      apply IH; [now apply wf_addChatMember | exact Hc].
    + now apply IH.
Qed.

(** X4. No request removes or rewrites what is stored: after any request
    handled in a reachable world, the chats, the membership rows and the
    messages of before are all still there, unchanged and in the same
    order, with whatever is new after them; every user of before is
    still there with the same id and username; and no id counter has
    gone back. *)
Theorem requests_never_remove (w : World) (r : Request) :
  reachable w -> grows (storage w) (storage (handle r w)).
Proof.
  intros R. pose proof (reachable_wf w R) as W.
  pose proof (users_handle r w W) as H. cbv zeta in H.
  fold (identities (storage (handle r w))) in H.
  fold (identities (storage w)) in H.
  destruct H as [E|(userData & -> & _ & E)].
  - destruct r as [userData|userId isOnline|chatData memberIds
                  |messageData|userId1 userId2]; simpl in *.
    + unfold exec, Routes.postUsers, bind, this in *. simpl in *.
      destruct (getUserByUsername (storage w)
                  (InsertUser.username userData));
        [apply grows_refl|].
      split; simpl; try (exists []; now rewrite app_nil_r); lia.
    + split; try (exists []; rewrite app_nil_r); auto.
      * unfold Routes.putUsersStatus. rewrite exec_bind.
        unfold exec, updateUserOnlineStatus, bind, this. simpl.
        now destruct (JsMap.get userId (users (storage w))).
      * unfold Routes.putUsersStatus. rewrite exec_bind.
        unfold exec, updateUserOnlineStatus, bind, this. simpl.
        now destruct (JsMap.get userId (users (storage w))).
      * unfold Routes.putUsersStatus. rewrite exec_bind.
        unfold exec, updateUserOnlineStatus, bind, this. simpl.
        now destruct (JsMap.get userId (users (storage w))).
      * unfold Routes.putUsersStatus. rewrite exec_bind.
        unfold exec, updateUserOnlineStatus, bind, this. simpl.
        destruct (JsMap.get userId (users (storage w))); simpl; lia.
    + destruct (createChat_steps chatData w) as [_ Hid].
      unfold Routes.postChats. run. rewrite Hid.
      eapply grows_trans; [now apply grows_createChat|].
      destruct memberIds as [ids|]; [|apply grows_refl].
      apply grows_addMembers; [now apply wf_createChat|].
      rewrite currentChatId_createChat. lia.
    + now apply grows_createMessage.
    + unfold Routes.postChatsDirect. run.
      destruct (find (Routes.isDirectWith userId2)
                     (getUserChats (storage w) userId1));
        [apply grows_refl|].
      run. eapply grows_trans; [now apply (grows_createChat
                                             (directChatOf userId1))|].
      apply grows_addChatMember. now apply wf_createChat.
  - simpl in *.
    unfold exec, Routes.postUsers, bind, this in *. simpl in *.
    destruct (getUserByUsername (storage w) (InsertUser.username userData));
      [apply grows_refl|].
    split; simpl; try (exists []; now rewrite app_nil_r); [eauto | lia].
Qed.

(** ** Presence *)

Lemma getOnlineUsers_iff (st : MemStorage) (id : Z) :
  wf st ->
  (In id (map User.id (getOnlineUsers st))
   <-> exists user, getUser st id = Some user /\ User.isOnline user = true).
Proof.
  intros W. unfold getOnlineUsers, getUser. rewrite in_map_iff. split.
  - intros (u & <- & Hin). apply filter_In in Hin. destruct Hin as [Hin On].
    exists u. split; auto. now apply (table_value_get (wf_users W)).
  - intros (u & G & On). exists u.
    destruct (table_get_id (wf_users W) G) as [Hid _]. split; auto.
    apply filter_In. split; auto. apply JsMapFacts.get_In in G.
    unfold JsMap.values. apply in_map_iff. eexists. split; [|exact G].
    reflexivity.
Qed.

(** X5. [PUT /api/users/:id/status] moves exactly one user in or out of
    the online list: in a reachable world, after the request the user
    with that id is listed by [getOnlineUsers] exactly when the flag sent
    is true and the user exists, and every other id is listed exactly
    when it was listed before. *)
Theorem putUsersStatus_online (w : World) (userId : Z) (isOnline : bool) :
  reachable w ->
  let online st := map User.id (getOnlineUsers st) in
  let w' := exec (Routes.putUsersStatus userId isOnline) w in
  (In userId (online (storage w'))
   <-> isOnline = true /\ 1 <= userId < currentUserId (storage w))
  /\ (forall other, other <> userId ->
        (In other (online (storage w')) <-> In other (online (storage w)))).
Proof.
  intros R online w'. pose proof (reachable_wf w R) as W.
  pose proof (reachable_dense w R) as D.
  assert (E' : w' = exec (updateUserOnlineStatus userId isOnline) w).
  { unfold w', Routes.putUsersStatus. now rewrite exec_bind. }
  assert (W' : wf (storage w')).
  { rewrite E'. now apply wf_updateUserOnlineStatus. }
  destruct (lookup_dense User.id _ userId _ (wf_users W) (dense_users D))
    as [Hiff _].
  unfold online. rewrite (getOnlineUsers_iff _ userId W').
  assert (Other : forall other, other <> userId ->
            getUser (storage w') other = getUser (storage w) other).
  { intros other Hne. rewrite E'.
    unfold getUser, exec, updateUserOnlineStatus, bind, this. simpl.
    destruct (JsMap.get userId (users (storage w))); simpl; auto.
    now apply JsMapFacts.get_set_other. }
  split.
  - rewrite <- Hiff. rewrite E'.
    unfold getUser, exec, updateUserOnlineStatus, bind, this. simpl.
    destruct (JsMap.get userId (users (storage w))) as [u|] eqn:G; simpl.
    + rewrite JsMapFacts.get_set_same. split.
      * intros (u' & [= <-] & On). simpl in On. eauto.
      * intros [-> _]. eexists. split; reflexivity.
    + rewrite G. split.
      * intros (u' & [=] & _).
      * intros [_ (u' & [=])].
  - intros other Hne.
    rewrite (getOnlineUsers_iff _ other W'), (getOnlineUsers_iff _ other W).
    now rewrite (Other other Hne).
Qed.

(** ** Opening a chat with members *)

Lemma addMembers_rows (chatId createdBy : Z) (memberIds : list Z)
  (w : World) :
  wf (storage w) -> chatId < currentChatId (storage w) ->
  let st' := storage (exec (Routes.addMembers chatId createdBy memberIds) w) in
  exists added,
    JsMap.values (chatMembers st')
    = JsMap.values (chatMembers (storage w)) ++ added
    /\ map ChatMember.userId added
       = filter (fun memberId => negb (memberId =? createdBy)) memberIds
    /\ Forall (fun member => ChatMember.chatId member = chatId) added
    /\ users st' = users (storage w)
    /\ chats st' = chats (storage w)
    /\ messages st' = messages (storage w).
Proof.
  revert w. induction memberIds as [|memberId rest IH]; intros w W Hc.
  - exists []. simpl. rewrite app_nil_r. repeat split. constructor.
  - cbv zeta. simpl Routes.addMembers. rewrite exec_bind. simpl filter.
    destruct (negb (memberId =? createdBy)).
    + destruct (IH (exec (addChatMember chatId memberId) w)
                  (wf_addChatMember w W chatId memberId Hc) Hc)
        as (added & V & U & F & E1 & E2 & E3).
      rewrite addChatMember_appends in V by assumption.
      cbn [chatMembers setChatMembers] in V. unfold JsMap.values in V.
      rewrite map_app, <- app_assoc in V. simpl in V.
      eexists. split; [exact V|]. simpl. rewrite U.
      repeat split; auto.
    + apply IH; assumption.
Qed.

Lemma members_of_rows (st : MemStorage) (chatId : Z) :
  map (fun e => ChatMember.userId (MemberWithUser.member e))
      (getChatMembers st chatId)
  = filter (fun userId => JsArray.isDefined (getUser st userId))
           (map ChatMember.userId (rowsOfChat st chatId)).
Proof.
  unfold getChatMembers, rowsOfChat, getUser.
  induction (filter (fun member => ChatMember.chatId member =? chatId)
                    (JsMap.values (chatMembers st))) as [|m rows IH];
    simpl; auto.
  destruct (JsMap.get (ChatMember.userId m) (users st)); simpl;
    now rewrite ?IH.
Qed.

Lemma filter_all {A : Type} (p : A -> bool) (l : list A) :
  Forall (fun a => p a = true) l -> filter p l = l.
Proof.
  induction 1 as [|a l Ha F IH]; simpl; auto. now rewrite Ha, IH.
Qed.

Lemma postChats_creates
  (w : World) (chatData : InsertChat.t) (memberIds : option (list Z)) :
  reachable w ->
  let st := storage w in
  let w' := exec (Routes.postChats chatData memberIds) w in
  let createdBy := InsertChat.createdBy chatData in
  let invited :=
    createdBy
    :: filter (fun memberId => negb (memberId =? createdBy))
              (match memberIds with Some ids => ids | None => [] end) in
  exists cw,
    eval (Routes.postChats chatData memberIds) w = Json (Some cw)
    /\ ChatWithMembers.chat cw
       = {| Chat.id := currentChatId st;
            Chat.name := InsertChat.name chatData;
            Chat.type := InsertChat.type chatData;
            Chat.createdBy := createdBy;
            Chat.createdAt := clock w (dateReads w) |}
    /\ getChat (storage w') (currentChatId st)
       = Some (ChatWithMembers.chat cw)
    /\ map ChatMember.userId (rowsOfChat (storage w') (currentChatId st))
       = invited
    /\ map (fun e => ChatMember.userId (MemberWithUser.member e))
           (ChatWithMembers.members cw)
       = filter (fun userId => JsArray.isDefined (getUser st userId))
                invited.
Proof.
  intros R st w' createdBy invited. subst st. pose proof (reachable_wf w R) as W.
  set (w1 := exec (createChat chatData) w).
  assert (W1 : wf (storage w1)) by now apply wf_createChat.
  assert (H1 : currentChatId (storage w) < currentChatId (storage w1)).
  { unfold w1. rewrite currentChatId_createChat. lia. }
  destruct (createChat_steps chatData w) as [_ Hid].
  assert (Ew : w' = exec (Routes.addMembers (currentChatId (storage w)) createdBy
                            (match memberIds with
                             | Some ids => ids | None => [] end)) w1).
  { unfold w', Routes.postChats. run. rewrite Hid.
    now destruct memberIds. }
  assert (Ev : eval (Routes.postChats chatData memberIds) w
               = Json (getChatWithMembers (storage w') (currentChatId (storage w)))).
  { unfold w', Routes.postChats. run. rewrite Hid. reflexivity. }
  destruct (addMembers_rows (currentChatId (storage w)) createdBy
              (match memberIds with Some ids => ids | None => [] end)
              w1 W1 H1) as (added & V & U & F & E1 & E2 & E3).
  rewrite <- Ew in V, E1, E2, E3.
  pose proof (createChat_storage chatData w W) as S1. cbv zeta in S1.
  fold w1 in S1.
  assert (G : getChat (storage w') (currentChatId (storage w))
              = Some (eval (createChat chatData) w)).
  { unfold getChat. rewrite E2, S1. cbn [chats].
    destruct (table_append (v := eval (createChat chatData) w)
                (wf_chats W) eq_refl) as [<- _].
    apply JsMapFacts.get_set_same. }
  assert (Rows : map ChatMember.userId
                     (rowsOfChat (storage w') (currentChatId (storage w)))
                 = invited).
  { unfold rowsOfChat. rewrite V, S1. cbn [chatMembers].
    unfold JsMap.values. rewrite map_app, !filter_app.
    pose proof (no_row_of_unallocated_chat (storage w) (currentChatId (storage w)) W
                  (Z.le_refl _)) as N.
    unfold rowsOfChat, JsMap.values in N. rewrite N.
    cbn [map snd filter ChatMember.chatId app]. rewrite Z.eqb_refl.
    rewrite (filter_all _ added).
    - simpl. unfold invited. now rewrite U.
    - eapply Forall_impl; [|exact F]. simpl. intros m ->.
      apply Z.eqb_refl. }
  unfold getChatWithMembers in Ev. unfold getChat in G. rewrite G in Ev.
  eexists. split; [exact Ev|].
  cbn [ChatWithMembers.chat ChatWithMembers.members].
  split; [reflexivity|]. split; [exact G|]. split; [exact Rows|].
  rewrite members_of_rows, Rows. unfold getUser. now rewrite E1, S1.
Qed.

(** X6. [POST /api/chats] in a reachable world creates the chat under the
    current chat id with the name, type and creator sent, and gives it
    one membership row for the creator followed by one row for each id of
    [memberIds] other than the creator, in the order sent (an id sent
    twice gets two rows).  The reply is the projection of that chat; its
    members are those rows, without the ones whose user does not exist. *)
Theorem postChats_members
  (w : World) (chatData : InsertChat.t) (memberIds : option (list Z)) :
  reachable w ->
  let st := storage w in
  let w' := exec (Routes.postChats chatData memberIds) w in
  let createdBy := InsertChat.createdBy chatData in
  let invited :=
    createdBy
    :: filter (fun memberId => negb (memberId =? createdBy))
              (match memberIds with Some ids => ids | None => [] end) in
  exists cw,
    eval (Routes.postChats chatData memberIds) w = Json (Some cw)
    /\ ChatWithMembers.chat cw
       = {| Chat.id := currentChatId st;
            Chat.name := InsertChat.name chatData;
            Chat.type := InsertChat.type chatData;
            Chat.createdBy := createdBy;
            Chat.createdAt := clock w (dateReads w) |}
    /\ getChat (storage w') (currentChatId st)
       = Some (ChatWithMembers.chat cw)
    /\ map ChatMember.userId (rowsOfChat (storage w') (currentChatId st))
       = invited
    /\ map (fun e => ChatMember.userId (MemberWithUser.member e))
           (ChatWithMembers.members cw)
       = filter (fun userId => JsArray.isDefined (getUser st userId))
                invited.
Proof. exact (postChats_creates w chatData memberIds). Qed.

(** ** More on the window of [getChatMessages] *)

Lemma timeline_ids_ascend (st : MemStorage) (chatId : Z) :
  wf st ->
  StronglySorted (fun a b => Message.id a < Message.id b)
                 (timeline st chatId).
Proof.
  intros W. apply JsSortFacts.StronglySorted_filter.
  exact (table_values_ascend (wf_messages W)).
Qed.

Lemma byTime_sorted (st : MemStorage) (chatId : Z) :
  wf st ->
  let byTime := rev (JsArray.sort newestFirst (timeline st chatId)) in
  Permutation byTime (timeline st chatId)
  /\ StronglySorted returnedBefore byTime.
Proof.
  intros W byTime. split.
  - unfold byTime. rewrite <- Permutation_rev. apply JsArrayFacts.sort_perm.
  - apply (JsSortFacts.StronglySorted_rev newestOnTop).
    apply sort_newestFirst_sorted. now apply timeline_ids_ascend.
Qed.

Lemma getChatMessages_joined (st : MemStorage) (chatId limit : Z) :
  map MessageWithSender.message (getChatMessages st chatId limit)
  = filter (senderResolves st)
      (rev (JsArray.slice0 limit
              (JsArray.sort newestFirst (timeline st chatId)))).
Proof. unfold getChatMessages. fold (timeline st chatId). apply sender_join. Qed.

Lemma length_filter_le {A : Type} (p : A -> bool) (l : list A) :
  (length (filter p l) <= length l)%nat.
Proof.
  induction l as [|a l IH]; simpl; auto. destruct (p a); simpl; lia.
Qed.

(** X7. The edges of the limit of [getChatMessages].  In a reachable
    world, with the messages of the chat arranged oldest first (equal
    sent times later id first): a limit of 0 returns nothing; a limit
    [k >= 0] returns at most [k] messages; a limit not below the number
    of messages returns the whole arrangement; and a negative limit [-n]
    returns the arrangement without its [n] oldest messages; in each case
    without the messages whose sender does not resolve. *)
Theorem getChatMessages_limit_edges (w : World) (chatId limit : Z) :
  reachable w ->
  let st := storage w in
  exists byTime,
    Permutation byTime (timeline st chatId)
    /\ StronglySorted returnedBefore byTime
    /\ getChatMessages st chatId 0 = []
    /\ (0 <= limit ->
        (length (getChatMessages st chatId limit) <= Z.to_nat limit)%nat)
    /\ (Z.of_nat (length (timeline st chatId)) <= limit ->
        map MessageWithSender.message (getChatMessages st chatId limit)
        = filter (senderResolves st) byTime)
    /\ (limit < 0 ->
        map MessageWithSender.message (getChatMessages st chatId limit)
        = filter (senderResolves st) (skipn (Z.to_nat (- limit)) byTime)).
Proof.
  intros R st. pose proof (reachable_wf w R) as W.
  destruct (byTime_sorted st chatId W) as [P S].
  exists (rev (JsArray.sort newestFirst (timeline st chatId))).
  assert (Len : length (JsArray.sort newestFirst (timeline st chatId))
                = length (timeline st chatId)).
  { apply Permutation_length, JsArrayFacts.sort_perm. }
  split; [exact P|]. split; [exact S|]. split; [reflexivity|].
  split; [|split].
  - intros Hk.
    rewrite <- (length_map MessageWithSender.message),
      getChatMessages_joined.
    eapply Nat.le_trans; [apply length_filter_le|].
    rewrite length_rev, JsArrayFacts.slice0_firstn by assumption.
    rewrite length_firstn. lia.
  - intros Hk. rewrite getChatMessages_joined.
    rewrite JsArrayFacts.slice0_firstn by lia.
    rewrite firstn_all2 by lia. reflexivity.
  - intros Hk. rewrite getChatMessages_joined. unfold JsArray.slice0.
    assert (E : (limit <? 0) = true) by now apply Z.ltb_lt.
    rewrite E, JsSortFacts.rev_firstn. unfold lastN.
    rewrite length_rev, Len.
    set (n := length (timeline st chatId)).
    destruct (Z_le_gt_dec (- limit) (Z.of_nat n)) as [Hn|Hn].
    + do 2 f_equal. lia.
    + rewrite !skipn_all2; [reflexivity| |]; rewrite length_rev, Len;
        fold n; lia.
Qed.

Lemma sort_snoc_newest (l : list Message.t) (m : Message.t) :
  Forall (fun a => Message.sentAt a < Message.sentAt m) l ->
  JsArray.sort newestFirst (l ++ [m]) = m :: JsArray.sort newestFirst l.
Proof.
  induction 1 as [|a l Ha F IH]; simpl; auto.
  rewrite IH. simpl. unfold newestFirst at 1.
  destruct (Message.sentAt m - Message.sentAt a <=? 0) eqn:E; auto.
  apply Z.leb_le in E. lia.
Qed.

Lemma sorted_head_is_newest (l : list Message.t) (top : Message.t)
  (rest : list Message.t) :
  StronglySorted (fun a b => Message.id a < Message.id b) l ->
  JsArray.sort newestFirst l = top :: rest ->
  In top l /\ forall m, In m l -> m = top \/ returnedBefore m top.
Proof.
  intros Ids E. pose proof (sort_newestFirst_sorted l Ids) as S.
  pose proof (JsArrayFacts.sort_perm (cmp := newestFirst) (l := l)) as P.
  rewrite E in S, P. inversion S as [|? ? _ F]; subst. split.
  - apply (Permutation_in _ P). now left.
  - intros m Hm. apply (Permutation_in _ (Permutation_sym P)) in Hm.
    destruct Hm as [<-|Hm]; [now left|right].
    rewrite Forall_forall in F. exact (F m Hm).
Qed.

(** X8. The [lastMessage] of a chat projection is decided by the newest
    message alone.  In a reachable world, for an existing chat:
    without messages there is none; otherwise let the newest message be
    the one every other message of the chat is returned before (sent
    earlier, or at the same instant with a later id); [lastMessage] is
    that message joined to its sender when the sender resolves, and is
    absent when the sender does not resolve, whatever older messages the
    chat has. *)
Theorem lastMessage_is_newest (w : World) (id : Z) (cw : ChatWithMembers.t) :
  reachable w ->
  getChatWithMembers (storage w) id = Some cw ->
  let st := storage w in
  (timeline st id = [] -> ChatWithMembers.lastMessage cw = None)
  /\ (timeline st id <> [] ->
      exists newest,
        In newest (timeline st id)
        /\ (forall m, In m (timeline st id) ->
                      m = newest \/ returnedBefore m newest)
        /\ ChatWithMembers.lastMessage cw
           = match getUser st (Message.senderId newest) with
             | Some user =>
                 Some {| MessageWithSender.message := newest;
                         MessageWithSender.sender := Some user |}
             | None => None
             end).
Proof.
  intros R G st. pose proof (reachable_wf w R) as W.
  unfold getChatWithMembers in G.
  destruct (JsMap.get id (chats (storage w))); [|discriminate].
  injection G as <-. cbn [ChatWithMembers.lastMessage].
  unfold getChatMessages. fold (timeline (storage w) id). fold st.
  split.
  - intros ->. reflexivity.
  - intros Hne.
    destruct (JsArray.sort newestFirst (timeline st id)) as [|top rest] eqn:E.
    + exfalso. apply Hne.
      pose proof (JsArrayFacts.sort_perm (cmp := newestFirst)
                    (l := timeline st id)) as P.
      rewrite E in P. now apply Permutation_nil in P.
    + destruct (sorted_head_is_newest _ top rest
                  (timeline_ids_ascend st id W) E) as [Hin Hall].
      exists top. split; [exact Hin|]. split; [exact Hall|].
      unfold JsArray.slice0. simpl. unfold getUser.
      now destruct (JsMap.get (Message.senderId top) (users st)).
Qed.

Lemma createMessage_appends_entry
  (w : World) (message : InsertMessage.t) (sender : User.t) (limit : Z) :
  reachable w ->
  getUser (storage w) (InsertMessage.senderId message) = Some sender ->
  Forall (fun m => Message.sentAt m < clock w (dateReads w))
         (timeline (storage w) (InsertMessage.chatId message)) ->
  1 <= limit ->
  let st := storage w in
  let st' := storage (exec (createMessage message) w) in
  getChatMessages st' (InsertMessage.chatId message) limit
  = getChatMessages st (InsertMessage.chatId message) (limit - 1)
    ++ [{| MessageWithSender.message := eval (createMessage message) w;
           MessageWithSender.sender := Some sender |}]
  /\ (forall other k,
        other <> InsertMessage.chatId message ->
        getChatMessages st' other k = getChatMessages st other k).
Proof.
  intros R Hs Later Hk st0 st'. subst st0. pose proof (reachable_wf w R) as W.
  set (m := eval (createMessage message) w).
  assert (Msgs : JsMap.values (messages st')
                 = JsMap.values (messages (storage w)) ++ [m]).
  { unfold st', m. simpl.
    destruct (table_append (v := Message.mk (currentMessageId (storage w))
                                    (InsertMessage.chatId message)
                                    (InsertMessage.senderId message)
                                    (InsertMessage.content message)
                                    (clock w (dateReads w)))
                (wf_messages W) eq_refl) as [-> _].
    unfold JsMap.values. now rewrite map_app. }
  assert (U : users st' = users (storage w)) by reflexivity.
  split.
  - unfold getChatMessages. rewrite U, Msgs, filter_app.
    cbn [filter]. replace (Message.chatId m) with
      (InsertMessage.chatId message) by reflexivity.
    rewrite Z.eqb_refl. fold (timeline (storage w) (InsertMessage.chatId message)).
    rewrite sort_snoc_newest by exact Later.
    rewrite !JsArrayFacts.slice0_firstn by lia.
    replace (Z.to_nat limit) with (S (Z.to_nat (limit - 1))) by lia.
    cbn [firstn rev]. rewrite map_app, filter_app. f_equal.
    cbn [map filter]. unfold getUser in Hs.
    replace (Message.senderId m) with (InsertMessage.senderId message)
      by reflexivity.
    now rewrite Hs.
  - intros other k Hne. unfold getChatMessages.
    rewrite U, Msgs, filter_app. cbn [filter].
    replace (Message.chatId m) with (InsertMessage.chatId message)
      by reflexivity.
    assert (E : (InsertMessage.chatId message =? other) = false)
      by (apply Z.eqb_neq; congruence).
    rewrite E, app_nil_r. reflexivity.
Qed.

(** X9. How posting composes with reading.  In a reachable world, a
    message created for a chat at a time later than every message of that
    chat, by a sender that exists, is the last entry of
    [getChatMessages] of the chat for every limit [k >= 1], after the
    entries the limit [k - 1] gave before; the answers for every other
    chat are unchanged. *)
Theorem createMessage_comes_last
  (w : World) (message : InsertMessage.t) (sender : User.t) (limit : Z) :
  reachable w ->
  getUser (storage w) (InsertMessage.senderId message) = Some sender ->
  Forall (fun m => Message.sentAt m < clock w (dateReads w))
         (timeline (storage w) (InsertMessage.chatId message)) ->
  1 <= limit ->
  let st := storage w in
  let st' := storage (exec (createMessage message) w) in
  getChatMessages st' (InsertMessage.chatId message) limit
  = getChatMessages st (InsertMessage.chatId message) (limit - 1)
    ++ [{| MessageWithSender.message := eval (createMessage message) w;
           MessageWithSender.sender := Some sender |}]
  /\ (forall other k,
        other <> InsertMessage.chatId message ->
        getChatMessages st' other k = getChatMessages st other k).
Proof. exact (createMessage_appends_entry w message sender limit). Qed.

(** ** Adding a member *)

(** X10. [addChatMember] checks neither id.  In a reachable world the
    row it appends shows up as the last member of the chat when the user
    id resolves, and does not show up at all when it does not; the member
    lists of all other chats stay as they were. *)
Theorem addChatMember_shows_member (w : World) (chatId userId : Z) :
  reachable w ->
  let st := storage w in
  let st' := storage (exec (addChatMember chatId userId) w) in
  let row := {| ChatMember.id := currentChatMemberId st;
                ChatMember.chatId := chatId;
                ChatMember.userId := userId;
                ChatMember.joinedAt := clock w (dateReads w) |} in
  getChatMembers st' chatId
  = getChatMembers st chatId
    ++ match getUser st userId with
       | Some user => [{| MemberWithUser.member := row;
                          MemberWithUser.user := Some user |}]
       | None => []
       end
  /\ (forall other, other <> chatId ->
        getChatMembers st' other = getChatMembers st other).
Proof.
  intros R st0 st' row. subst st0. pose proof (reachable_wf w R) as W.
  assert (S : st' = setChatMembers
                      (chatMembers (storage w)
                       ++ [(currentChatMemberId (storage w), row)])
                      (currentChatMemberId (storage w) + 1) (storage w)).
  { unfold st'. now rewrite addChatMember_appends. }
  split.
  - unfold getChatMembers. rewrite S. cbn [chatMembers users setChatMembers].
    unfold JsMap.values. rewrite map_app, filter_app, map_app, filter_app.
    f_equal. cbn [map snd filter]. unfold row at 1.
    cbn [ChatMember.chatId]. rewrite Z.eqb_refl. cbn [map filter].
    unfold getUser. cbn [ChatMember.userId row].
    now destruct (JsMap.get userId (users (storage w))).
  - intros other Hne. apply getChatMembers_frame; [now rewrite S|].
    unfold rowsOfChat. rewrite S. cbn [chatMembers setChatMembers].
    unfold JsMap.values. rewrite map_app, filter_app. cbn [map snd filter].
    assert (E : (ChatMember.chatId row =? other) = false)
      by (apply Z.eqb_neq; simpl; congruence).
    rewrite E. apply app_nil_r.
Qed.

(** ** A direct chat with oneself *)

Lemma direct_chat_is_found (st : MemStorage) (a b : Z) (chat : Chat.t) :
  wf st -> In chat (directChats st a b) ->
  exists cw, find (Routes.isDirectWith a) (getUserChats st a) = Some cw.
Proof.
  intros W Hin. unfold directChats in Hin. apply filter_In in Hin.
  destruct Hin as [Hin Hd]. unfold isDirectBetween in Hd.
  apply andb_prop in Hd. destruct Hd as [Hd _].
  apply andb_prop in Hd. destruct Hd as [Hd Hha].
  apply andb_prop in Hd. destruct Hd as [Ht Hl].
  destruct (hasMember_row _ _ _ Hha) as (x & Hx & Hxc & Hxa).
  pose proof (table_value_get (wf_chats W) Hin) as G.
  destruct (find (Routes.isDirectWith a) (getUserChats st a)) as [cw|] eqn:F;
    [eauto|exfalso].
  rewrite find_getUserChats in F.
  destruct (find (rowPasses st (Routes.isDirectWith a))
              (filter (fun member => ChatMember.userId member =? a)
                      (JsMap.values (chatMembers st))))
    as [y|] eqn:Fy.
  - pose proof (find_some _ _ Fy) as [_ Py]. unfold rowPasses in Py.
    rewrite F in Py. discriminate Py.
  - assert (Hx' : In x (filter (fun member => ChatMember.userId member =? a)
                               (JsMap.values (chatMembers st)))).
    { apply filter_In. split; [exact Hx | now apply Z.eqb_eq]. }
    pose proof (find_none _ _ Fy x Hx') as N.
    unfold rowPasses, getChatWithMembers in N. rewrite Hxc, G in N.
    unfold Routes.isDirectWith in N. simpl in N.
    fold (hasMember a (getChatMembers st (Chat.id chat))) in N.
    rewrite Ht, Hl, Hha in N. discriminate N.
Qed.

Lemma find_app_none {A : Type} (p : A -> bool) (l l' : list A) :
  find p l = None -> find p (l ++ l') = find p l'.
Proof.
  induction l as [|a l IH]; simpl; auto.
  destruct (p a); [discriminate|auto].
Qed.

Lemma directCreated_userChats_self (w : World) (a : Z)
  (cw : ChatWithMembers.t) :
  wf (storage w) ->
  getChatWithMembers (storage (directCreated a a w))
    (currentChatId (storage w)) = Some cw ->
  getUserChats (storage (directCreated a a w)) a
  = getUserChats (storage w) a ++ [cw; cw].
Proof.
  intros W G.
  assert (Rows : chatMembers (storage (directCreated a a w))
                 = chatMembers (storage w)
                   ++ [(currentChatMemberId (storage w),
                        ChatMember.mk (currentChatMemberId (storage w))
                          (currentChatId (storage w)) a
                          (clock w (S (dateReads w))));
                       (currentChatMemberId (storage w) + 1,
                        ChatMember.mk (currentChatMemberId (storage w) + 1)
                          (currentChatId (storage w)) a
                          (clock w (S (S (dateReads w)))))])
    by now rewrite (directCreated_storage w W a a).
  unfold getUserChats. rewrite Rows.
  unfold JsMap.values. rewrite map_app, filter_app, map_app.
  rewrite JsArrayFacts.defined_app. f_equal.
  - f_equal. apply map_ext_in. intros m Hm.
    apply filter_In in Hm. destruct Hm as [Hm _].
    apply (directCreated_old_chat w W a a).
    pose proof (wf_memberChat W) as F. rewrite Forall_forall in F.
    now apply F.
  - cbn [map snd filter ChatMember.userId]. rewrite Z.eqb_refl.
    cbn [map ChatMember.chatId]. now rewrite G.
Qed.

(** X11. [POST /api/chats/direct] does not guard against
    [userId1 = userId2].  In a reachable world, for an existing user [a]:
    when [a] already has a direct chat with anyone, the request creates
    nothing and answers with a chat [a] already has; when [a] has no
    two-member direct chat it creates a chat of type 'direct' whose two
    members are both [a]; in either case a second request answers with
    the same chat and changes nothing. *)
Theorem postChatsDirect_with_oneself (w : World) (a : Z) (ua : User.t) :
  reachable w -> getUser (storage w) a = Some ua ->
  let st := storage w in
  let w1 := exec (Routes.postChatsDirect a a) w in
  exists cw,
    eval (Routes.postChatsDirect a a) w = Json (Some cw)
    /\ Routes.postChatsDirect a a w1 = (Json (Some cw), w1)
    /\ (forall b chat, In chat (directChats st a b) ->
          w1 = w /\ In cw (getUserChats st a))
    /\ (find (Routes.isDirectWith a) (getUserChats st a) = None ->
        chats (storage w1)
        = chats st ++ [(currentChatId st, ChatWithMembers.chat cw)]
        /\ Chat.type (ChatWithMembers.chat cw) = "direct"%string
        /\ map (fun e => ChatMember.userId (MemberWithUser.member e))
               (ChatWithMembers.members cw) = [a; a]).
Proof.
  intros R Ha st0 w1. subst st0. pose proof (reachable_wf w R) as W.
  destruct (find (Routes.isDirectWith a) (getUserChats (storage w) a))
    as [cw|] eqn:F.
  - pose proof (postChatsDirect_found a a w cw F) as E.
    assert (E1 : w1 = w) by (unfold w1, exec; now rewrite E).
    exists cw. unfold eval. rewrite E, E1. cbn [fst].
    split; [reflexivity|]. split; [exact E|]. split.
    + intros b chat _. split; [reflexivity|].
      now apply find_some in F.
    + discriminate.
  - pose proof (postChatsDirect_not_found a a w F) as E.
    assert (E1 : w1 = directCreated a a w)
      by (unfold w1, exec; now rewrite E).
    destruct (directCreated_chat w W a a ua ua Ha Ha)
      as (cw & G & Hc & Hm & Pb).
    exists cw. unfold eval. rewrite E. cbn [fst]. rewrite G.
    split; [reflexivity|]. split; [|split].
    + apply postChatsDirect_found.
      rewrite E1, (directCreated_userChats_self w a cw W G).
      rewrite (find_app_none _ _ _ F). simpl. now rewrite Pb.
    + intros b chat Hin. exfalso.
      destruct (direct_chat_is_found _ a b chat W Hin) as [found Hf].
      congruence.
    + intros _. rewrite E1, (directCreated_storage w W a a). cbn [chats].
      rewrite Hc. split; [reflexivity|]. split; [reflexivity|].
      rewrite Hm, (directCreated_members w W a a ua ua Ha Ha). reflexivity.
Qed.

(** ** The client: [lib/utils.ts] *)

Lemma colors_NoDup : NoDup Utils.colors.
Proof.
  unfold Utils.colors.
  repeat (constructor; [simpl; intuition discriminate|]). constructor.
Qed.

Lemma getAvatarColor_nonneg (userId : Z) :
  0 <= userId ->
  Utils.getAvatarColor userId
  = nth_error Utils.colors (Z.to_nat (userId mod 8)).
Proof.
  intros H. unfold Utils.getAvatarColor. cbv zeta.
  change (Z.of_nat (length Utils.colors)) with 8.
  rewrite Z.rem_mod_nonneg by lia.
  destruct (userId mod 8 <? 0) eqn:E; auto.
  apply Z.ltb_lt in E. pose proof (Z.mod_pos_bound userId 8). lia.
Qed.

(** X12. [getAvatarColor] picks the colour by the user id modulo 8: every
    id that is not negative gets one of the eight colours, two such ids
    get the same colour exactly when they are congruent modulo 8, and so
    every user of a reachable world has a colour; a negative id that is
    not a multiple of 8 gets none ([undefined]), because [%] keeps the
    sign. *)
Theorem getAvatarColor_by_residue :
  (forall userId, 0 <= userId ->
     exists color, Utils.getAvatarColor userId = Some color
                   /\ In color Utils.colors)
  /\ (forall i j, 0 <= i -> 0 <= j ->
        (Utils.getAvatarColor i = Utils.getAvatarColor j
         <-> i mod 8 = j mod 8))
  /\ (forall userId, userId < 0 -> userId mod 8 <> 0 ->
        Utils.getAvatarColor userId = None)
  /\ (forall w id user,
        reachable w -> getUser (storage w) id = Some user ->
        Utils.getAvatarColor (User.id user) <> None).
Proof.
  assert (Len : length Utils.colors = 8%nat) by reflexivity.
  assert (Def : forall userId, 0 <= userId ->
            exists color, Utils.getAvatarColor userId = Some color
                          /\ In color Utils.colors).
  { intros userId H. rewrite getAvatarColor_nonneg by assumption.
    pose proof (Z.mod_pos_bound userId 8 ltac:(lia)) as B.
    destruct (nth_error Utils.colors (Z.to_nat (userId mod 8))) as [c|] eqn:E.
    - exists c. split; auto. eapply nth_error_In; eauto.
    - apply nth_error_None in E. lia. }
  split; [exact Def|]. split; [|split].
  - intros i j Hi Hj. rewrite !getAvatarColor_nonneg by assumption.
    pose proof (Z.mod_pos_bound i 8 ltac:(lia)) as Bi.
    pose proof (Z.mod_pos_bound j 8 ltac:(lia)) as Bj.
    split.
    + intros E. apply (proj1 (NoDup_nth_error _) colors_NoDup) in E; lia.
    + intros ->. reflexivity.
  - intros userId Hneg Hm. unfold Utils.getAvatarColor. cbv zeta.
    change (Z.of_nat (length Utils.colors)) with 8.
    assert (E : Z.rem userId 8 < 0).
    { assert (Z.rem userId 8 <= 0) by (Z.quot_rem_to_equations; lia).
      assert (Z.rem userId 8 <> 0); [|lia].
      intros Z0. apply Hm. apply Z.rem_divide in Z0; [|lia].
      now apply Z.mod_divide. }
    apply Z.ltb_lt in E. now rewrite E.
  - intros w id user R G. pose proof (reachable_wf w R) as W.
    pose proof (reachable_dense w R) as D.
    destruct (lookup_dense User.id _ id _ (wf_users W) (dense_users D))
      as [Hiff Hid].
    unfold getUser in G. rewrite (Hid _ G).
    assert (1 <= id) by (apply Hiff; eauto).
    destruct (Def id ltac:(lia)) as (c & -> & _). discriminate.
Qed.

Lemma relative_time_units (diff : Z) :
  diff / 60000 / 60 = diff / 3600000
  /\ diff / 60000 / 60 / 24 = diff / 86400000.
Proof.
  split.
  - rewrite Z.div_div by lia. reflexivity.
  - rewrite !Z.div_div by lia. reflexivity.
Qed.

(** X13. The thresholds of [formatRelativeTime], in milliseconds between
    the date and now: below one minute (also for a date in the future)
    "now"; below one hour the whole minutes, 1 to 59, followed by "m";
    below one day the whole hours, 1 to 23, followed by "h"; below seven
    days the whole days, 1 to 6, followed by "d"; from seven days on the
    date in the locale's format. *)
Theorem formatRelativeTime_thresholds
  (toLocaleDateString : Z -> string) (now date : Z) :
  let diff := now - date in
  let shown := Utils.formatRelativeTime toLocaleDateString now date in
  (diff < 60000 -> shown = "now"%string)
  /\ (60000 <= diff < 3600000 ->
      shown = (show (diff / 60000) ++ "m")%string
      /\ 1 <= diff / 60000 <= 59)
  /\ (3600000 <= diff < 86400000 ->
      shown = (show (diff / 3600000) ++ "h")%string
      /\ 1 <= diff / 3600000 <= 23)
  /\ (86400000 <= diff < 604800000 ->
      shown = (show (diff / 86400000) ++ "d")%string
      /\ 1 <= diff / 86400000 <= 6)
  /\ (604800000 <= diff -> shown = toLocaleDateString date).
Proof.
  intros diff shown. unfold shown, Utils.formatRelativeTime. fold diff.
  cbv zeta. destruct (relative_time_units diff) as [-> ->].
  split; [|split; [|split; [|split]]]; intros H;
    repeat match goal with
      | |- context [?a <? ?b] =>
          let E := fresh "E" in
          destruct (a <? b) eqn:E;
          [apply Z.ltb_lt in E | apply Z.ltb_ge in E]
      end;
    try reflexivity; try split; try reflexivity;
    try (exfalso; Z.div_mod_to_equations; lia);
    try (Z.div_mod_to_equations; lia).
Qed.

(** X14. [formatTime] of the chat list shows what [formatRelativeTime]
    shows for every date less than seven days old, and from seven days
    on keeps counting whole days instead of printing the date. *)
Theorem formatTime_counts_days
  (toLocaleDateString : Z -> string) (now date : Z) :
  let diff := now - date in
  (diff < 604800000 ->
   ChatView.formatTime now date
   = Utils.formatRelativeTime toLocaleDateString now date)
  /\ (604800000 <= diff ->
      ChatView.formatTime now date
      = (show (diff / 86400000) ++ "d")%string
      /\ 7 <= diff / 86400000).
Proof.
  intros diff. unfold ChatView.formatTime, Utils.formatRelativeTime.
  fold diff. cbv zeta. destruct (relative_time_units diff) as [-> ->].
  split; intros H;
    repeat match goal with
      | |- context [?a <? ?b] =>
          let E := fresh "E" in
          destruct (a <? b) eqn:E;
          [apply Z.ltb_lt in E | apply Z.ltb_ge in E]
      end;
    try reflexivity; try split; try reflexivity;
    try (exfalso; Z.div_mod_to_equations; lia);
    try (Z.div_mod_to_equations; lia).
Qed.

(** ** What the client sends *)

Lemma characters_head (c : ascii) (rest : string) :
  exists more others, characters (String c rest) = String c more :: others.
Proof.
  simpl. destruct (characters rest) as [|next others]; [now eexists _, _|].
  destruct (startsWithContinuation next); now eexists _, _.
Qed.

Lemma characters_group (c : ascii) (t r : string) :
  continues t = true -> startsWithContinuation r = false ->
  characters (String c (t ++ r)) = String c t :: characters r.
Proof.
  revert c. induction t as [|c1 t1 IH]; intros c Ht Hr.
  - cbn [String.append]. destruct r as [|a x]; [reflexivity|].
    destruct (characters_head a x) as (more & others & E).
    cbn [characters] in E |- *. rewrite E.
    cbn [startsWithContinuation] in Hr |- *. now rewrite Hr.
  - cbn [continues] in Ht. apply andb_prop in Ht. destruct Ht as [Hc Ht].
    cbn [String.append]. change (characters (String c (String c1 (t1 ++ r))))
      with (match characters (String c1 (t1 ++ r)) with
            | next :: others =>
                if startsWithContinuation next
                then String c next :: others
                else String c EmptyString :: next :: others
            | [] => [String c EmptyString]
            end).
    rewrite (IH c1 Ht Hr). cbn [startsWithContinuation]. now rewrite Hc.
Qed.

Lemma characters_proper (s : string) :
  Forall (fun g => isCharacter g = true) (characters s)
  /\ Forall (fun g => startsWithContinuation g = false) (tl (characters s)).
Proof.
  induction s as [|c rest [IH1 IH2]]; [split; constructor|].
  cbn [characters]. destruct (characters rest) as [|next others].
  - split; repeat constructor.
  - inversion IH1 as [|? ? Hn Ho]; subst. cbn [tl] in IH2.
    destruct (startsWithContinuation next) eqn:E.
    + split; [|exact IH2]. constructor; [|exact Ho].
      destruct next as [|c1 t1]; [discriminate E|].
      cbn [isCharacter continues startsWithContinuation] in *.
      now rewrite E, Hn.
    + split; [repeat constructor; assumption|].
      cbn [tl]. now constructor.
Qed.

Lemma characters_join (l : list string) :
  Forall (fun g => isCharacter g = true) l ->
  Forall (fun g => startsWithContinuation g = false) (tl l) ->
  characters (join l) = l.
Proof.
  induction l as [|g rest IH]; intros Hc Hl; [reflexivity|].
  inversion Hc as [|? ? Hg Hrest]; subst. cbn [tl] in Hl.
  destruct g as [|c t]; [discriminate Hg|]. cbn [isCharacter] in Hg.
  change (join (String c t :: rest)) with (String c (t ++ join rest)).
  rewrite characters_group; auto.
  - f_equal. apply IH; auto.
    destruct rest; [constructor|]. inversion Hl; subst. assumption.
  - destruct rest as [|h rest']; [reflexivity|].
    inversion Hl as [|? ? Hh _]; subst.
    inversion Hrest as [|? ? Ch _]; subst.
    destruct h as [|a x]; [discriminate Ch|]. exact Hh.
Qed.

Lemma join_characters (s : string) : join (characters s) = s.
Proof.
  induction s as [|c rest IH]; [reflexivity|].
  cbn [characters]. destruct (characters rest) as [|next others].
  - cbn in IH. now rewrite <- IH.
  - destruct (startsWithContinuation next); cbn in *; now rewrite IH.
Qed.

Section Trimmed.

Variable P : string -> Prop.

Lemma Forall_trimStart (l : list string) :
  Forall P l -> Forall P (trimStart l).
Proof.
  induction 1 as [|g l Hg F IH]; cbn [trimStart]; [constructor|].
  destruct (isWhiteSpace g); auto.
Qed.

Lemma Forall_trimEnd (l : list string) :
  Forall P l -> Forall P (trimEnd l).
Proof.
  induction 1 as [|g l Hg F IH]; cbn [trimEnd]; [constructor|].
  destruct (trimEnd l); [destruct (isWhiteSpace g)|]; auto.
Qed.

Lemma Forall_tl_trimStart (l : list string) :
  Forall P (tl l) -> Forall P (tl (trimStart l)).
Proof.
  destruct l as [|g l]; cbn [trimStart tl]; auto.
  destruct (isWhiteSpace g); auto. intros F.
  pose proof (Forall_trimStart l F) as F'.
  destruct (trimStart l); [constructor|]. now inversion F'.
Qed.

Lemma Forall_tl_trimEnd (l : list string) :
  Forall P (tl l) -> Forall P (tl (trimEnd l)).
Proof.
  destruct l as [|g l]; cbn [trimEnd tl]; auto. intros F.
  pose proof (Forall_trimEnd l F) as F'.
  destruct (trimEnd l); [destruct (isWhiteSpace g); constructor|exact F'].
Qed.

End Trimmed.

Lemma trimStart_fixed (l : list string) : trimStart (trimStart l) = trimStart l.
Proof.
  induction l as [|g l IH]; cbn [trimStart]; auto.
  destruct (isWhiteSpace g) eqn:E; auto. cbn [trimStart]. now rewrite E.
Qed.

Lemma trimEnd_fixed (l : list string) : trimEnd (trimEnd l) = trimEnd l.
Proof.
  induction l as [|g l IH]; cbn [trimEnd]; auto.
  destruct (trimEnd l) as [|g' l'] eqn:E.
  - destruct (isWhiteSpace g) eqn:Eg; cbn [trimEnd]; auto. now rewrite Eg.
  - cbn [trimEnd] in *. cbn [trimEnd]. now rewrite IH.
Qed.

Lemma length_trimStart (l : list string) :
  (length (trimStart l) <= length l)%nat.
Proof.
  induction l as [|g l IH]; cbn [trimStart]; auto.
  destruct (isWhiteSpace g); simpl; lia.
Qed.

Lemma trimStart_trimEnd (l : list string) :
  trimStart l = l -> trimStart (trimEnd l) = trimEnd l.
Proof.
  destruct l as [|g l]; cbn [trimStart trimEnd]; auto.
  destruct (isWhiteSpace g) eqn:E.
  - intros H. pose proof (length_trimStart l) as L.
    rewrite H in L. simpl in L. lia.
  - intros _. destruct (trimEnd l); cbn [trimStart]; now rewrite E.
Qed.

Lemma trim_facts (s : string) :
  (trim s = EmptyString <-> trimsToEmpty s = true)
  /\ trim (trim s) = trim s
  /\ (utf8 s = true -> utf8 (trim s) = true).
Proof.
  destruct (characters_proper s) as [C L].
  set (kept := trimEnd (trimStart (characters s))).
  assert (K : characters (trim s) = kept).
  { unfold trim. apply characters_join.
    - apply Forall_trimEnd, Forall_trimStart, C.
    - apply Forall_tl_trimEnd, Forall_tl_trimStart, L. }
  split; [|split].
  - unfold trimsToEmpty. destruct (String.eqb_spec (trim s) ""); split;
      auto; discriminate.
  - unfold trim at 1. rewrite K. unfold kept.
    rewrite (trimStart_trimEnd _ (trimStart_fixed _)), trimEnd_fixed.
    reflexivity.
  - unfold utf8. rewrite K, !forallb_forall. intros H.
    apply Forall_forall. apply Forall_trimEnd, Forall_trimStart.
    now apply Forall_forall.
Qed.

Lemma truthy_iff (s : string) : truthy s = true <-> s <> EmptyString.
Proof.
  unfold truthy. destruct (String.eqb_spec s ""); simpl; split; auto;
    try discriminate; try contradiction.
Qed.

(** X15. The chat area never posts a blank message.  For every input
    (a string, given by its UTF-8 bytes), [handleSendMessage] sends
    nothing when the input is empty or consists of white space only, the
    white space of [String.prototype.trim]: tab to carriage return,
    space, no-break space, the other space separators, the line and
    paragraph separators and U+FEFF.  Otherwise it posts, for the active
    chat and the current user, the input with the white space at both
    ends removed, which is again a string, is not blank and has nothing
    left to trim; [createMessage], which the handler of
    [POST /api/messages] calls with that body, stores exactly that
    content. *)
Theorem handleSendMessage_never_blank
  (currentUser : User.t) (activeChat : ChatWithMembers.t)
  (messageInput : string) (w : World) :
  utf8 messageInput = true ->
  (trimsToEmpty messageInput = true ->
   ChatView.handleSendMessage currentUser activeChat messageInput = None)
  /\ (trimsToEmpty messageInput = false ->
      exists body,
        ChatView.handleSendMessage currentUser activeChat messageInput
        = Some body
        /\ InsertMessage.chatId body = chatIdOf activeChat
        /\ InsertMessage.senderId body = User.id currentUser
        /\ InsertMessage.content body = trim messageInput
        /\ utf8 (InsertMessage.content body) = true
        /\ trimsToEmpty (InsertMessage.content body) = false
        /\ trim (InsertMessage.content body) = InsertMessage.content body
        /\ Message.content (eval (createMessage body) w)
           = trim messageInput).
Proof.
  intros V.
  destruct (trim_facts messageInput) as (E & T & U).
  destruct (trim_facts (trim messageInput)) as (E' & _).
  unfold ChatView.handleSendMessage. cbv zeta. split.
  - intros H. apply E in H. now rewrite H.
  - intros H.
    assert (N : trim messageInput <> EmptyString).
    { intros Z0. apply E in Z0. congruence. }
    apply truthy_iff in N. rewrite N. eexists. split; [reflexivity|].
    cbn [InsertMessage.chatId InsertMessage.senderId InsertMessage.content].
    split; [reflexivity|]. split; [reflexivity|]. split; [reflexivity|].
    split; [exact (U V)|]. split; [|split; [exact T|reflexivity]].
    apply not_true_is_false. intros B.
    apply E' in B. rewrite T in B. apply truthy_iff in N. contradiction.
Qed.

(** X16. The welcome page registers trimmed names only.  For every name
    typed (a string, given by its UTF-8 bytes), [handleSubmit] sends
    nothing when the name is empty or consists of white space only (the
    white space of [String.prototype.trim]); otherwise it posts the name
    with the white space at both ends removed, which is again a string
    and not blank, and the handler of [POST /api/users] registers
    exactly that name when no user has it and replies 400 without a
    change when one has. *)
Theorem welcome_registers_trimmed_name (username : string) (w : World) :
  utf8 username = true ->
  (trimsToEmpty username = true -> Welcome.handleSubmit username = None)
  /\ (trimsToEmpty username = false ->
      exists body,
        Welcome.handleSubmit username = Some body
        /\ InsertUser.username body = trim username
        /\ utf8 (InsertUser.username body) = true
        /\ trimsToEmpty (InsertUser.username body) = false
        /\ (getUserByUsername (storage w) (trim username) = None ->
            exists user,
              eval (Routes.postUsers body) w = Json user
              /\ User.username user = trim username
              /\ getUserByUsername
                   (storage (exec (Routes.postUsers body) w))
                   (trim username) = Some user)
        /\ (forall existing,
              getUserByUsername (storage w) (trim username) = Some existing ->
              Routes.postUsers body w
              = (Status 400 "Username already taken", w))).
Proof.
  intros V.
  destruct (trim_facts username) as (E & T & U).
  destruct (trim_facts (trim username)) as (E' & _).
  unfold Welcome.handleSubmit. split.
  - intros H. apply E in H. now rewrite H.
  - intros H.
    assert (N : trim username <> EmptyString).
    { intros Z0. apply E in Z0. congruence. }
    pose proof N as N'. apply truthy_iff in N'. rewrite N'. simpl negb.
    eexists. split; [reflexivity|]. cbn [InsertUser.username].
    split; [reflexivity|]. split; [exact (U V)|]. split; [|split].
    + apply not_true_is_false. intros B.
      apply E' in B. rewrite T in B. contradiction.
    + intros F.
      assert (P : Routes.postUsers (InsertUser.mk (trim username)) w
                  = (Json (eval (createUser (InsertUser.mk (trim username))) w),
                     exec (createUser (InsertUser.mk (trim username))) w)).
      { unfold Routes.postUsers, bind at 1, this at 1. cbv beta iota.
        cbn [InsertUser.username]. now rewrite F. }
      unfold eval at 1, exec at 1. rewrite P. cbn [fst snd].
      eexists. split; [reflexivity|]. split; [reflexivity|].
      unfold getUserByUsername in *. simpl.
      apply JsMapFacts.find_set; auto. simpl. apply String.eqb_refl.
    + intros existing F. unfold Routes.postUsers, bind at 1, this at 1.
      cbv beta iota. cbn [InsertUser.username]. now rewrite F.
Qed.

(** ** What the chat list and the chat area show *)

Lemma getChatMembers_users (st : MemStorage) (chatId : Z) :
  Forall (fun e =>
            exists user,
              MemberWithUser.user e = Some user
              /\ getUser st (ChatMember.userId (MemberWithUser.member e))
                 = Some user)
         (getChatMembers st chatId).
Proof.
  unfold getChatMembers, getUser.
  induction (filter (fun member => ChatMember.chatId member =? chatId)
                    (JsMap.values (chatMembers st))) as [|m rows IH];
    simpl; [constructor|].
  destruct (JsMap.get (ChatMember.userId m) (users st)) as [u|] eqn:G;
    simpl; auto.
  constructor; auto. exists u. simpl. auto.
Qed.

Lemma getChatMessages_senders (st : MemStorage) (chatId limit : Z) :
  Forall (fun e => exists user, MessageWithSender.sender e = Some user)
         (getChatMessages st chatId limit).
Proof.
  unfold getChatMessages.
  eapply Forall_impl; [|apply sender_join].
  simpl. intros e (u & E & _). eauto.
Qed.

(** X17. The views never fail on what the server sends.  For every
    projection [getChatWithMembers] returns and every current user,
    [getChatName], [getChatStatus] and [getChatPreview] return a string
    and never raise a [TypeError]: every member and the last message of
    a projection carry their user, because the store filtered out those
    that do not. *)
Theorem chat_views_never_throw
  (st : MemStorage) (id : Z) (cw : ChatWithMembers.t) (currentUser : User.t) :
  getChatWithMembers st id = Some cw ->
  (exists name, ChatView.getChatName currentUser cw = Returns name)
  /\ (exists status, ChatView.getChatStatus currentUser cw = Returns status)
  /\ (exists preview,
        ChatView.getChatPreview currentUser cw = Returns preview).
Proof.
  intros G. unfold getChatWithMembers in G.
  destruct (JsMap.get id (chats st)) as [chat|]; [|discriminate].
  injection G as <-.
  pose proof (getChatMembers_users st id) as Fm.
  pose proof (getChatMessages_senders st id 1) as Fs.
  rewrite Forall_forall in Fm.
  assert (M : forall m,
             ChatView.otherMember currentUser
               {| ChatWithMembers.chat := chat;
                  ChatWithMembers.members := getChatMembers st id;
                  ChatWithMembers.lastMessage :=
                    hd_error (getChatMessages st id 1);
                  ChatWithMembers.unreadCount := Some 0 |} = Some m ->
             exists user, MemberWithUser.user m = Some user).
  { unfold ChatView.otherMember. cbn [ChatWithMembers.members].
    intros m F. apply find_some in F. destruct F as [Hin _].
    destruct (Fm m Hin) as (u & E & _). eauto. }
  unfold ChatView.getChatName, ChatView.getChatStatus,
    ChatView.getChatPreview.
  destruct (ChatView.otherMember currentUser _) as [m|] eqn:O.
  - destruct (M m eq_refl) as [u ->].
    split; [|split].
    + destruct (ChatView.isDirect _); eauto.
    + destruct (ChatView.isDirect _); eauto.
    + cbn [ChatWithMembers.lastMessage].
      destruct (getChatMessages st id 1) as [|e l]; simpl; eauto.
      inversion Fs as [|? ? [s Es] _]; subst. rewrite Es.
      destruct (_ =? _); eauto.
  - split; [|split].
    + destruct (ChatView.isDirect _); eauto.
    + destruct (ChatView.isDirect _); eauto.
    + cbn [ChatWithMembers.lastMessage].
      destruct (getChatMessages st id 1) as [|e l]; simpl; eauto.
      inversion Fs as [|? ? [s Es] _]; subst. rewrite Es.
      destruct (_ =? _); eauto.
Qed.

Lemma two_members (st : MemStorage) (a b : Z) (ua ub : User.t)
  (chat : Chat.t) :
  a <> b -> getUser st a = Some ua -> getUser st b = Some ub ->
  isDirectBetween st a b chat = true ->
  exists ma mb,
    ChatMember.userId ma = a /\ ChatMember.userId mb = b
    /\ let ea := {| MemberWithUser.member := ma;
                    MemberWithUser.user := Some ua |} in
       let eb := {| MemberWithUser.member := mb;
                    MemberWithUser.user := Some ub |} in
       getChatMembers st (Chat.id chat) = [ea; eb]
       \/ getChatMembers st (Chat.id chat) = [eb; ea].
Proof.
  intros Hab Ha Hb D.
  pose proof (isDirectBetween_members st a b chat Hab D) as Ids.
  pose proof (getChatMembers_users st (Chat.id chat)) as F.
  cbv zeta in Ids.
  destruct (getChatMembers st (Chat.id chat)) as [|[m1 u1] [|[m2 u2] [|e l]]];
    simpl in Ids; try (destruct Ids; discriminate).
  inversion F as [|? ? (x1 & E1 & G1) F']; subst.
  inversion F' as [|? ? (x2 & E2 & G2) _]; subst.
  simpl in E1, E2, G1, G2. subst u1 u2.
  destruct Ids as [[= I1 I2]|[= I1 I2]].
  - exists m1, m2. rewrite I1, I2 in *. split; auto. split; auto.
    left. congruence.
  - exists m2, m1. rewrite I1, I2 in *. split; auto. split; auto.
    right. congruence.
Qed.

Lemma direct_reply_members (w : World) (a b : Z) (ua ub : User.t) :
  reachable w -> a <> b ->
  getUser (storage w) a = Some ua -> getUser (storage w) b = Some ub ->
  exists cw ma mb,
    eval (Routes.postChatsDirect a b) w = Json (Some cw)
    /\ ChatView.isDirect cw = true
    /\ ChatMember.userId ma = a /\ ChatMember.userId mb = b
    /\ let ea := {| MemberWithUser.member := ma;
                    MemberWithUser.user := Some ua |} in
       let eb := {| MemberWithUser.member := mb;
                    MemberWithUser.user := Some ub |} in
       ChatWithMembers.members cw = [ea; eb]
       \/ ChatWithMembers.members cw = [eb; ea].
Proof.
  intros R Hab Ha Hb. pose proof (reachable_wf w R) as W.
  destruct (find (Routes.isDirectWith b) (getUserChats (storage w) a))
    as [cw|] eqn:F.
  - pose proof (postChatsDirect_found a b w cw F) as E.
    pose proof (found_is_direct (storage w) W a b ua Ha cw F) as D.
    unfold directChats in D. apply filter_In in D. destruct D as [_ D].
    rewrite find_getUserChats in F.
    destruct (find (rowPasses (storage w) (Routes.isDirectWith b)) _)
      as [x|]; [|discriminate F].
    destruct (getChatWithMembers_inv _ _ _ F) as [_ Hm].
    pose proof (getChatWithMembers_id _ _ _ W F) as Hid.
    unfold chatIdOf in Hid.
    destruct (two_members (storage w) a b ua ub _ Hab Ha Hb D)
      as (ma & mb & Ia & Ib & M).
    exists cw, ma, mb. unfold eval. rewrite E. cbn [fst].
    split; [reflexivity|]. split.
    + unfold isDirectBetween in D. unfold ChatView.isDirect.
      apply andb_prop in D. destruct D as [D _].
      apply andb_prop in D. destruct D as [D _].
      apply andb_prop in D. now destruct D.
    + split; [exact Ia|]. split; [exact Ib|].
      cbv zeta in *. rewrite Hm. rewrite Hid in M. exact M.
  - pose proof (postChatsDirect_not_found a b w F) as E.
    destruct (directCreated_chat w W a b ua ub Ha Hb)
      as (cw & G & Hc & Hm & Pb).
    eexists cw, _, _. unfold eval. rewrite E. cbn [fst]. rewrite G.
    split; [reflexivity|]. split.
    + unfold ChatView.isDirect. now rewrite Hc.
    + split; [|split]; [| |left;
        rewrite Hm; apply (directCreated_members w W a b ua ub Ha Hb)];
        reflexivity.
Qed.

(** X18. A direct chat is named after the other user.  In a reachable
    world, for two distinct existing users with non-empty usernames, the
    chat [POST /api/chats/direct] answers with is shown to each of them
    under the username of the other, and its status line says whether
    the other one is online. *)
Theorem direct_chat_is_named_after_the_other
  (w : World) (a b : Z) (ua ub : User.t) :
  reachable w -> a <> b ->
  getUser (storage w) a = Some ua -> getUser (storage w) b = Some ub ->
  User.username ua <> EmptyString -> User.username ub <> EmptyString ->
  exists cw,
    eval (Routes.postChatsDirect a b) w = Json (Some cw)
    /\ ChatView.getChatName ua cw = Returns (User.username ub)
    /\ ChatView.getChatName ub cw = Returns (User.username ua)
    /\ ChatView.getChatStatus ua cw
       = Returns (if User.isOnline ub then "Online" else "Offline")%string
    /\ ChatView.getChatStatus ub cw
       = Returns (if User.isOnline ua then "Online" else "Offline")%string.
Proof.
  intros R Hab Ha Hb Na Nb. pose proof (reachable_wf w R) as W.
  destruct (direct_reply_members w a b ua ub R Hab Ha Hb)
    as (cw & ma & mb & E & D & Ia & Ib & M).
  destruct (table_get_id (wf_users W) Ha) as [Ida _].
  destruct (table_get_id (wf_users W) Hb) as [Idb _].
  apply truthy_iff in Na. apply truthy_iff in Nb.
  assert (Eab : (a =? b) = false) by now apply Z.eqb_neq.
  assert (Eba : (b =? a) = false) by (apply Z.eqb_neq; congruence).
  exists cw. split; [exact E|].
  unfold ChatView.getChatName, ChatView.getChatStatus, ChatView.otherMember.
  rewrite D, Ida, Idb. cbv zeta in M.
  destruct M as [-> | ->]; cbn [find MemberWithUser.member MemberWithUser.user];
    rewrite Ia, Ib, !Z.eqb_refl, ?Eab, ?Eba;
    cbn [negb MemberWithUser.user]; rewrite ?Na, ?Nb; repeat split.
Qed.

(** ** Creating a group from the dialog *)

Lemma toggle_in (userId other : Z) (prev : list Z) :
  In other (CreateGroupModal.handleMemberToggle userId prev)
  <-> (other = userId /\ ~ In userId prev)
      \/ (other <> userId /\ In other prev).
Proof.
  unfold CreateGroupModal.handleMemberToggle.
  destruct (existsb (fun id => id =? userId) prev) eqn:E.
  - apply existsb_exists in E. destruct E as (x & Hx & Ex).
    apply Z.eqb_eq in Ex. subst x. rewrite filter_In. split.
    + intros [Hin Hne]. right. split; auto.
      intros ->. now rewrite Z.eqb_refl in Hne.
    + intros [[-> N]|[Hne Hin]]; [contradiction|]. split; auto.
      apply Z.eqb_neq in Hne. now rewrite Hne.
  - assert (N : ~ In userId prev).
    { intros Hin. assert (T : existsb (fun id => id =? userId) prev = true).
      { apply existsb_exists. exists userId. split; auto. apply Z.eqb_refl. }
      congruence. }
    rewrite in_app_iff. simpl. split.
    + intros [Hin|[<-|[]]]; [right|left]; auto. split; auto.
      intros ->. contradiction.
    + intros [[-> _]|[_ Hin]]; auto.
Qed.

Lemma toggle_NoDup (userId : Z) (prev : list Z) :
  NoDup prev -> NoDup (CreateGroupModal.handleMemberToggle userId prev).
Proof.
  intros N. unfold CreateGroupModal.handleMemberToggle.
  destruct (existsb (fun id => id =? userId) prev) eqn:E.
  - now apply NoDup_filter.
  - apply NoDup_snoc; auto. intros Hin.
    assert (T : existsb (fun id => id =? userId) prev = true).
    { apply existsb_exists. exists userId. split; auto. apply Z.eqb_refl. }
    congruence.
Qed.

(** X19. [handleMemberToggle] keeps the selection a set.  Toggling an id
    selects it when it was not selected and unselects it when it was,
    leaves every other id as it was, never introduces a duplicate, and
    toggling an unselected id twice gives back the selection. *)
Theorem handleMemberToggle_is_a_set_toggle (userId : Z) (prev : list Z) :
  let next := CreateGroupModal.handleMemberToggle userId prev in
  (In userId next <-> ~ In userId prev)
  /\ (forall other, other <> userId -> (In other next <-> In other prev))
  /\ (NoDup prev -> NoDup next)
  /\ (~ In userId prev ->
      CreateGroupModal.handleMemberToggle userId next = prev).
Proof.
  cbv zeta. split; [|split; [|split]].
  - rewrite toggle_in. split.
    + intros [[_ N]|[Hne _]]; [exact N | congruence].
    + intros N. left. auto.
  - intros other Hne. rewrite toggle_in. split.
    + intros [[-> _]|[_ Hin]]; [congruence | exact Hin].
    + intros Hin. right. auto.
  - apply toggle_NoDup.
  - intros N. unfold CreateGroupModal.handleMemberToggle.
    assert (E : existsb (fun id => id =? userId) prev = false).
    { destruct (existsb _ prev) eqn:E; auto.
      apply existsb_exists in E. destruct E as (x & Hx & Ex).
      apply Z.eqb_eq in Ex. subst x. contradiction. }
    rewrite E.
    assert (T : existsb (fun id => id =? userId) (prev ++ [userId]) = true).
    { apply existsb_exists. exists userId. split; [|apply Z.eqb_refl].
      apply in_or_app. right. now left. }
    rewrite T, filter_app. simpl. rewrite Z.eqb_refl. simpl.
    rewrite app_nil_r. apply filter_all.
    rewrite Forall_forall. intros x Hx.
    destruct (x =? userId) eqn:Ex; auto.
    apply Z.eqb_eq in Ex. subst x. contradiction.
Qed.

Lemma selectedAfter_spec (clicks : list Z) :
  NoDup (selectedAfter clicks)
  /\ forall id, In id (selectedAfter clicks) -> In id clicks.
Proof.
  unfold selectedAfter.
  assert (G : forall sel,
             NoDup sel ->
             NoDup (fold_left
                      (fun selected userId =>
                         CreateGroupModal.handleMemberToggle userId selected)
                      clicks sel)
             /\ forall id,
                 In id (fold_left
                          (fun selected userId =>
                             CreateGroupModal.handleMemberToggle userId
                               selected)
                          clicks sel) ->
                 In id sel \/ In id clicks).
  { induction clicks as [|c clicks IH]; intros sel N; simpl; auto.
    destruct (IH (CreateGroupModal.handleMemberToggle c sel)
                (toggle_NoDup c sel N)) as [N' I'].
    split; auto. intros id Hin. apply I' in Hin.
    destruct Hin as [Hin|Hin]; auto.
    apply toggle_in in Hin. destruct Hin as [[-> _]|[_ Hin]]; auto. }
  destruct (G [] (NoDup_nil _)) as [N I]. split; auto.
  intros id Hin. destruct (I id Hin) as [[]|H]; exact H.
Qed.

(** X20. A group created from the dialog has every member once.  When
    the clicks went to users the dialog offers (online users other than
    the current one), the name typed (a string, given by its UTF-8
    bytes) does not consist of white space only (the white space of
    [String.prototype.trim]) and the selection is not empty,
    [handleSubmit] posts the name with the white space at both ends
    removed, type 'group', the current user as creator and the
    selection, and in a reachable world [POST /api/chats] then gives the
    new chat one row for the creator followed by one row per selected
    id, no user twice. *)
Theorem group_from_dialog_has_each_member_once
  (w : World) (currentUser : User.t) (onlineUsers : list User.t)
  (groupName : string) (clicks : list Z) :
  reachable w ->
  Forall (fun id =>
            In id (map User.id
                     (CreateGroupModal.availableUsers currentUser
                        onlineUsers)))
         clicks ->
  utf8 groupName = true ->
  trimsToEmpty groupName = false ->
  selectedAfter clicks <> [] ->
  exists chatData,
    CreateGroupModal.handleSubmit currentUser groupName (selectedAfter clicks)
    = Some (chatData, Some (selectedAfter clicks))
    /\ InsertChat.name chatData = Some (trim groupName)
    /\ InsertChat.type chatData = "group"%string
    /\ let w' := exec (Routes.postChats chatData
                         (Some (selectedAfter clicks))) w in
       map ChatMember.userId
           (rowsOfChat (storage w') (currentChatId (storage w)))
       = User.id currentUser :: selectedAfter clicks
       /\ NoDup (User.id currentUser :: selectedAfter clicks).
Proof.
  intros R Av _ Name Sel.
  destruct (trim_facts groupName) as (E & _).
  destruct (selectedAfter_spec clicks) as [N I].
  assert (Other : Forall (fun id => (id =? User.id currentUser) = false)
                         (selectedAfter clicks)).
  { rewrite Forall_forall in *. intros id Hin.
    specialize (Av id (I id Hin)). apply in_map_iff in Av.
    destruct Av as (u & <- & Hu).
    unfold CreateGroupModal.availableUsers in Hu. apply filter_In in Hu.
    destruct Hu as [_ Hu]. now apply negb_true_iff in Hu. }
  unfold CreateGroupModal.handleSubmit.
  assert (T : truthy (trim groupName) = true).
  { apply truthy_iff. intros Z0. apply E in Z0. congruence. }
  rewrite T. simpl negb.
  assert (L : (Z.of_nat (length (selectedAfter clicks)) =? 0) = false).
  { apply Z.eqb_neq. destruct (selectedAfter clicks); simpl in *;
      [contradiction | lia]. }
  rewrite L. eexists. split; [reflexivity|].
  cbn [InsertChat.name InsertChat.type]. split; [reflexivity|].
  split; [reflexivity|].
  destruct (postChats_creates w
              {| InsertChat.name := Some (trim groupName);
                 InsertChat.type := "group";
                 InsertChat.createdBy := User.id currentUser |}
              (Some (selectedAfter clicks)) R)
    as (cw & _ & _ & _ & Rows & _).
  cbn [InsertChat.createdBy] in Rows.
  rewrite (filter_all _ (selectedAfter clicks)) in Rows.
  - split; [exact Rows|]. constructor; auto.
    intros Hin. rewrite Forall_forall in Other.
    specialize (Other _ Hin). now rewrite Z.eqb_refl in Other.
  - eapply Forall_impl; [|exact Other]. simpl. intros id ->. reflexivity.
Qed.

(** ** The SQL store returns the oldest messages *)

(** X21. [DatabaseStorage.getChatMessages] keeps the oldest messages.
    On the tables of a reachable store whose chat has its messages in
    strictly increasing sent-time order, the query has an answer, and
    every answer SQL allows is the first [limit] of the chat's messages
    with an existing sender, each joined to that sender;
    [MemStorage.getChatMessages] returns the last [limit] of the chat's
    messages instead (without those whose sender does not resolve). *)
Theorem DatabaseStorage_keeps_oldest (w : World) (chatId : Z) (limit : nat) :
  reachable w ->
  let st := storage w in
  StronglySorted (fun a b => Message.sentAt a < Message.sentAt b)
                 (timeline st chatId) ->
  (exists answer,
     DatabaseStorage.getChatMessages (tablesOf st) chatId limit answer)
  /\ (forall answer,
        DatabaseStorage.getChatMessages (tablesOf st) chatId limit answer ->
        map fst answer
        = firstn limit (filter (senderResolves st) (timeline st chatId))
        /\ Forall (fun row =>
                     getUser st (Message.senderId (fst row))
                     = Some (snd row))
                  answer)
  /\ map MessageWithSender.message
         (getChatMessages st chatId (Z.of_nat limit))
     = filter (senderResolves st) (lastN limit (timeline st chatId)).
Proof.
  intros R st Asc. pose proof (reachable_wf w R) as W.
  destruct (joinedRows_spec st (timeline st chatId)) as [M I].
  split; [|split].
  - eexists. now apply (DatabaseStorage_answer st chatId limit _ W Asc).
  - intros answer A.
    apply (DatabaseStorage_answer st chatId limit _ W Asc) in A.
    split.
    + rewrite A, <- M. symmetry. apply firstn_map.
    + rewrite A, Forall_forall. intros row Hin.
      apply (I row).
      rewrite <- (firstn_skipn limit (joinedRows st (timeline st chatId))).
      apply in_or_app. now left.
  - rewrite getChatMessages_joined.
    rewrite (sort_newestFirst_ascending _ Asc).
    rewrite JsArrayFacts.slice0_firstn by lia.
    rewrite JsSortFacts.rev_firstn, rev_involutive, Nat2Z.id. reflexivity.
Qed.

(** ** The chat in the chat lists, its preview and its status *)

Lemma direct_reply_found_again (w : World) (a b : Z) (ua ub : User.t) :
  reachable w -> a <> b ->
  getUser (storage w) a = Some ua -> getUser (storage w) b = Some ub ->
  let w1 := exec (Routes.postChatsDirect a b) w in
  exists cw,
    eval (Routes.postChatsDirect a b) w = Json (Some cw)
    /\ find (Routes.isDirectWith b) (getUserChats (storage w1) a) = Some cw
    /\ find (Routes.isDirectWith a) (getUserChats (storage w1) b) = Some cw.
Proof.
  intros R Hab Ha Hb w1.
  assert (R1 : reachable w1)
    by exact (reachable_handle w (PostChatsDirect a b) R).
  pose proof (reachable_wf w R) as W.
  pose proof (reachable_rowsByChat w1 R1) as S1.
  destruct (find (Routes.isDirectWith b) (getUserChats (storage w) a))
    as [cw|] eqn:F.
  - pose proof (postChatsDirect_found a b w cw F) as E.
    assert (E1 : w1 = w) by (unfold w1, exec; now rewrite E).
    exists cw. unfold eval. rewrite E, E1. cbn [fst].
    split; [reflexivity|]. split; [exact F|].
    rewrite E1 in S1. exact (find_symmetric (storage w) S1 a b ua ub cw Ha Hb F).
  - pose proof (postChatsDirect_not_found a b w F) as E.
    assert (E1 : w1 = directCreated a b w)
      by (unfold w1, exec; now rewrite E).
    destruct (directCreated_chat w W a b ua ub Ha Hb)
      as (cw & G & Hc & Hm & Pb).
    assert (U : users (storage w1) = users (storage w)).
    { rewrite E1, (directCreated_storage w W a b). reflexivity. }
    assert (Ha1 : getUser (storage w1) a = Some ua)
      by (unfold getUser in *; now rewrite U).
    assert (Hb1 : getUser (storage w1) b = Some ub)
      by (unfold getUser in *; now rewrite U).
    assert (F1 : find (Routes.isDirectWith b) (getUserChats (storage w1) a)
                 = Some cw).
    { rewrite E1,
        (directCreated_userChats w W a b Hab a cw (or_introl eq_refl) G).
      rewrite (find_app_last _ _ _ F). now rewrite Pb. }
    exists cw. unfold eval. rewrite E. cbn [fst]. rewrite G.
    split; [reflexivity|]. split; [exact F1|].
    exact (find_symmetric (storage w1) S1 a b ua ub cw Ha1 Hb1 F1).
Qed.

(** X22. The direct chat shows up for both users.  In a reachable world,
    after [POST /api/chats/direct] for two distinct existing users, the
    chat it answered with is among [getUserChats] of each of the two, and
    passes the filter of the "direct" tab of the chat list. *)
Theorem direct_chat_in_both_lists (w : World) (a b : Z) (ua ub : User.t) :
  reachable w -> a <> b ->
  getUser (storage w) a = Some ua -> getUser (storage w) b = Some ub ->
  let w1 := exec (Routes.postChatsDirect a b) w in
  exists cw,
    eval (Routes.postChatsDirect a b) w = Json (Some cw)
    /\ In cw (filter ChatView.isDirect (getUserChats (storage w1) a))
    /\ In cw (filter ChatView.isDirect (getUserChats (storage w1) b)).
Proof.
  intros R Hab Ha Hb w1.
  destruct (direct_reply_found_again w a b ua ub R Hab Ha Hb)
    as (cw & E & Fa & Fb).
  fold w1 in Fa, Fb. exists cw. split; [exact E|].
  apply find_some in Fa. apply find_some in Fb.
  destruct Fa as [Ia Pa]. destruct Fb as [Ib Pb].
  destruct (isDirectWith_inv _ _ Pa) as (T & _).
  split; apply filter_In; split; auto.
Qed.

(** X23. The preview follows the message just sent.  In a reachable
    world, when the current user (stored under its id) sends an input (a
    string, given by its UTF-8 bytes) that does not consist of white
    space only (the white space of [String.prototype.trim]) from the
    chat area of an existing chat, at a time later than every message of
    that chat, the projection of the chat read afterwards has that
    message as [lastMessage]; the chat list previews it as "You: " and
    the trimmed input for the sender, and as the sender's username, ": "
    and the trimmed input for everybody else. *)
Theorem preview_after_sending
  (w : World) (currentUser sender : User.t) (activeChat : ChatWithMembers.t)
  (messageInput : string) :
  reachable w ->
  getUser (storage w) (User.id currentUser) = Some sender ->
  getChat (storage w) (chatIdOf activeChat)
  = Some (ChatWithMembers.chat activeChat) ->
  Forall (fun m => Message.sentAt m < clock w (dateReads w))
         (timeline (storage w) (chatIdOf activeChat)) ->
  utf8 messageInput = true ->
  trimsToEmpty messageInput = false ->
  exists body cw,
    ChatView.handleSendMessage currentUser activeChat messageInput = Some body
    /\ getChatWithMembers (storage (exec (Routes.postMessages body) w))
         (chatIdOf activeChat) = Some cw
    /\ option_map MessageWithSender.message (ChatWithMembers.lastMessage cw)
       = Some (eval (createMessage body) w)
    /\ ChatView.getChatPreview currentUser cw
       = Returns ("You: " ++ trim messageInput)%string
    /\ (forall reader,
          User.id reader <> User.id currentUser ->
          ChatView.getChatPreview reader cw
          = Returns (User.username sender ++ ": " ++ trim messageInput)%string).
Proof.
  intros R Hs Hc Later _ Blank.
  destruct (trim_facts messageInput) as (E & _).
  assert (T : truthy (trim messageInput) = true).
  { apply truthy_iff. intros Z0. apply E in Z0. congruence. }
  unfold ChatView.handleSendMessage. cbv zeta. rewrite T.
  fold (chatIdOf activeChat).
  set (body := {| InsertMessage.chatId := chatIdOf activeChat;
                  InsertMessage.content := trim messageInput;
                  InsertMessage.senderId := User.id currentUser |}).
  assert (Ex : exec (Routes.postMessages body) w
               = exec (createMessage body) w).
  { unfold Routes.postMessages. now run. }
  destruct (createMessage_appends_entry w body sender 1 R Hs Later
              (Z.le_refl 1)) as [L _].
  cbn [InsertMessage.chatId body] in L.
  change (getChatMessages (storage w) (chatIdOf activeChat) (1 - 1))
    with (@nil MessageWithSender.t) in L.
  exists body. eexists. split; [reflexivity|].
  rewrite Ex. unfold getChatWithMembers.
  assert (C : JsMap.get (chatIdOf activeChat)
                (chats (storage (exec (createMessage body) w)))
              = Some (ChatWithMembers.chat activeChat)) by exact Hc.
  rewrite C. split; [reflexivity|].
  unfold ChatView.getChatPreview. cbn [ChatWithMembers.lastMessage].
  rewrite L. cbn [app hd_error option_map MessageWithSender.message
                  MessageWithSender.sender].
  split; [reflexivity|].
  replace (Message.senderId (eval (createMessage body) w))
    with (User.id currentUser) by reflexivity.
  replace (Message.content (eval (createMessage body) w))
    with (trim messageInput) by reflexivity.
  rewrite Z.eqb_refl. split; [reflexivity|].
  intros reader Hne.
  assert (Ne : (User.id currentUser =? User.id reader) = false)
    by (apply Z.eqb_neq; congruence).
  now rewrite Ne.
Qed.

(** ** Presence in the chat projections *)

Lemma getChatMembers_after_status (w : World) (b : Z) (ub : User.t)
  (flag : bool) (chatId : Z) :
  getUser (storage w) b = Some ub ->
  let w' := exec (Routes.putUsersStatus b flag) w in
  let ub' := {| User.id := User.id ub; User.username := User.username ub;
                User.isOnline := flag;
                User.lastSeen := clock w (dateReads w) |} in
  chats (storage w') = chats (storage w)
  /\ getChatMembers (storage w') chatId
     = map (fun e =>
              if ChatMember.userId (MemberWithUser.member e) =? b
              then {| MemberWithUser.member := MemberWithUser.member e;
                      MemberWithUser.user := Some ub' |}
              else e)
           (getChatMembers (storage w) chatId).
Proof.
  intros G w' ub'.
  assert (E : storage w'
              = setUsers (JsMap.set b ub' (users (storage w)))
                         (currentUserId (storage w)) (storage w)).
  { unfold w', Routes.putUsersStatus, updateUserOnlineStatus, exec, bind,
      this. simpl. unfold getUser in G. rewrite G. reflexivity. }
  rewrite E. split; [reflexivity|].
  unfold getChatMembers. cbn [chatMembers users setUsers].
  induction (filter (fun member => ChatMember.chatId member =? chatId)
                    (JsMap.values (chatMembers (storage w)))) as [|m rows IH];
    [reflexivity|].
  cbn [map filter MemberWithUser.user].
  destruct (Z.eq_dec (ChatMember.userId m) b) as [Hb|Hb].
  - rewrite Hb, JsMapFacts.get_set_same. unfold getUser in G. rewrite G.
    cbn [JsArray.isDefined map MemberWithUser.member]. rewrite Hb, Z.eqb_refl.
    now rewrite <- IH.
  - rewrite (JsMapFacts.get_set_other Hb).
    destruct (JsMap.get (ChatMember.userId m) (users (storage w))) as [u|];
      cbn [JsArray.isDefined map MemberWithUser.member]; [|exact IH].
    apply Z.eqb_neq in Hb. rewrite Hb. now rewrite <- IH.
Qed.

(** X24. Presence is joined when a chat is read.  When an existing user's
    status is set by [PUT /api/users/:id/status], the member lists read
    afterwards are the ones read before with that user's entries carrying
    the new flag and the time of the request, and every other entry as it
    was.  So in a reachable world the status line of a direct chat with
    that user says "Online" exactly when the flag sent was true. *)
Theorem presence_shows_in_chats (w : World) (b : Z) (ub : User.t)
  (flag : bool) :
  reachable w ->
  getUser (storage w) b = Some ub ->
  let w' := exec (Routes.putUsersStatus b flag) w in
  let ub' := {| User.id := User.id ub; User.username := User.username ub;
                User.isOnline := flag;
                User.lastSeen := clock w (dateReads w) |} in
  (forall chatId,
     getChatMembers (storage w') chatId
     = map (fun e =>
              if ChatMember.userId (MemberWithUser.member e) =? b
              then {| MemberWithUser.member := MemberWithUser.member e;
                      MemberWithUser.user := Some ub' |}
              else e)
           (getChatMembers (storage w) chatId))
  /\ (forall a ua chatId cw,
        a <> b -> getUser (storage w) a = Some ua ->
        getChatWithMembers (storage w) chatId = Some cw ->
        isDirectBetween (storage w) a b (ChatWithMembers.chat cw) = true ->
        exists cw',
          getChatWithMembers (storage w') chatId = Some cw'
          /\ ChatView.getChatStatus ua cw'
             = Returns (if flag then "Online" else "Offline")%string).
Proof.
  intros R G w' ub'. pose proof (reachable_wf w R) as W.
  split.
  - intros chatId.
    exact (proj2 (getChatMembers_after_status w b ub flag chatId G)).
  - intros a ua chatId cw Hab Ha Hcw D.
    destruct (getChatMembers_after_status w b ub flag chatId G) as [Ec Em].
    fold w' in Ec, Em.
    pose proof (getChatWithMembers_id _ _ _ W Hcw) as Hid.
    unfold chatIdOf in Hid.
    destruct (two_members (storage w) a b ua ub _ Hab Ha G D)
      as (ma & mb & Ia & Ib & M).
    cbv zeta in M. rewrite Hid in M.
    destruct (table_get_id (wf_users W) Ha) as [Ida _].
    assert (T : ChatView.isDirect cw = true).
    { unfold isDirectBetween in D. unfold ChatView.isDirect.
      apply andb_prop in D. destruct D as [D _].
      apply andb_prop in D. destruct D as [D _].
      apply andb_prop in D. now destruct D. }
    unfold getChatWithMembers in Hcw |- *. rewrite Ec.
    destruct (JsMap.get chatId (chats (storage w))) as [chat|];
      [|discriminate Hcw].
    injection Hcw as <-. eexists. split; [reflexivity|].
    unfold ChatView.isDirect in T. cbn [ChatWithMembers.chat] in T.
    unfold ChatView.getChatStatus, ChatView.otherMember, ChatView.isDirect.
    cbn [ChatWithMembers.chat ChatWithMembers.members]. rewrite T, Em, Ida.
    assert (Eab : (a =? b) = false) by now apply Z.eqb_neq.
    assert (Eba : (b =? a) = false) by (apply Z.eqb_neq; congruence).
    destruct M as [-> | ->];
      cbn [map find MemberWithUser.member MemberWithUser.user];
      repeat (rewrite ?Ia, ?Ib, ?Z.eqb_refl, ?Eab, ?Eba;
              cbn [negb find MemberWithUser.member MemberWithUser.user
                   User.isOnline]);
      reflexivity.
Qed.

(** ** The further properties on the sample worlds *)

Lemma teamOfThree_reachable (clk : nat -> Z) : reachable (teamOfThree clk).
Proof. apply reachable_serve, reachable_boot. Qed.

Lemma lookup_by_id_is_dense_witness :
  let st := storage (aliceAndBob tickingClock) in
  currentUserId st = 3
  /\ ((exists user, getUser st 3 = Some user) <-> 1 <= 3 < currentUserId st)
  /\ (exists user, getUser st 2 = Some user).
Proof.
  split; [reflexivity|]. split.
  - exact (proj1 (proj1 (lookup_by_id_is_dense
                           (aliceAndBob tickingClock) 3
                           (aliceAndBob_reachable tickingClock)))).
  - apply (proj1 (proj1 (lookup_by_id_is_dense
                           (aliceAndBob tickingClock) 2
                           (aliceAndBob_reachable tickingClock)))).
    now vm_compute.
Defined.

Lemma getChatsById_not_found_witness :
  let w := aliceAndBob tickingClock in
  Routes.getChatsById 5 w = (Status 404 "Chat not found", w)
  /\ exists chat, Routes.getChatsById 1 w = (Json chat, w).
Proof.
  split.
  - apply (proj2 (getChatsById_not_found (aliceAndBob tickingClock) 5
                    (aliceAndBob_reachable tickingClock))).
    vm_compute. intros [_ H]. discriminate H.
  - destruct (proj1 (getChatsById_not_found (aliceAndBob tickingClock) 1
                       (aliceAndBob_reachable tickingClock)))
      as (chat & E & _); [now vm_compute|].
    exists chat. exact E.
Defined.

Lemma usernames_are_unique_witness :
  let st := storage (aliceAndBob tickingClock) in
  NoDup (map User.username (JsMap.values (users st)))
  /\ getUserByUsername st "bob" = Some bobStored.
Proof.
  destruct (usernames_are_unique (aliceAndBob tickingClock)
              (aliceAndBob_reachable tickingClock)) as [N H].
  split; [exact N|].
  apply (proj2 (H "bob"%string bobStored)). split; reflexivity.
Defined.

Lemma requests_never_remove_witness :
  let w := aliceAndBob tickingClock in
  grows (storage w) (storage (handle (PostMessages (say 1 1 "again")) w)).
Proof.
  exact (requests_never_remove (aliceAndBob tickingClock)
           (PostMessages (say 1 1 "again"))
           (aliceAndBob_reachable tickingClock)).
Defined.

Lemma putUsersStatus_online_witness :
  let w := aliceAndBob tickingClock in
  let w' := exec (Routes.putUsersStatus 2 false) w in
  map User.id (getOnlineUsers (storage w')) = [1]
  /\ (In 1 (map User.id (getOnlineUsers (storage w')))
      <-> In 1 (map User.id (getOnlineUsers (storage w)))).
Proof.
  split; [reflexivity|].
  apply (proj2 (putUsersStatus_online (aliceAndBob tickingClock) 2 false
                  (aliceAndBob_reachable tickingClock))).
  discriminate.
Defined.

Lemma postChats_members_witness :
  let w := aliceAndBobRegistered tickingClock in
  let w' := exec (Routes.postChats (teamChat 1) (Some [2; 1; 7; 2])) w in
  exists cw,
    eval (Routes.postChats (teamChat 1) (Some [2; 1; 7; 2])) w
    = Json (Some cw)
    /\ map ChatMember.userId (rowsOfChat (storage w') 1) = [1; 2; 7; 2]
    /\ map (fun e => ChatMember.userId (MemberWithUser.member e))
           (ChatWithMembers.members cw) = [1; 2; 2].
Proof.
  destruct (postChats_members (aliceAndBobRegistered tickingClock)
              (teamChat 1) (Some [2; 1; 7; 2])
              (aliceAndBobRegistered_reachable tickingClock))
    as (cw & E & _ & _ & Rows & Members).
  exists cw. split; [exact E|]. split; [exact Rows|exact Members].
Defined.

Lemma getChatMessages_limit_edges_witness :
  let st := storage threeMessages in
  messageIds (getChatMessages st 1 (-1)) = [2; 3]
  /\ exists byTime,
      Permutation byTime (timeline st 1)
      /\ map MessageWithSender.message (getChatMessages st 1 (-1))
         = filter (senderResolves st) (skipn 1 byTime).
Proof.
  split; [reflexivity|].
  destruct (getChatMessages_limit_edges threeMessages 1 (-1)
              threeMessages_reachable)
    as (byTime & P & _ & _ & _ & _ & H).
  exists byTime. split; [exact P|]. apply H. reflexivity.
Defined.

Lemma lastMessage_is_newest_witness :
  let st := storage (aliceAndBob tickingClock) in
  exists cw newest,
    getChatWithMembers st 1 = Some cw
    /\ In newest (timeline st 1)
    /\ ChatWithMembers.lastMessage cw
       = match getUser st (Message.senderId newest) with
         | Some user =>
             Some {| MessageWithSender.message := newest;
                     MessageWithSender.sender := Some user |}
         | None => None
         end.
Proof.
  cbv zeta.
  destruct (getChatWithMembers (storage (aliceAndBob tickingClock)) 1)
    as [cw|] eqn:G; [|vm_compute in G; discriminate G].
  destruct (lastMessage_is_newest (aliceAndBob tickingClock) 1 cw
              (aliceAndBob_reachable tickingClock) G) as [_ H].
  destruct H as (newest & I & _ & L); [vm_compute; discriminate|].
  exists cw, newest. split; [reflexivity|]. split; [exact I|exact L].
Defined.

Lemma createMessage_comes_last_witness :
  let w := aliceAndBob tickingClock in
  let st := storage w in
  let st' := storage (exec (createMessage (say 1 2 "again")) w) in
  messageIds (getChatMessages st' 1 50) = [1; 2; 3]
  /\ getChatMessages st' 1 50
     = getChatMessages st 1 49
       ++ [{| MessageWithSender.message :=
                eval (createMessage (say 1 2 "again")) w;
              MessageWithSender.sender := Some bobStored |}].
Proof.
  split; [reflexivity|].
  refine (proj1 (createMessage_comes_last (aliceAndBob tickingClock)
                   (say 1 2 "again") bobStored 50
                   (aliceAndBob_reachable tickingClock) eq_refl _ _)).
  - vm_compute. repeat constructor.
  - now vm_compute.
Defined.

Lemma addChatMember_shows_member_witness :
  let w := aliceAndBob tickingClock in
  let st := storage w in
  let st' := storage (exec (addChatMember 1 1) w) in
  map (fun e => ChatMember.userId (MemberWithUser.member e))
      (getChatMembers st' 1) = [1; 2; 1]
  /\ getChatMembers st' 1
     = getChatMembers st 1
       ++ [{| MemberWithUser.member :=
                {| ChatMember.id := 3; ChatMember.chatId := 1;
                   ChatMember.userId := 1; ChatMember.joinedAt := 7000 |};
              MemberWithUser.user := Some aliceStored |}].
Proof.
  split; [reflexivity|].
  exact (proj1 (addChatMember_shows_member (aliceAndBob tickingClock) 1 1
                  (aliceAndBob_reachable tickingClock))).
Defined.

Lemma postChatsDirect_with_oneself_witness :
  let w := aliceAndBobRegistered tickingClock in
  let w1 := exec (Routes.postChatsDirect 1 1) w in
  exists cw,
    eval (Routes.postChatsDirect 1 1) w = Json (Some cw)
    /\ Routes.postChatsDirect 1 1 w1 = (Json (Some cw), w1)
    /\ map (fun e => ChatMember.userId (MemberWithUser.member e))
           (ChatWithMembers.members cw) = [1; 1].
Proof.
  destruct (postChatsDirect_with_oneself
              (aliceAndBobRegistered tickingClock) 1 aliceStored
              (aliceAndBobRegistered_reachable tickingClock) eq_refl)
    as (cw & E & I & _ & H).
  exists cw. split; [exact E|]. split; [exact I|].
  apply H. reflexivity.
Defined.

Lemma handleSendMessage_never_blank_witness :
  let typed := (noBreakSpace ++ "hi there" ++ lineSeparator)%string in
  ChatView.handleSendMessage aliceStored openedChat
    (noBreakSpace ++ byteOrderMark) = None
  /\ exists body,
      ChatView.handleSendMessage aliceStored openedChat typed = Some body
      /\ InsertMessage.content body = "hi there"%string.
Proof.
  split.
  - apply (proj1 (handleSendMessage_never_blank aliceStored openedChat
                    (noBreakSpace ++ byteOrderMark)%string
                    (boot tickingClock) eq_refl)).
    reflexivity.
  - destruct (proj2 (handleSendMessage_never_blank aliceStored openedChat
                       (noBreakSpace ++ "hi there" ++ lineSeparator)%string
                       (boot tickingClock) eq_refl) eq_refl)
      as (body & S & _ & _ & C & _).
    exists body. split; [exact S|exact C].
Defined.

Lemma welcome_registers_trimmed_name_witness :
  let w := boot tickingClock in
  Welcome.handleSubmit ideographicSpace = None
  /\ exists body user,
      Welcome.handleSubmit ("alice" ++ noBreakSpace) = Some body
      /\ InsertUser.username body = "alice"%string
      /\ eval (Routes.postUsers body) w = Json user
      /\ User.username user = "alice"%string.
Proof.
  split.
  - apply (proj1 (welcome_registers_trimmed_name ideographicSpace
                    (boot tickingClock) eq_refl)).
    reflexivity.
  - destruct (proj2 (welcome_registers_trimmed_name
                       ("alice" ++ noBreakSpace)%string
                       (boot tickingClock) eq_refl) eq_refl)
      as (body & S & N & _ & _ & Free & _).
    destruct (Free eq_refl) as (user & E & U & _).
    exists body, user. split; [exact S|]. split; [exact N|].
    split; [exact E|exact U].
Defined.

Lemma chat_views_never_throw_witness :
  let st := storage (aliceAndBob tickingClock) in
  exists cw name preview,
    getChatWithMembers st 1 = Some cw
    /\ ChatView.getChatName aliceStored cw = Returns name
    /\ ChatView.getChatPreview aliceStored cw = Returns preview.
Proof.
  cbv zeta.
  destruct (getChatWithMembers (storage (aliceAndBob tickingClock)) 1)
    as [cw|] eqn:G; [|vm_compute in G; discriminate G].
  destruct (chat_views_never_throw (storage (aliceAndBob tickingClock)) 1 cw
              aliceStored G) as ((name & N) & _ & (preview & P)).
  exists cw, name, preview. split; [reflexivity|]. split; [exact N|exact P].
Defined.

Lemma direct_chat_is_named_after_the_other_witness :
  let w := aliceAndBobRegistered tickingClock in
  exists cw,
    eval (Routes.postChatsDirect 1 2) w = Json (Some cw)
    /\ ChatView.getChatName aliceStored cw = Returns "bob"%string
    /\ ChatView.getChatName bobStored cw = Returns "alice"%string
    /\ ChatView.getChatStatus aliceStored cw = Returns "Online"%string.
Proof.
  destruct (direct_chat_is_named_after_the_other
              (aliceAndBobRegistered tickingClock) 1 2 aliceStored bobStored
              (aliceAndBobRegistered_reachable tickingClock)
              ltac:(discriminate) eq_refl eq_refl
              ltac:(discriminate) ltac:(discriminate))
    as (cw & E & Na & Nb & Sa & _).
  exists cw. split; [exact E|]. split; [exact Na|]. split; [exact Nb|exact Sa].
Defined.

Lemma group_from_dialog_has_each_member_once_witness :
  let w := teamOfThree tickingClock in
  let selected := selectedAfter [2; 3; 2] in
  let typed := (noBreakSpace ++ "Team " ++ ideographicSpace)%string in
  selected = [3]
  /\ exists chatData,
      CreateGroupModal.handleSubmit aliceStored typed selected
      = Some (chatData, Some selected)
      /\ InsertChat.name chatData = Some "Team"%string
      /\ map ChatMember.userId
             (rowsOfChat
                (storage (exec (Routes.postChats chatData (Some selected)) w))
                2)
         = [1; 3].
Proof.
  split; [reflexivity|].
  destruct (group_from_dialog_has_each_member_once
              (teamOfThree tickingClock) aliceStored
              (getOnlineUsers (storage (teamOfThree tickingClock)))
              (noBreakSpace ++ "Team " ++ ideographicSpace)%string [2; 3; 2]
              (teamOfThree_reachable tickingClock))
    as (chatData & S & N & _ & Rows & _).
  - repeat (apply Forall_cons; [vm_compute; auto|]). apply Forall_nil.
  - reflexivity.
  - reflexivity.
  - vm_compute. discriminate.
  - exists chatData. split; [exact S|]. split; [exact N|exact Rows].
Defined.

Lemma DatabaseStorage_keeps_oldest_witness :
  let st := storage threeMessages in
  messageIds (getChatMessages st 1 2) = [2; 3]
  /\ (exists answer,
        DatabaseStorage.getChatMessages (tablesOf st) 1 2 answer)
  /\ (forall answer,
        DatabaseStorage.getChatMessages (tablesOf st) 1 2 answer ->
        map fst answer
        = firstn 2 (filter (senderResolves st) (timeline st 1))).
Proof.
  split; [reflexivity|].
  destruct (DatabaseStorage_keeps_oldest threeMessages 1 2
              threeMessages_reachable) as (Some_answer & Every & _).
  - vm_compute. repeat constructor.
  - split; [exact Some_answer|].
    intros answer A. exact (proj1 (Every answer A)).
Defined.

Lemma direct_chat_in_both_lists_witness :
  let w := aliceAndBobRegistered tickingClock in
  let w1 := exec (Routes.postChatsDirect 1 2) w in
  exists cw,
    eval (Routes.postChatsDirect 1 2) w = Json (Some cw)
    /\ In cw (filter ChatView.isDirect (getUserChats (storage w1) 1))
    /\ In cw (filter ChatView.isDirect (getUserChats (storage w1) 2)).
Proof.
  exact (direct_chat_in_both_lists
           (aliceAndBobRegistered tickingClock) 1 2 aliceStored bobStored
           (aliceAndBobRegistered_reachable tickingClock)
           ltac:(discriminate) eq_refl eq_refl).
Defined.

Lemma preview_after_sending_witness :
  let w := aliceAndBob tickingClock in
  let typed := (lineSeparator ++ " bye" ++ noBreakSpace)%string in
  exists body cw,
    ChatView.handleSendMessage aliceStored openedChat typed = Some body
    /\ getChatWithMembers (storage (exec (Routes.postMessages body) w)) 1
       = Some cw
    /\ ChatView.getChatPreview aliceStored cw = Returns "You: bye"%string
    /\ ChatView.getChatPreview bobStored cw = Returns "alice: bye"%string.
Proof.
  destruct (preview_after_sending (aliceAndBob tickingClock)
              aliceStored aliceStored openedChat
              (lineSeparator ++ " bye" ++ noBreakSpace)%string
              (aliceAndBob_reachable tickingClock) eq_refl eq_refl)
    as (body & cw & S & G & _ & Mine & Theirs).
  - vm_compute. repeat constructor.
  - reflexivity.
  - reflexivity.
  - exists body, cw. split; [exact S|]. split; [exact G|].
    split; [exact Mine|]. apply Theirs. discriminate.
Defined.

Lemma presence_shows_in_chats_witness :
  let w := aliceAndBob tickingClock in
  let w' := exec (Routes.putUsersStatus 2 false) w in
  exists cw',
    getChatWithMembers (storage w') 1 = Some cw'
    /\ ChatView.getChatStatus aliceStored cw' = Returns "Offline"%string.
Proof.
  cbv zeta.
  destruct (getChatWithMembers (storage (aliceAndBob tickingClock)) 1)
    as [cw|] eqn:G; [|vm_compute in G; discriminate G].
  refine (proj2 (presence_shows_in_chats (aliceAndBob tickingClock) 2
                   bobStored false
                   (aliceAndBob_reachable tickingClock) eq_refl)
                1 aliceStored 1 cw _ eq_refl G _).
  - discriminate.
  - vm_compute in G. injection G as <-. reflexivity.
Defined.
